(** * The math filters of [lib/ansible/plugins/filter/mathstuff.py]

    A shallow embedding of the filter module, the properties its
    specification states about it, and further properties of the code:
    edge cases, the exceptions each filter lets through, invariants of the
    results, how the filters compose.

    The filters are small Python functions over dynamically typed values, so
    the development has three layers:

    - [Py]: the fragment of the Python 3 object model the filters touch
      (values, exceptions, [==], [<], [in], iteration, [dict], [set],
      [float()], [%]-formatting, the [math] module);
    - [mathstuff]: the filters themselves, one definition per source
      function, under the source's names;
    - the theorems, grouped by filter.

    Floats are IEEE binary64 ([PrimFloat]).  What the interpreter takes from
    the C library or from other Ansible modules (the libm functions, the text
    parser of [float()], [round], [basic.bytes_to_human],
    [basic.human_to_bytes]) is a field of the record [Py.Platform].

    Object identity is not modelled.  Python tests it before [==] in three
    places the filters reach: [x in c], the lookup of a key in a [dict] or
    [set], and the item-by-item comparison of two sequences.  On a value
    that is equal to itself the test changes nothing, and every value is
    equal to itself unless a NaN is inside it; so [list_mem], [dict_find],
    [all2] and [lex] are these operations on values without a NaN inside.
    A statement that would depend on the identity of a NaN object carries
    the hypothesis [Spec.self_equal]. *)

From Stdlib Require Import ZArith QArith List String Ascii Bool Lia Floats.
Import ListNotations.

Set Warnings "-register-all".
Local Open Scope Z_scope.

Module Py.

(** ** Values *)

Inductive pyval : Type :=
| VNone
| VBool (b : bool)
| VInt (z : Z)
| VFloat (f : float)
| VStr (s : string)                  (* text_type *)
| VBytes (s : string)                (* binary_type *)
| VList (l : list pyval)
| VTuple (l : list pyval)
| VSet (l : list pyval)              (* elements in iteration order *)
| VDict (d : list (pyval * pyval)).  (* items in insertion order *)

Definition dict := list (pyval * pyval).

(** ** Exceptions

    [errors.AnsibleFilterError] is the one exception class the module raises
    itself.  Its message is kept as the message template together with the
    value that is formatted into it. *)

Inductive exn : Type :=
| TypeError
| ValueError
| KeyError
| OverflowError
| ZeroDivisionError
| AnsibleFilterError (m : filter_msg)
with filter_msg : Type :=
| LogNumbers (cause : exn)
    (* 'log() can only be used on numbers: %s' % str(e) *)
| PowNumbers (cause : exn)
    (* 'pow() can only be used on numbers: %s' % str(e) *)
| RootNumbers (cause : exn)
    (* 'root() can only be used on numbers: %s' % str(e) *)
| HaversineListLength (n : nat)
    (* 'haversine() supplied list should contain 4 elements [lat1, lon1, lat2, lon2]. %s supplied.' % len(coordinates) *)
| HaversineDictKeys
    (* 'haversine() supplied dicts must contain 4 keys (unit optional): lat1, lon1, lat2 and lon2' *)
| HaversineInputType
    (* 'haversine() only accepts a list or dict of coordinates.' *)
| HaversineFloats (cause : exn)
    (* 'haversine() only accepts floats: %s' % str(e) *)
| HaversineUnit
    (* 'haversine() unit must be m or km if defined' *)
| HaversineWentWrong (cause : exn)
    (* 'haversine() something went wrong: %s' % str(e) *)
| HumanReadable (size : pyval)
    (* "human_readable() can't interpret following string: %s" % size *)
| HumanToBytes (size : pyval)
    (* "human_to_bytes() can't interpret following string: %s" % size *)
| RekeyDuplicatesValue (duplicates : pyval)
    (* "duplicates parameter to rekey_on_member has unknown value: {0}".format(duplicates) *)
| RekeyDataType
    (* "Type is not a valid list, set, or dict" *)
| RekeyItemType
    (* "List item is not a valid dict" *)
| RekeyKeyNotFound (key : pyval)
    (* "Key {0} was not found".format(key) *)
| RekeyNative (cause : exn)
    (* to_native(e) *)
| RekeyNotUnique (key_elem : pyval)
    (* "Key {0} is not unique, cannot correctly turn into dict".format(key_elem) *).

(** The error kinds of the specification (section 7).  The source does not
    subclass: a kind is read off the message. *)
Inductive ErrorKind := InvalidArgument | MissingKey | DuplicateKey | ConversionError.

Definition error_kind (m : filter_msg) : ErrorKind :=
  match m with
  | RekeyKeyNotFound _ => MissingKey
  | RekeyNotUnique _ => DuplicateKey
  | HumanReadable _ | HumanToBytes _ => ConversionError
  | _ => InvalidArgument
  end.

(** ** Computations that may raise *)

Inductive result (A : Type) : Type :=
| Ok (a : A)
| Raise (e : exn).
Arguments Ok {A} a.
Arguments Raise {A} e.

Definition bind {A B} (r : result A) (k : A -> result B) : result B :=
  match r with
  | Ok a => k a
  | Raise e => Raise e
  end.

Declare Scope py_scope.
Delimit Scope py_scope with py.
Notation "x <- r ;; k" := (bind r (fun x => k))
  (at level 61, r at next level, right associativity) : py_scope.
Notation "' p <- r ;; k" := (bind r (fun p => k))
  (at level 61, p pattern, r at next level, right associativity) : py_scope.
Local Open Scope py_scope.

(** A comprehension [[x for x in l if p(x)]] whose condition may raise. *)
Fixpoint filterM {A} (p : A -> result bool) (l : list A) : result (list A) :=
  match l with
  | [] => Ok []
  | x :: l' =>
      b <- p x ;;
      r <- filterM p l' ;;
      Ok (if b then x :: r else r)
  end.

(** Sequences compare item by item: [all2] is [==] on two sequences, [lex]
    is [<], decided at the first index where the items differ.  (Python
    takes two items that are the same object as equal without calling
    [==]; see the note on identity at the head of the file.) *)
Section Sequences.

Variable A : Type.
Variable eqf : A -> A -> bool.
Variable ltf : A -> A -> result bool.

Fixpoint all2 (l m : list A) : bool :=
  match l, m with
  | [], [] => true
  | x :: l', y :: m' => eqf x y && all2 l' m'
  | _, _ => false
  end.

Fixpoint lex (l m : list A) : result bool :=
  match l, m with
  | [], [] => Ok false
  | [], _ :: _ => Ok true
  | _ :: _, [] => Ok false
  | x :: l', y :: m' => if eqf x y then lex l' m' else ltf x y
  end.

End Sequences.

Arguments all2 {A} eqf l m.
Arguments lex {A} eqf ltf l m.

(** ** Numbers

    [bool], [int] and [float] compare by exact mathematical value. *)

Inductive xnum : Type := XNegInf | XFin (q : Q) | XPosInf.

Definition float_val (f : float) : option xnum :=
  match Prim2SF f with
  | S754_zero _ => Some (XFin 0)
  | S754_infinity s => Some (if s then XNegInf else XPosInf)
  | S754_nan => None
  | S754_finite s m e =>
      let n := if s then Zneg m else Zpos m in
      Some (XFin (match e with
                  | Z0 => n # 1
                  | Zpos p => (n * Zpos (2 ^ p)) # 1
                  | Zneg p => n # (2 ^ p)
                  end))
  end.

Definition num_val (v : pyval) : option xnum :=
  match v with
  | VBool b => Some (XFin (Z.b2z b # 1))
  | VInt z => Some (XFin (z # 1))
  | VFloat f => float_val f
  | _ => None
  end.

Definition xnum_eqb (x y : xnum) : bool :=
  match x, y with
  | XNegInf, XNegInf | XPosInf, XPosInf => true
  | XFin p, XFin q => Qeq_bool p q
  | _, _ => false
  end.

Definition xnum_ltb (x y : xnum) : bool :=
  match x, y with
  | XNegInf, (XFin _ | XPosInf) => true
  | XFin _, XPosInf => true
  | XFin p, XFin q => negb (Qle_bool q p)
  | _, _ => false
  end.

(** [int -> float], round to nearest even; [None] is OverflowError. *)
Definition float_of_Z (z : Z) : option float :=
  let f := SF2Prim (binary_normalize prec emax z 0 false) in
  if PrimFloat.eqb (abs f) infinity then None else Some f.

(** ** [==]

    Two sets, or two dicts, are equal when they have the same size and each
    holds the other's entries.  Python checks one inclusion only, which is
    enough because keys are distinct; the list representation does not
    enforce that, so both inclusions are written out. *)

Fixpoint py_eq (a b : pyval) {struct a} : bool :=
  match a, b with
  | VNone, VNone => true
  | VStr s, VStr t | VBytes s, VBytes t => String.eqb s t
  | VList l, VList m | VTuple l, VTuple m =>
      all2 py_eq l m
  | VSet l, VSet m =>
      Nat.eqb (List.length l) (List.length m)
      && forallb (fun x => existsb (fun y => py_eq x y) m) l
      && forallb (fun y => existsb (fun x => py_eq x y) l) m
  | VDict d, VDict e =>
      Nat.eqb (List.length d) (List.length e)
      && forallb (fun kv => let '(k, v) := kv in
                  existsb (fun kv' => py_eq k (fst kv') && py_eq v (snd kv')) e) d
      && forallb (fun kv' =>
                  existsb (fun kv => let '(k, v) := kv in
                           py_eq k (fst kv') && py_eq v (snd kv')) d) e
  | _, _ =>
      match num_val a, num_val b with
      | Some x, Some y => xnum_eqb x y
      | _, _ => false
      end
  end.

(** Induction over values, through the lists they nest. *)
Section pyval_induction.

Variable Pr : pyval -> Prop.
Hypothesis HNone : Pr VNone.
Hypothesis HBool : forall b, Pr (VBool b).
Hypothesis HInt : forall z, Pr (VInt z).
Hypothesis HFloat : forall f, Pr (VFloat f).
Hypothesis HStr : forall s, Pr (VStr s).
Hypothesis HBytes : forall s, Pr (VBytes s).
Hypothesis HList : forall l, Forall Pr l -> Pr (VList l).
Hypothesis HTuple : forall l, Forall Pr l -> Pr (VTuple l).
Hypothesis HSet : forall l, Forall Pr l -> Pr (VSet l).
Hypothesis HDict :
  forall d, Forall (fun kv => Pr (fst kv) /\ Pr (snd kv)) d -> Pr (VDict d).

Fixpoint pyval_nested_ind (v : pyval) : Pr v :=
  let each :=
    fix each (l : list pyval) : Forall Pr l :=
      match l with
      | [] => Forall_nil _
      | x :: l' => Forall_cons x (pyval_nested_ind x) (each l')
      end in
  match v with
  | VNone => HNone
  | VBool b => HBool b
  | VInt z => HInt z
  | VFloat f => HFloat f
  | VStr s => HStr s
  | VBytes s => HBytes s
  | VList l => HList l (each l)
  | VTuple l => HTuple l (each l)
  | VSet l => HSet l (each l)
  | VDict d =>
      HDict d
        ((fix items (d : list (pyval * pyval))
            : Forall (fun kv => Pr (fst kv) /\ Pr (snd kv)) d :=
            match d with
            | [] => Forall_nil _
            | (k, v) :: d' =>
                Forall_cons (k, v) (conj (pyval_nested_ind k) (pyval_nested_ind v))
                            (items d')
            end) d)
  end.

End pyval_induction.

(** ** [hash], truth value, [isinstance(_, collections.Hashable)] *)

(** [hash(v)] succeeds. *)
Fixpoint hashable (v : pyval) : bool :=
  match v with
  | VList _ | VSet _ | VDict _ => false
  | VTuple l => forallb hashable l
  | _ => true
  end.

(** [isinstance(v, collections.Hashable)]: the type of [v] defines
    [__hash__].  A tuple passes whatever it holds. *)
Definition is_Hashable (v : pyval) : bool :=
  match v with
  | VList _ | VSet _ | VDict _ => false
  | _ => true
  end.

Definition is_number (v : pyval) : bool :=
  match v with
  | VBool _ | VInt _ | VFloat _ => true
  | _ => false
  end.

Definition py_truthy (v : pyval) : bool :=
  match v with
  | VNone => false
  | VBool b => b
  | VInt z => negb (z =? 0)
  | VFloat f => negb (PrimFloat.eqb f 0)
  | VStr s | VBytes s => negb (String.eqb s "")
  | VList l | VTuple l | VSet l => negb (Nat.eqb (List.length l) 0)
  | VDict d => negb (Nat.eqb (List.length d) 0)
  end.

(** ** [<] and [>] *)

(** [x in l]: [e == x] for some element [e] of [l].  (Python also accepts
    an [e] that is the object [x] itself, which matters for a NaN only.) *)
Definition list_mem (x : pyval) (l : list pyval) : bool :=
  existsb (fun e => py_eq e x) l.

Definition subset (l m : list pyval) : bool :=
  forallb (fun x => list_mem x m) l.

Fixpoint py_lt (a b : pyval) {struct a} : result bool :=
  match a, b with
  | VStr s, VStr t | VBytes s, VBytes t => Ok (String.ltb s t)
  | VList l, VList m | VTuple l, VTuple m =>
      lex py_eq py_lt l m
  | VSet l, VSet m => Ok (subset l m && negb (subset m l))
  | _, _ =>
      if is_number a && is_number b then
        match num_val a, num_val b with
        | Some x, Some y => Ok (xnum_ltb x y)
        | _, _ => Ok false
        end
      else Raise TypeError
  end.

(** On the built-in types [a > b] is [b < a]. *)
Definition py_gt (a b : pyval) : result bool := py_lt b a.

(** ** Iteration and [in] *)

Definition py_iter (v : pyval) : result (list pyval) :=
  match v with
  | VList l | VTuple l | VSet l => Ok l
  | VDict d => Ok (map fst d)
  | VStr s => Ok (map (fun c => VStr (String c EmptyString)) (list_ascii_of_string s))
  | VBytes s => Ok (map (fun c => VInt (Z.of_N (N_of_ascii c))) (list_ascii_of_string s))
  | _ => Raise TypeError
  end.

Definition is_substring (t s : string) : bool :=
  match String.index 0 t s with
  | Some _ => true
  | None => false
  end.

Definition byte_in (z : Z) (s : string) : result bool :=
  if (0 <=? z) && (z <? 256)
  then Ok (existsb (fun c => Z.of_N (N_of_ascii c) =? z) (list_ascii_of_string s))
  else Raise ValueError.

(** [x in c] *)
Definition py_contains (c x : pyval) : result bool :=
  match c with
  | VList l | VTuple l => Ok (list_mem x l)
  | VSet l =>
      match x with
      | VSet _ => Ok false  (* looked up as a frozenset; the model holds none *)
      | _ => if hashable x then Ok (list_mem x l) else Raise TypeError
      end
  | VDict d => if hashable x then Ok (list_mem x (map fst d)) else Raise TypeError
  | VStr s =>
      match x with
      | VStr t => Ok (is_substring t s)
      | _ => Raise TypeError
      end
  | VBytes s =>
      match x with
      | VBytes t => Ok (is_substring t s)
      | VInt z => byte_in z s
      | VBool b => byte_in (Z.b2z b) s
      | _ => Raise TypeError
      end
  | _ => Raise TypeError
  end.

(** ** [dict]

    A key is found by [==] (Python: by identity or [==], among keys of the
    same hash; equal values of the built-in types hash alike). *)

Fixpoint dict_find (d : dict) (k : pyval) : option pyval :=
  match d with
  | [] => None
  | (k0, v) :: d' => if py_eq k0 k then Some v else dict_find d' k
  end.

(** An existing key keeps its place (and its key object); a new one goes last. *)
Fixpoint dict_set (d : dict) (k v : pyval) : dict :=
  match d with
  | [] => [(k, v)]
  | (k0, v0) :: d' => if py_eq k0 k then (k0, v) :: d' else (k0, v0) :: dict_set d' k v
  end.

(** [d[k]] *)
Definition dict_getitem (d : dict) (k : pyval) : result pyval :=
  if hashable k then
    match dict_find d k with
    | Some v => Ok v
    | None => Raise KeyError
    end
  else Raise TypeError.

Definition dict_find_default (d : dict) (k default : pyval) : pyval :=
  match dict_find d k with
  | Some v => v
  | None => default
  end.

(** [d.get(k, default)] *)
Definition dict_get (d : dict) (k default : pyval) : result pyval :=
  if hashable k then Ok (dict_find_default d k default) else Raise TypeError.

(** [d[k] = v] *)
Definition dict_setitem (d : dict) (k v : pyval) : result dict :=
  if hashable k then Ok (dict_set d k v) else Raise TypeError.

(** ** [set] *)

(** The elements of [l], each kept the first time it is seen. *)
Definition first_seen (l : list pyval) : list pyval :=
  fold_left (fun c x => if list_mem x c then c else c ++ [x]) l [].
Arguments first_seen l : simpl never.

(** [set(a)], as the list of its elements. *)
Definition py_set (a : pyval) : result (list pyval) :=
  l <- py_iter a ;;
  if forallb hashable l then Ok (first_seen l) else Raise TypeError.

(** [s & t] walks the smaller set ([t] when they are of one size) and keeps
    its elements that are in the other one. *)
Definition set_and (s t : list pyval) : list pyval :=
  if (List.length s <? List.length t)%nat
  then filter (fun x => list_mem x t) s
  else filter (fun x => list_mem x s) t.
Definition set_sub (s t : list pyval) : list pyval :=
  filter (fun x => negb (list_mem x t)) s.
Definition set_or (s t : list pyval) : list pyval := s ++ set_sub t s.
Definition set_xor (s t : list pyval) : list pyval := set_sub s t ++ set_sub t s.

(** ** The platform

    What the interpreter and the filters take from outside: the C library,
    the parser behind [float(text)], [round], and the two functions of
    [ansible.module_utils.basic]. *)

Record Platform : Type := {
  float_of_string : string -> option float;   (* None: ValueError *)
  py_round : float -> Z -> float;             (* round(x, ndigits) *)
  float_pow : float -> float -> result float; (* x ** y on floats *)
  libm_sin : float -> float;
  libm_cos : float -> float;
  libm_asin : float -> float;
  libm_log : float -> float;
  libm_log10 : float -> float;
  libm_pow : float -> float -> result float;  (* math.pow on two doubles *)
  basic_bytes_to_human : pyval -> pyval -> pyval -> result pyval;
  basic_human_to_bytes : pyval -> pyval -> pyval -> result pyval
}.

(** ** Number conversions, [+], the [math] module *)

Definition float_of_bool (b : bool) : float := if b then 1%float else 0%float.

Definition float_of_int (z : Z) : result float :=
  match float_of_Z z with
  | Some f => Ok f
  | None => Raise OverflowError
  end.

(** The conversion the [math] functions apply to an argument. *)
Definition as_double (v : pyval) : result float :=
  match v with
  | VFloat f => Ok f
  | VInt z => float_of_int z
  | VBool b => Ok (float_of_bool b)
  | _ => Raise TypeError
  end.

Definition int_like (v : pyval) : option Z :=
  match v with
  | VInt z => Some z
  | VBool b => Some (Z.b2z b)
  | _ => None
  end.

(** [a + b] *)
Definition py_add (a b : pyval) : result pyval :=
  match a, b with
  | VList l, VList m => Ok (VList (l ++ m))
  | VTuple l, VTuple m => Ok (VTuple (l ++ m))
  | VStr s, VStr t => Ok (VStr (s ++ t))
  | VBytes s, VBytes t => Ok (VBytes (s ++ t))
  | _, _ =>
      if is_number a && is_number b then
        match int_like a, int_like b with
        | Some x, Some y => Ok (VInt (x + y))
        | _, _ => x <- as_double a ;; y <- as_double b ;; Ok (VFloat (x + y))
        end
      else Raise TypeError
  end.

(** [x / y] on floats *)
Definition float_div (x y : float) : result float :=
  if PrimFloat.eqb y 0 then Raise ZeroDivisionError else Ok (x / y)%float.

Definition is_inf (x : float) : bool := PrimFloat.eqb (abs x) infinity.

(** [pi / 180], as the C library's [M_PI] divides. *)
Definition deg_to_rad : float := (0x1.921fb54442d18p+1 / 180)%float.

Definition math_radians (x : float) : float := (x * deg_to_rad)%float.

Definition math_sqrt (x : float) : result float :=
  if PrimFloat.ltb x 0 then Raise ValueError else Ok (PrimFloat.sqrt x).

(** Bit length and rounded mantissa of an integer beyond the double range. *)
Definition long_frexp (z : Z) : float * Z :=
  let e := Z.log2 z + 1 in
  let x := SF2Prim (binary_normalize prec emax z (- e) false) in
  if PrimFloat.eqb x 1 then (0.5%float, e + 1) else (x, e).

Section WithPlatform.

Context (P : Platform).

(** [float(v)] *)
Definition py_float (v : pyval) : result float :=
  match v with
  | VFloat f => Ok f
  | VInt z => float_of_int z
  | VBool b => Ok (float_of_bool b)
  | VStr s | VBytes s =>
      match float_of_string P s with
      | Some f => Ok f
      | None => Raise ValueError
      end
  | _ => Raise TypeError
  end.

Definition math_sin (x : float) : result float :=
  if is_inf x then Raise ValueError else Ok (libm_sin P x).

Definition math_cos (x : float) : result float :=
  if is_inf x then Raise ValueError else Ok (libm_cos P x).

Definition math_asin (x : float) : result float :=
  if PrimFloat.ltb 1 (abs x) then Raise ValueError else Ok (libm_asin P x).

(** The argument handling shared by [math.log] and [math.log10]: a
    non-positive number is a domain error, an integer of any size is
    accepted. *)
Definition loghelper (f : float -> float) (v : pyval) : result float :=
  match int_like v with
  | Some z =>
      if z <=? 0 then Raise ValueError
      else match float_of_Z z with
           | Some x => Ok (f x)
           | None =>
               let '(x, e) := long_frexp z in
               e' <- float_of_int e ;;
               Ok (f x + f 2 * e')%float
           end
  | None =>
      x <- as_double v ;;
      if PrimFloat.leb x 0 then Raise ValueError else Ok (f x)
  end.

Definition math_log10 (x : pyval) : result float := loghelper (libm_log10 P) x.

(** [math.log(x, base)] *)
Definition math_log (x base : pyval) : result float :=
  num <- loghelper (libm_log P) x ;;
  den <- loghelper (libm_log P) base ;;
  float_div num den.

(** [math.pow(x, y)] *)
Definition math_pow (x y : pyval) : result float :=
  fx <- as_double x ;;
  fy <- as_double y ;;
  libm_pow P fx fy.

End WithPlatform.

(** ** [fmt % arg] for a format with a single [%s]

    A tuple on the right is the argument list, anything else is the one
    argument. *)
Definition percent_s (fmt : pyval -> filter_msg) (arg : pyval) : result filter_msg :=
  match arg with
  | VTuple [x] => Ok (fmt x)
  | VTuple _ => Raise TypeError
  | _ => Ok (fmt arg)
  end.

(** ** The built-in [min] and [max] *)

Fixpoint scan (better : pyval -> pyval -> result bool) (best : pyval) (l : list pyval)
  : result pyval :=
  match l with
  | [] => Ok best
  | item :: l' =>
      b <- better item best ;;
      scan better (if b then item else best) l'
  end.

Definition builtin_extreme (better : pyval -> pyval -> result bool) (a : pyval)
  : result pyval :=
  l <- py_iter a ;;
  match l with
  | [] => Raise ValueError
  | x :: l' => scan better x l'
  end.

Definition builtin_min : pyval -> result pyval := builtin_extreme py_lt.
Definition builtin_max : pyval -> result pyval := builtin_extreme py_gt.

End Py.

(** * The filters *)

Module mathstuff.

Import Py.
Local Open Scope py_scope.

(** ** Set theory

    The test of each filter is on the collections themselves:
    [isinstance(a, collections.Hashable)]. *)

(** [unique(a)], lines 37-45 *)
Definition unique (a : pyval) : result pyval :=
  if is_Hashable a then
    c <- py_set a ;;
    Ok (VSet c)
  else
    l <- py_iter a ;;
    Ok (VList (first_seen l)).

(** [intersect(a, b)], lines 48-53 *)
Definition intersect (a b : pyval) : result pyval :=
  if is_Hashable a && is_Hashable b then
    s <- py_set a ;;
    t <- py_set b ;;
    Ok (VSet (set_and s t))
  else
    l <- py_iter a ;;
    r <- filterM (fun x => py_contains b x) l ;;
    unique (VList r).

(** [difference(a, b)], lines 56-61 *)
Definition difference (a b : pyval) : result pyval :=
  if is_Hashable a && is_Hashable b then
    s <- py_set a ;;
    t <- py_set b ;;
    Ok (VSet (set_sub s t))
  else
    l <- py_iter a ;;
    r <- filterM (fun x => c <- py_contains b x ;; Ok (negb c)) l ;;
    unique (VList r).

(** [union(a, b)], lines 72-77 *)
Definition union (a b : pyval) : result pyval :=
  if is_Hashable a && is_Hashable b then
    s <- py_set a ;;
    t <- py_set b ;;
    Ok (VSet (set_or s t))
  else
    ab <- py_add a b ;;
    unique ab.

(** [symmetric_difference(a, b)], lines 64-69.  The comprehension calls
    [union(a, b)] once and [intersect(a, b)] for every element. *)
Definition symmetric_difference (a b : pyval) : result pyval :=
  if is_Hashable a && is_Hashable b then
    s <- py_set a ;;
    t <- py_set b ;;
    Ok (VSet (set_xor s t))
  else
    u <- union a b ;;
    l <- py_iter u ;;
    r <- filterM (fun x => i <- intersect a b ;; c <- py_contains i x ;; Ok (negb c)) l ;;
    unique (VList r).

(** ** General math

    [min(a)] and [max(a)], lines 80-87: the built-ins, called as they are. *)

Definition min (a : pyval) : result pyval := builtin_min a.

Definition max (a : pyval) : result pyval := builtin_max a.

(** ** Rekeying

    [rekey_on_member(data, key, duplicates='error')], lines 193-235. *)


(** The [for] loop, lines 214-233; [new_obj] is the mapping built so far. *)
Fixpoint rekey_loop (key duplicates : pyval) (iterate_over : list pyval) (new_obj : dict)
  : result dict :=
  match iterate_over with
  | [] => Ok new_obj
  | item :: rest =>
      match item with
      | VDict fields =>
          key_elem <-
            match dict_getitem fields key with
            | Ok v => Ok v
            | Raise KeyError => Raise (AnsibleFilterError (RekeyKeyNotFound key))
            | Raise e => Raise (AnsibleFilterError (RekeyNative e))
            end ;;
          existing <- dict_get new_obj key_elem VNone ;;
          if py_truthy existing then
            if py_eq duplicates (VStr "error") then
              Raise (AnsibleFilterError (RekeyNotUnique key_elem))
            else if py_eq duplicates (VStr "overwrite") then
              new_obj' <- dict_setitem new_obj key_elem item ;;
              rekey_loop key duplicates rest new_obj'
            else rekey_loop key duplicates rest new_obj
          else
            new_obj' <- dict_setitem new_obj key_elem item ;;
            rekey_loop key duplicates rest new_obj'
      | _ => Raise (AnsibleFilterError RekeyItemType)
      end
  end.

(** Lines 207-212.  What the loop walks: the values of a mapping, the
    elements of any other iterable that is not a text or byte string. *)
Definition rekey_iterate_over (data : pyval) : result (list pyval) :=
  match data with
  | VDict d => Ok (map snd d)
  | VList l | VTuple l | VSet l => Ok l
  | _ => Raise (AnsibleFilterError RekeyDataType)
  end.

Definition rekey_on_member (data key duplicates : pyval) : result pyval :=
  if negb (list_mem duplicates [VStr "error"; VStr "overwrite"]) then
    Raise (AnsibleFilterError (RekeyDuplicatesValue duplicates))
  else
    iterate_over <- rekey_iterate_over data ;;
    new_obj <- rekey_loop key duplicates iterate_over [] ;;
    Ok (VDict new_obj).

Section WithPlatform.

Context (P : Platform).

(** ** Exponents and logarithms *)

Definition math_e : float := 0x1.5bf0a8b145769p+1%float.
Definition logarithm_base_default : pyval := VFloat math_e.

(** [logarithm(x, base=math.e)], lines 90-97 *)
Definition logarithm (x base : pyval) : result pyval :=
  match (if py_eq base (VInt 10) then math_log10 P x else math_log P x base) with
  | Ok r => Ok (VFloat r)
  | Raise TypeError => Raise (AnsibleFilterError (LogNumbers TypeError))
  | Raise e => Raise e
  end.

(** [power(x, y)], lines 100-104 *)
Definition power (x y : pyval) : result pyval :=
  match math_pow P x y with
  | Ok r => Ok (VFloat r)
  | Raise TypeError => Raise (AnsibleFilterError (PowNumbers TypeError))
  | Raise e => Raise e
  end.

Definition inversepower_base_default : pyval := VInt 2.

(** [inversepower(x, base=2)], lines 107-114 *)
Definition inversepower (x base : pyval) : result pyval :=
  match (if py_eq base (VInt 2) then
           fx <- as_double x ;;
           math_sqrt fx
         else
           fb <- py_float P base ;;
           y <- float_div 1 fb ;;
           math_pow P x (VFloat y)) with
  | Ok r => Ok (VFloat r)
  | Raise ValueError => Raise (AnsibleFilterError (RootNumbers ValueError))
  | Raise TypeError => Raise (AnsibleFilterError (RootNumbers TypeError))
  | Raise e => Raise e
  end.

(** ** Haversine

    [haversine(coordinates)], lines 117-174. *)

Definition diameter : dict := [(VStr "m", VFloat 7917.5); (VStr "km", VInt 12742)].

(** [diameter[unit] / 2] *)
Definition radius (unit : pyval) : result float :=
  d <- dict_getitem diameter unit ;;
  x <- as_double d ;;
  float_div x 2.

(** Lines 124-141: the four coordinates and, when the input binds it, the
    local [unit] ([None]: the name is not bound). *)
Definition haversine_unpack (coordinates : pyval)
  : result (pyval * pyval * pyval * pyval * option pyval) :=
  match coordinates with
  | VList l =>
      match l with
      | [lat1; lon1; lat2; lon2] => Ok (lat1, lon1, lat2, lon2, None)
      | [lat1; lon1; lat2; lon2; unit] => Ok (lat1, lon1, lat2, lon2, Some unit)
      | _ => Raise (AnsibleFilterError (HaversineListLength (List.length l)))
      end
  | VDict d =>
      if forallb (fun k => list_mem k (map fst d))
                 [VStr "lat1"; VStr "lon1"; VStr "lat2"; VStr "lon2"]
      then Ok (dict_find_default d (VStr "lat1") VNone,
               dict_find_default d (VStr "lon1") VNone,
               dict_find_default d (VStr "lat2") VNone,
               dict_find_default d (VStr "lon2") VNone,
               Some (dict_find_default d (VStr "unit") VNone))
      else Raise (AnsibleFilterError HaversineDictKeys)
  | _ => Raise (AnsibleFilterError HaversineInputType)
  end.

(** ['unit' in locals() and unit is not None] *)
Definition unit_defined (unit : option pyval) : option pyval :=
  match unit with
  | Some VNone | None => None
  | Some u => Some u
  end.

(** Lines 144-147, the body of the first [try]. *)
Definition haversine_floats (lat1 lon1 lat2 lon2 : pyval)
  : result (float * float * float * float) :=
  f1 <- py_float P lat1 ;;
  f2 <- py_float P lon1 ;;
  f3 <- py_float P lat2 ;;
  f4 <- py_float P lon2 ;;
  Ok (f1, f2, f3, f4).

(** Lines 158-164, the body of the third [try]: the central angle [c]. *)
Definition haversine_angle (lat1 lon1 lat2 lon2 : float) : result float :=
  let dlat := math_radians (lat2 - lat1) in
  let dlon := math_radians (lon2 - lon1) in
  let lat1 := math_radians lat1 in
  let lat2 := math_radians lat2 in
  s1 <- math_sin P (dlat / 2) ;;
  p1 <- float_pow P s1 2 ;;
  c1 <- math_cos P lat1 ;;
  c2 <- math_cos P lat2 ;;
  s2 <- math_sin P (dlon / 2) ;;
  p2 <- float_pow P s2 2 ;;
  let a := (p1 + c1 * c2 * p2)%float in
  r <- math_sqrt a ;;
  t <- math_asin P r ;;
  Ok (2 * t)%float.

(** The second [try] asserts [unit in ['m', 'km']] and turns the
    AssertionError into the filter error; the test is written out. *)
Definition haversine (coordinates : pyval) : result pyval :=
  '(lat1, lon1, lat2, lon2, unit) <- haversine_unpack coordinates ;;
  '(lat1, lon1, lat2, lon2) <-
    match haversine_floats lat1 lon1 lat2 lon2 with
    | Raise ValueError => Raise (AnsibleFilterError (HaversineFloats ValueError))
    | r => r
    end ;;
  _ <-
    match unit_defined unit with
    | Some u =>
        if list_mem u [VStr "m"; VStr "km"] then Ok tt
        else Raise (AnsibleFilterError HaversineUnit)
    | None => Ok tt
    end ;;
  c <-
    match haversine_angle lat1 lon1 lat2 lon2 with
    | Raise e => Raise (AnsibleFilterError (HaversineWentWrong e))
    | r => r
    end ;;
  match unit_defined unit with
  | Some u =>
      r <- radius u ;;
      Ok (VFloat (py_round P (r * c) 2))
  | None =>
      km <- radius (VStr "km") ;;
      m <- radius (VStr "m") ;;
      Ok (VDict [(VStr "km", VFloat (py_round P (km * c) 2));
                 (VStr "m", VFloat (py_round P (m * c) 2))])
  end.

(** ** Computer theory

    [human_readable], lines 177-182, and [human_to_bytes], lines 185-190.
    The message is built inside the [except] branch, with [% size]. *)

Definition human_readable (size isbits unit : pyval) : result pyval :=
  match basic_bytes_to_human P size isbits unit with
  | Ok r => Ok r
  | Raise _ =>
      m <- percent_s HumanReadable size ;;
      Raise (AnsibleFilterError m)
  end.

Definition human_to_bytes (size default_unit isbits : pyval) : result pyval :=
  match basic_human_to_bytes P size default_unit isbits with
  | Ok r => Ok r
  | Raise _ =>
      m <- percent_s HumanToBytes size ;;
      Raise (AnsibleFilterError m)
  end.

End WithPlatform.

End mathstuff.

(** * A small platform

    Closed examples need a concrete platform.  This one is exact where the
    examples look: at zero for the trigonometric functions, [round] and the
    power, at one for the logarithms; elsewhere its floats are NaN.  Its
    text parser reads ["0"] and ["1"], and its byte utilities accept numbers
    only. *)

Module Demo.

Import Py.

Definition only_at (x0 y0 x : float) : float :=
  if PrimFloat.eqb x x0 then y0 else nan.

Definition utility (size _ _ : pyval) : result pyval :=
  match as_double size with
  | Ok _ => Ok size
  | Raise e => Raise e
  end.

Definition platform : Platform := {|
  float_of_string := fun s =>
    if String.eqb s "0" then Some 0%float
    else if String.eqb s "1" then Some 1%float
    else None;
  py_round := fun x _ => only_at 0 0 x;
  float_pow := fun x _ => Ok (only_at 0 0 x);
  libm_sin := only_at 0 0;
  libm_cos := only_at 0 1;
  libm_asin := only_at 0 0;
  libm_log := only_at 1 0;
  libm_log10 := only_at 1 0;
  libm_pow := fun x _ => Ok (only_at 0 0 x);
  basic_bytes_to_human := utility;
  basic_human_to_bytes := utility
|}.

End Demo.

(** * Vocabulary of the properties *)

Module Spec.

Import Py.
Local Open Scope py_scope.

(** [r] is [l] with some elements left out, the others in their order. *)
Inductive subseq {A : Type} : list A -> list A -> Prop :=
| subseq_nil : subseq [] []
| subseq_skip x r l : subseq r l -> subseq r (x :: l)
| subseq_keep x r l : subseq r l -> subseq (x :: r) (x :: l).

(** The elements of [l] in their order, each kept where it occurs first:
    an element is dropped when an element before it in the input ([seen]
    holds those already passed) is equal to it. *)
Fixpoint first_occurrences_from (seen l : list pyval) : list pyval :=
  match l with
  | [] => []
  | x :: l' =>
      if list_mem x seen then first_occurrences_from (seen ++ [x]) l'
      else x :: first_occurrences_from (seen ++ [x]) l'
  end.

Definition first_occurrences (l : list pyval) : list pyval :=
  first_occurrences_from [] l.

(** Every element is equal to itself: no NaN is inside it.  On such
    elements the identity test that Python makes before [==] changes
    nothing. *)
Definition self_equal (l : list pyval) : Prop :=
  Forall (fun x => py_eq x x = true) l.

(** No two elements are equal. *)
Definition distinct (r : list pyval) : Prop :=
  ForallOrdPairs (fun x y => py_eq x y = false) r.

(** Two collections hold the same elements. *)
Definition same_members (u v : pyval) : Prop :=
  exists l m,
    py_iter u = Ok l /\ py_iter v = Ok m /\ forall x, list_mem x l = list_mem x m.

(** Two calls end the same way: with collections of the same elements, or
    with the same exception. *)
Definition same_outcome (r1 r2 : result pyval) : Prop :=
  match r1, r2 with
  | Ok u, Ok v => same_members u v
  | Raise e1, Raise e2 => e1 = e2
  | _, _ => False
  end.

(** A test that does not tell equal values apart. *)
Definition respects_eq (p : pyval -> bool) : Prop :=
  forall x y, py_eq x y = true -> p x = p y.

(** [difference(union(a, b), intersect(a, b))] *)
Definition union_minus_intersection (a b : pyval) : result pyval :=
  u <- mathstuff.union a b ;;
  i <- mathstuff.intersect a b ;;
  mathstuff.difference u i.

(** The result is a hash set, or the call failed hashing an element. *)
Definition set_or_TypeError (r : result pyval) : Prop :=
  match r with
  | Ok (VSet _) | Raise TypeError => True
  | _ => False
  end.

(** *** Minimum and maximum *)

(** [<] is defined between any two elements. *)
Definition mutually_orderable (l : list pyval) : Prop :=
  forall x y, In x l -> In y l -> exists b, py_lt x y = Ok b.

(** The scan of [min] ([better] is [<]) or of [max] ([>]) meets an element
    whose comparison with the best of the elements before it is not
    defined. *)
Definition meets_unordered (better : pyval -> pyval -> result bool) (l : list pyval)
  : Prop :=
  exists x pre item post best,
    l = x :: pre ++ item :: post
    /\ scan better x pre = Ok best
    /\ better item best = Raise TypeError.

(** [x < y] is defined and holds. *)
Definition below (x y : pyval) : bool :=
  match py_lt x y with
  | Ok true => true
  | _ => false
  end.

(** *** Rekeying *)

(** The key a record is filed under: the value of its field [key]. *)
Definition record_key (key item : pyval) : option pyval :=
  match item with
  | VDict fields => dict_find fields key
  | _ => None
  end.

(** Every item is a record with the field [key]; [ks] lists the derived
    keys, each of them hashable. *)
Definition keyed (key : pyval) (items ks : list pyval) : Prop :=
  Forall2 (fun item k => record_key key item = Some k /\ hashable k = true) items ks.


(** The field name [key] and the values the records hold for it are equal
    to themselves (none is a NaN or holds one), so that a key is found in a
    mapping exactly when an equal key is in it. *)
Definition keys_self_equal (key : pyval) (items : list pyval) : Prop :=
  py_eq key key = true
  /\ Forall (fun item => forall k, record_key key item = Some k -> py_eq k k = true) items.

(** [duplicates in ('error', 'overwrite')] *)
Definition known_policy (duplicates : pyval) : bool :=
  list_mem duplicates [VStr "error"; VStr "overwrite"].

(** An entry of the result: a record of the input, filed under the value
    [k'] of its field [key], or under an equal key that was filed before. *)
Definition filed_entry (key : pyval) (items : list pyval) (kv : pyval * pyval) : Prop :=
  In (snd kv) items
  /\ exists k', record_key key (snd kv) = Some k' /\ hashable k' = true
                /\ (k' = fst kv \/ py_eq (fst kv) k' = true).

(** [k], or a key equal to it, is a key of [d]. *)
Definition has_key (d : dict) (k : pyval) : Prop :=
  In k (map fst d) \/ list_mem k (map fst d) = true.

(** Key by key, the same key or an equal one. *)
Definition same_keys (ks ks' : list pyval) : Prop :=
  Forall2 (fun k k' => k' = k \/ py_eq k k' = true) ks ks'.

(** *** Haversine *)

Definition required_keys : list pyval :=
  [VStr "lat1"; VStr "lon1"; VStr "lat2"; VStr "lon2"].

(** The coordinates an input supplies, and the unit tag when it has a place
    for one: the fifth element of a list, the entry [unit] of a mapping
    ([None] when the mapping has no such entry). *)
Inductive coordinates_of
  : pyval -> pyval -> pyval -> pyval -> pyval -> option pyval -> Prop :=
| coordinates_list4 lat1 lon1 lat2 lon2 :
    coordinates_of (VList [lat1; lon1; lat2; lon2]) lat1 lon1 lat2 lon2 None
| coordinates_list5 lat1 lon1 lat2 lon2 unit :
    coordinates_of (VList [lat1; lon1; lat2; lon2; unit]) lat1 lon1 lat2 lon2 (Some unit)
| coordinates_dict d lat1 lon1 lat2 lon2 :
    dict_find d (VStr "lat1") = Some lat1 ->
    dict_find d (VStr "lon1") = Some lon1 ->
    dict_find d (VStr "lat2") = Some lat2 ->
    dict_find d (VStr "lon2") = Some lon2 ->
    coordinates_of (VDict d) lat1 lon1 lat2 lon2
                   (Some (dict_find_default d (VStr "unit") VNone)).

(** A unit is supplied: there is a tag and it is not [None]. *)
Definition supplied_unit (unit : option pyval) (u : pyval) : Prop :=
  unit = Some u /\ u <> VNone.

(** [u in ['m', 'km']] *)
Definition known_unit (u : pyval) : bool := list_mem u [VStr "m"; VStr "km"].

(** [float()] accepts each of [vs]; [fs] are the floats. *)
Definition floats_of (P : Platform) (vs : list pyval) (fs : list float) : Prop :=
  Forall2 (fun v f => py_float P v = Ok f) vs fs.

(** [float()] rejects one of [vs] with ValueError, having accepted those
    before it. *)
Definition text_rejected (P : Platform) (vs : list pyval) : Prop :=
  exists pre x post,
    vs = pre ++ x :: post
    /\ (exists fs, floats_of P pre fs)
    /\ py_float P x = Raise ValueError.

(** When [haversine] raises the filter error. *)
Definition haversine_rejects (P : Platform) (c : pyval) : Prop :=
  match c with VList _ | VDict _ => False | _ => True end
  \/ (exists l, c = VList l /\ List.length l <> 4%nat /\ List.length l <> 5%nat)
  \/ (exists d k, c = VDict d /\ In k required_keys /\ dict_find d k = None)
  \/ (exists lat1 lon1 lat2 lon2 unit,
        coordinates_of c lat1 lon1 lat2 lon2 unit
        /\ (text_rejected P [lat1; lon1; lat2; lon2]
            \/ exists f1 f2 f3 f4,
                floats_of P [lat1; lon1; lat2; lon2] [f1; f2; f3; f4]
                /\ ((exists u, supplied_unit unit u /\ known_unit u = false)
                    \/ exists e, mathstuff.haversine_angle P f1 f2 f3 f4 = Raise e))).

(** The four cases the specification lists, in its words: a list of the
    wrong length, a mapping that misses a key, a coordinate [float()] does
    not parse, a unit that is supplied and is not ['m'] or ['km']. *)
Definition listed_haversine_rejects (P : Platform) (c : pyval) : Prop :=
  (exists l, c = VList l /\ List.length l <> 4%nat /\ List.length l <> 5%nat)
  \/ (exists d k, c = VDict d /\ In k required_keys /\ dict_find d k = None)
  \/ (exists lat1 lon1 lat2 lon2 unit x,
        coordinates_of c lat1 lon1 lat2 lon2 unit
        /\ In x [lat1; lon1; lat2; lon2]
        /\ forall f, py_float P x <> Ok f)
  \/ (exists lat1 lon1 lat2 lon2 unit u,
        coordinates_of c lat1 lon1 lat2 lon2 unit
        /\ supplied_unit unit u /\ known_unit u = false).

(** A distance: the diameter halved, times the central angle, rounded to
    two decimal places. *)
Definition rounded_distance (P : Platform) (diameter c : float) : float :=
  py_round P (diameter / 2 * c) 2.

(** What [haversine] returns for the central angle [c]: one rounded
    distance in the unit supplied, or both under their unit's name. *)
Definition haversine_value (P : Platform) (unit : option pyval) (c : float) : pyval :=
  match mathstuff.unit_defined unit with
  | Some u =>
      VFloat (rounded_distance P (if py_eq u (VStr "km") then 12742 else 7917.5) c)
  | None =>
      VDict [(VStr "km", VFloat (rounded_distance P 12742 c));
             (VStr "m", VFloat (rounded_distance P 7917.5 c))]
  end.

(** The haversine formula of the specification, on the platform's sine,
    cosine, arcsine and power, for angles in degrees:
    [hav(x) = sin^2(x / 2)] and
    [c = 2 asin(sqrt(hav(lat2 - lat1) + cos(lat1) cos(lat2) hav(lon2 - lon1)))],
    each angle converted to radians before it enters the formula. *)
Definition hav (P : Platform) (degrees : float) : result float :=
  s <- math_sin P (math_radians degrees / 2) ;;
  float_pow P s 2.

Definition great_circle_angle (P : Platform) (lat1 lon1 lat2 lon2 : float)
  : result float :=
  h_lat <- hav P (lat2 - lat1) ;;
  h_lon <- hav P (lon2 - lon1) ;;
  c1 <- math_cos P (math_radians lat1) ;;
  c2 <- math_cos P (math_radians lat2) ;;
  r <- math_sqrt (h_lat + c1 * c2 * h_lon) ;;
  t <- math_asin P r ;;
  Ok (2 * t)%float.

(** An input that passes every check the specification lists: it supplies
    four coordinates, [float()] accepts each of them, and a unit, when one
    is supplied, is ['m'] or ['km']. *)
Definition valid_coordinates (P : Platform) (c : pyval) : Prop :=
  exists lat1 lon1 lat2 lon2 unit f1 f2 f3 f4,
    coordinates_of c lat1 lon1 lat2 lon2 unit
    /\ floats_of P [lat1; lon1; lat2; lon2] [f1; f2; f3; f4]
    /\ forall u, supplied_unit unit u -> known_unit u = true.

(** The C library is exact at zero, and so are [round] and the power. *)
Definition exact_at_zero (P : Platform) : Prop :=
  libm_sin P 0 = 0%float
  /\ libm_cos P 0 = 1%float
  /\ libm_asin P 0 = 0%float
  /\ float_pow P 0 2 = Ok 0%float
  /\ py_round P 0 2 = 0%float.

(** *** Logarithms and roots *)

(** A number that is zero or below. *)
Definition nonpositive_number (x : pyval) : bool :=
  match x with
  | VBool b => negb b
  | VInt z => z <=? 0
  | VFloat f => PrimFloat.leb f 0
  | _ => false
  end.

End Spec.

(** * Facts about the object model *)

Module PyFacts.

Import Py Spec.
Local Open Scope py_scope.

Lemma xnum_eqb_sym x y : xnum_eqb x y = xnum_eqb y x.
Proof. destruct x, y; simpl; auto using Qeq_bool_comm. Qed.

Lemma xnum_eqb_trans x y z :
  xnum_eqb x y = true -> xnum_eqb y z = true -> xnum_eqb x z = true.
Proof.
  destruct x, y, z; simpl; try discriminate; auto.
  rewrite !Qeq_bool_iff. intros H1 H2. now rewrite H1.
Qed.

Lemma forallb_pointwise {A} (f g : A -> bool) l :
  Forall (fun x => f x = g x) l -> forallb f l = forallb g l.
Proof. induction 1 as [|x l Hx _ IH]; simpl; congruence. Qed.

Lemma existsb_pointwise {A} (f g : A -> bool) l :
  Forall (fun x => f x = g x) l -> existsb f l = existsb g l.
Proof. induction 1 as [|x l Hx _ IH]; simpl; congruence. Qed.

(** *** [==] is symmetric and transitive *)

Lemma py_eq_number a b :
  is_number a = true ->
  py_eq a b = match num_val a, num_val b with
              | Some x, Some y => xnum_eqb x y
              | _, _ => false
              end.
Proof.
  destruct a; try discriminate; intros _; destruct b; try reflexivity;
    simpl; now destruct (float_val _).
Qed.

Lemma py_eq_number_r a b :
  is_number b = true ->
  py_eq a b = match num_val a, num_val b with
              | Some x, Some y => xnum_eqb x y
              | _, _ => false
              end.
Proof.
  destruct b; try discriminate; intros _; destruct a; try reflexivity;
    simpl; now destruct (float_val _).
Qed.

Lemma num_val_number v x : num_val v = Some x -> is_number v = true.
Proof. destruct v; simpl; congruence. Qed.

Lemma py_eq_number_inv a b :
  is_number a = true -> py_eq a b = true ->
  exists x y, num_val a = Some x /\ num_val b = Some y /\ xnum_eqb x y = true.
Proof.
  intros Ha H. rewrite py_eq_number in H by assumption.
  destruct (num_val a) as [x|]; [|discriminate].
  destruct (num_val b) as [y|]; [|discriminate]. eauto.
Qed.

Lemma py_eq_number_trans a b c :
  is_number a = true -> py_eq a b = true -> py_eq b c = true -> py_eq a c = true.
Proof.
  intros Ha Hab Hbc.
  destruct (py_eq_number_inv _ _ Ha Hab) as (x & y & Hx & Hy & Hxy).
  destruct (py_eq_number_inv _ _ (num_val_number _ _ Hy) Hbc)
    as (y' & z & Hy' & Hz & Hyz).
  rewrite py_eq_number, Hx, Hz by assumption.
  rewrite Hy in Hy'. injection Hy' as <-. eauto using xnum_eqb_trans.
Qed.

Lemma all2_sym (l : list pyval) :
  Forall (fun x => forall y, py_eq x y = py_eq y x) l ->
  forall m, all2 py_eq l m = all2 py_eq m l.
Proof.
  induction 1 as [|x l Hx _ IH]; intros [|y m]; simpl; auto.
  now rewrite Hx, IH.
Qed.

Lemma all2_trans (l : list pyval) :
  Forall (fun x => forall y z, py_eq x y = true -> py_eq y z = true -> py_eq x z = true) l ->
  forall m n, all2 py_eq l m = true -> all2 py_eq m n = true -> all2 py_eq l n = true.
Proof.
  induction 1 as [|x l Hx _ IH]; intros [|y m] [|z n]; simpl; try discriminate; auto.
  rewrite !andb_true_iff. intros [H1 H2] [H3 H4]. eauto.
Qed.

(** A value that is no number is equal to values of its own type only. *)
Ltac same_type H :=
  match type of H with
  | py_eq _ ?b = true =>
      destruct b; try discriminate H;
      try (simpl in H; destruct (float_val _); discriminate H)
  end.

Lemma py_eq_sym a : forall b, py_eq a b = py_eq b a.
Proof.
  induction a as [ | | | | | |l IH|l IH|l IH|d IH] using pyval_nested_ind; intros c.
  1-6: destruct c; try reflexivity;
       try (rewrite py_eq_number, py_eq_number_r by reflexivity;
            destruct (num_val _), (num_val _); auto using xnum_eqb_sym);
       try apply String.eqb_sym;
       try (simpl; now destruct (float_val _)).
  - destruct c; try reflexivity; try (simpl; now destruct (float_val _)).
    simpl. now apply all2_sym.
  - destruct c; try reflexivity; try (simpl; now destruct (float_val _)).
    simpl. now apply all2_sym.
  - destruct c as [| | | | | | | |m|]; try reflexivity;
      try (simpl; now destruct (float_val _)).
    simpl. rewrite Nat.eqb_sym.
    rewrite <- !andb_assoc. f_equal. rewrite andb_comm. f_equal.
    + apply forallb_pointwise, Forall_forall. intros y _.
      apply existsb_pointwise. revert IH. apply Forall_impl.
      intros x Hx. now rewrite Hx.
    + apply forallb_pointwise. revert IH. apply Forall_impl. intros x Hx.
      apply existsb_pointwise, Forall_forall. intros y _. now rewrite Hx.
  - destruct c as [| | | | | | | | |e]; try reflexivity;
      try (simpl; now destruct (float_val _)).
    simpl. rewrite Nat.eqb_sym.
    rewrite <- !andb_assoc. f_equal. rewrite andb_comm. f_equal.
    + apply forallb_pointwise, Forall_forall. intros [k' v'] _.
      apply existsb_pointwise. revert IH. apply Forall_impl.
      intros [k v] [Hk Hv]. simpl in *. now rewrite Hk, Hv.
    + apply forallb_pointwise. revert IH. apply Forall_impl.
      intros [k v] [Hk Hv]. simpl in *.
      apply existsb_pointwise, Forall_forall. intros [k' v'] _. simpl.
      now rewrite Hk, Hv.
Qed.

Lemma py_eq_trans a :
  forall u w, py_eq a u = true -> py_eq u w = true -> py_eq a w = true.
Proof.
  induction a as [ | | | | | |l IH|l IH|l IH|d IH] using pyval_nested_ind;
    intros u w Hab Hbc.
  - same_type Hab. same_type Hbc. reflexivity.
  - now apply py_eq_number_trans with u.
  - now apply py_eq_number_trans with u.
  - now apply py_eq_number_trans with u.
  - same_type Hab. same_type Hbc. simpl in *.
    apply String.eqb_eq in Hab, Hbc. subst. apply String.eqb_refl.
  - same_type Hab. same_type Hbc. simpl in *.
    apply String.eqb_eq in Hab, Hbc. subst. apply String.eqb_refl.
  - same_type Hab. same_type Hbc. simpl in *. eapply all2_trans; eauto.
  - same_type Hab. same_type Hbc. simpl in *. eapply all2_trans; eauto.
  - same_type Hab. same_type Hbc. simpl in *.
    rewrite !andb_true_iff in *.
    destruct Hab as [[N1 A1] B1], Hbc as [[N2 A2] B2].
    apply Nat.eqb_eq in N1, N2. rewrite Forall_forall in IH. repeat split.
    + apply Nat.eqb_eq. congruence.
    + rewrite forallb_forall in *. intros x Hx.
      specialize (A1 x Hx). rewrite existsb_exists in A1.
      destruct A1 as (y & Hy & Hxy).
      specialize (A2 y Hy). rewrite existsb_exists in A2.
      destruct A2 as (z & Hz & Hyz).
      apply existsb_exists. exists z. eauto.
    + rewrite forallb_forall in *. intros z Hz.
      specialize (B2 z Hz). rewrite existsb_exists in B2.
      destruct B2 as (y & Hy & Hyz).
      specialize (B1 y Hy). rewrite existsb_exists in B1.
      destruct B1 as (x & Hx & Hxy).
      apply existsb_exists. exists x. eauto.
  - same_type Hab. same_type Hbc. simpl in *.
    rewrite !andb_true_iff in *.
    destruct Hab as [[N1 A1] B1], Hbc as [[N2 A2] B2].
    apply Nat.eqb_eq in N1, N2. rewrite Forall_forall in IH. repeat split.
    + apply Nat.eqb_eq. congruence.
    + rewrite forallb_forall in *. intros [k v] Hx.
      specialize (A1 _ Hx). simpl in A1. rewrite existsb_exists in A1.
      destruct A1 as ([k1 v1] & Hy & Hxy).
      specialize (A2 _ Hy). simpl in A2. rewrite existsb_exists in A2.
      destruct A2 as ([k2 v2] & Hz & Hyz).
      apply existsb_exists. exists (k2, v2). split; auto. simpl in *.
      rewrite andb_true_iff in *. destruct (IH _ Hx) as [Tk Tv]. simpl in *.
      split; [eapply Tk | eapply Tv]; try apply Hxy; apply Hyz.
    + rewrite forallb_forall in *. intros [k2 v2] Hz.
      specialize (B2 _ Hz). rewrite existsb_exists in B2.
      destruct B2 as ([k1 v1] & Hy & Hyz).
      specialize (B1 _ Hy). rewrite existsb_exists in B1.
      destruct B1 as ([k v] & Hx & Hxy).
      apply existsb_exists. exists (k, v). split; auto. simpl in *.
      rewrite andb_true_iff in *. destruct (IH _ Hx) as [Tk Tv]. simpl in *.
      split; [eapply Tk | eapply Tv]; try apply Hxy; apply Hyz.
Qed.

(** *** Membership *)

Lemma list_mem_app x l m : list_mem x (l ++ m) = list_mem x l || list_mem x m.
Proof. apply existsb_app. Qed.

Lemma list_mem_In x l : list_mem x l = true <-> exists e, In e l /\ py_eq e x = true.
Proof. apply existsb_exists. Qed.

(** Equal values are members of the same lists. *)
Lemma list_mem_eq x y l : py_eq x y = true -> list_mem x l = list_mem y l.
Proof.
  intros H. apply existsb_pointwise, Forall_forall. intros e _.
  destruct (py_eq e x) eqn:Ex, (py_eq e y) eqn:Ey; auto.
  - rewrite (py_eq_trans _ _ _ Ex H) in Ey. discriminate.
  - rewrite py_eq_sym in H. rewrite (py_eq_trans _ _ _ Ey H) in Ex. discriminate.
Qed.

Lemma list_mem_filter p l x :
  respects_eq p -> list_mem x (filter p l) = list_mem x l && p x.
Proof.
  intros Hp. induction l as [|e l IH]; simpl; auto.
  destruct (p e) eqn:Pe; simpl; rewrite IH.
  - destruct (py_eq e x) eqn:E; simpl; auto.
    rewrite <- (Hp _ _ E), Pe. reflexivity.
  - destruct (py_eq e x) eqn:E; simpl; auto.
    rewrite <- (Hp _ _ E), Pe. now rewrite andb_false_r.
Qed.

Lemma respects_mem l : respects_eq (fun x => list_mem x l).
Proof. intros x y H. now apply list_mem_eq. Qed.

Lemma respects_not_mem l : respects_eq (fun x => negb (list_mem x l)).
Proof. intros x y H. f_equal. now apply list_mem_eq. Qed.

Lemma first_seen_from c seen l :
  (forall x, list_mem x c = list_mem x seen) ->
  fold_left (fun c x => if list_mem x c then c else c ++ [x]) l c
  = c ++ first_occurrences_from seen l.
Proof.
  revert c seen. induction l as [|x l IH]; intros c seen Hc; simpl.
  - now rewrite app_nil_r.
  - rewrite <- (Hc x). destruct (list_mem x c) eqn:Mx.
    + apply IH. intros y. rewrite list_mem_app, <- Hc. simpl.
      rewrite orb_false_r. destruct (py_eq x y) eqn:E; [|now rewrite orb_false_r].
      rewrite <- (list_mem_eq _ _ c E), Mx. reflexivity.
    + rewrite (IH (c ++ [x]) (seen ++ [x])).
      * now rewrite <- app_assoc.
      * intros y. now rewrite !list_mem_app, Hc.
Qed.

Lemma first_seen_spec l : first_seen l = first_occurrences l.
Proof. unfold first_seen. now rewrite (first_seen_from [] [] l). Qed.

Lemma first_occurrences_from_app seen a b :
  first_occurrences_from seen (a ++ b)
  = first_occurrences_from seen a ++ first_occurrences_from (seen ++ a) b.
Proof.
  revert seen. induction a as [|x a IH]; intros seen; simpl.
  - now rewrite app_nil_r.
  - rewrite IH, <- app_assoc. simpl. now destruct (list_mem x seen).
Qed.

Lemma first_occurrences_from_subseq seen l : subseq (first_occurrences_from seen l) l.
Proof.
  revert seen. induction l as [|x l IH]; intros seen; simpl.
  - apply subseq_nil.
  - destruct (list_mem x seen); [apply subseq_skip | apply subseq_keep]; apply IH.
Qed.

Lemma first_occurrences_from_In seen l x :
  In x (first_occurrences_from seen l) -> In x l /\ list_mem x seen = false.
Proof.
  revert seen. induction l as [|y l IH]; intros seen; simpl; [tauto|].
  destruct (list_mem y seen) eqn:My.
  - intros H. apply IH in H. rewrite list_mem_app in H.
    destruct H as [H1 H2]. apply orb_false_elim in H2. tauto.
  - intros [->|H]; [tauto|]. apply IH in H. rewrite list_mem_app in H.
    destruct H as [H1 H2]. apply orb_false_elim in H2. tauto.
Qed.

Lemma first_occurrences_from_mem seen l x :
  list_mem x seen || list_mem x (first_occurrences_from seen l)
  = list_mem x seen || list_mem x l.
Proof.
  revert seen. induction l as [|y l IH]; intros seen; simpl; auto.
  specialize (IH (seen ++ [y])). rewrite list_mem_app in IH. simpl in IH.
  rewrite orb_false_r in IH.
  destruct (list_mem y seen) eqn:My; simpl.
  - destruct (py_eq y x) eqn:E.
    + rewrite <- (list_mem_eq _ _ seen E), My. reflexivity.
    + simpl. now rewrite orb_false_r in IH.
  - destruct (py_eq y x) eqn:E; simpl.
    + now rewrite !orb_true_r.
    + now rewrite orb_false_r in IH.
Qed.

Lemma first_occurrences_mem l x : list_mem x (first_occurrences l) = list_mem x l.
Proof. apply (first_occurrences_from_mem [] l x). Qed.

Lemma first_occurrences_from_distinct seen l : distinct (first_occurrences_from seen l).
Proof.
  revert seen. induction l as [|x l IH]; intros seen; simpl.
  - constructor.
  - destruct (list_mem x seen); [apply IH|].
    constructor; [|apply IH].
    apply Forall_forall. intros y Hy.
    apply first_occurrences_from_In in Hy. destruct Hy as [_ Hy].
    rewrite list_mem_app in Hy. apply orb_false_elim in Hy. destruct Hy as [_ Hy].
    simpl in Hy. now rewrite orb_false_r in Hy.
Qed.

Lemma first_occurrences_from_distinct_id r : forall seen,
  distinct r -> (forall x, In x r -> list_mem x seen = false) ->
  first_occurrences_from seen r = r.
Proof.
  induction r as [|x r IH]; intros seen Hd Hs; simpl; auto.
  inversion Hd as [|? ? Hx Hr]; subst.
  rewrite (Hs x) by now left. f_equal. apply IH; auto.
  intros y Hy. rewrite list_mem_app, (Hs y) by now right. simpl.
  rewrite orb_false_r. rewrite Forall_forall in Hx. auto.
Qed.

Lemma filterM_pure {A} (p : A -> bool) l : filterM (fun x => Ok (p x)) l = Ok (filter p l).
Proof.
  induction l as [|x l IH]; simpl; [reflexivity|].
  rewrite IH. simpl. now destruct (p x).
Qed.

Lemma filterM_ext {A} (p q : A -> result bool) l :
  (forall x, In x l -> p x = q x) -> filterM p l = filterM q l.
Proof.
  induction l as [|x l IH]; intros H; simpl; auto.
  rewrite (H x), IH; auto with datatypes.
Qed.

Lemma subseq_trans {A} (l1 l2 l3 : list A) : subseq l1 l2 -> subseq l2 l3 -> subseq l1 l3.
Proof.
  intros H12 H23. revert l1 H12. induction H23; intros l1 H12.
  - assumption.
  - apply subseq_skip. auto.
  - inversion H12; subst.
    + apply subseq_skip. auto.
    + apply subseq_keep. auto.
Qed.

Lemma subseq_filter {A} (p : A -> bool) l : subseq (filter p l) l.
Proof.
  induction l as [|x l IH]; simpl; [apply subseq_nil|].
  destruct (p x); [now apply subseq_keep | now apply subseq_skip].
Qed.

(** *** Dictionaries *)

Lemma dict_find_None d k : list_mem k (map fst d) = false -> dict_find d k = None.
Proof.
  induction d as [|[k0 v0] d IH]; simpl; auto.
  destruct (py_eq k0 k); simpl; [discriminate|auto].
Qed.

Lemma dict_set_new d k v : list_mem k (map fst d) = false -> dict_set d k v = d ++ [(k, v)].
Proof.
  induction d as [|[k0 v0] d IH]; simpl; auto.
  destruct (py_eq k0 k); simpl; [discriminate|]. intros H. now rewrite IH.
Qed.


Lemma dict_find_mem d k :
  list_mem k (map fst d) = true -> exists v, dict_find d k = Some v.
Proof.
  induction d as [|[k0 v0] d IH]; simpl; [discriminate|].
  destruct (py_eq k0 k); simpl; eauto.
Qed.

Lemma dict_find_some_mem d k v :
  dict_find d k = Some v -> list_mem k (map fst d) = true.
Proof.
  destruct (list_mem k (map fst d)) eqn:E; auto.
  rewrite (dict_find_None _ _ E). discriminate.
Qed.

Lemma py_eq_VStr s u : py_eq (VStr s) u = true -> u = VStr s.
Proof.
  destruct u; try discriminate. change (String.eqb s s0 = true -> VStr s0 = VStr s).
  intros H. apply String.eqb_eq in H. now subst.
Qed.

(** *** [<] is a strict order that respects [==] *)

Lemma Qltb_iff p q : negb (Qle_bool q p) = true <-> (p < q)%Q.
Proof.
  rewrite negb_true_iff. split.
  - intros H. apply Qnot_le_lt. intros Hle. apply Qle_bool_iff in Hle. congruence.
  - intros H. apply not_true_is_false. intros Hle. apply Qle_bool_iff in Hle.
    now apply Qlt_not_le in H.
Qed.

Lemma xnum_ltb_irrefl x : xnum_ltb x x = false.
Proof.
  destruct x; simpl; auto. apply negb_false_iff, Qle_bool_iff, Qle_refl.
Qed.

Lemma xnum_ltb_trans x y z :
  xnum_ltb x y = true -> xnum_ltb y z = true -> xnum_ltb x z = true.
Proof.
  destruct x, y, z; simpl; try discriminate; auto.
  rewrite !Qltb_iff. apply Qlt_trans.
Qed.

Lemma xnum_ltb_eq_l x x' y :
  xnum_eqb x x' = true -> xnum_ltb x y = true -> xnum_ltb x' y = true.
Proof.
  destruct x, x', y; simpl; try discriminate; auto.
  rewrite !Qltb_iff, Qeq_bool_iff. now intros ->.
Qed.

Lemma xnum_ltb_eq_r x y y' :
  xnum_eqb y y' = true -> xnum_ltb x y = true -> xnum_ltb x y' = true.
Proof.
  destruct x, y, y'; simpl; try discriminate; auto.
  rewrite !Qltb_iff, Qeq_bool_iff. now intros ->.
Qed.

Lemma string_compare_refl s : String.compare s s = Eq.
Proof.
  induction s as [|a s IH]; simpl; auto.
  unfold Ascii.compare. now rewrite N.compare_refl.
Qed.

Lemma string_ltb_irrefl s : String.ltb s s = false.
Proof. unfold String.ltb. now rewrite string_compare_refl. Qed.

Lemma string_compare_lt_trans s1 : forall s2 s3,
  String.compare s1 s2 = Lt -> String.compare s2 s3 = Lt -> String.compare s1 s3 = Lt.
Proof.
  induction s1 as [|a s1 IH]; intros [|b s2] [|c s3]; simpl; try discriminate; auto.
  unfold Ascii.compare.
  destruct (N.compare_spec (N_of_ascii a) (N_of_ascii b)) as [Hab|Hab|Hab];
    try discriminate;
    destruct (N.compare_spec (N_of_ascii b) (N_of_ascii c)) as [Hbc|Hbc|Hbc];
    try discriminate; intros H1 H2.
  - rewrite Hab, Hbc, N.compare_refl. eauto.
  - rewrite Hab. now apply N.compare_lt_iff in Hbc as ->.
  - rewrite <- Hbc. now apply N.compare_lt_iff in Hab as ->.
  - assert (H : (N_of_ascii a < N_of_ascii c)%N) by (eapply N.lt_trans; eauto).
    now apply N.compare_lt_iff in H as ->.
Qed.

Lemma string_ltb_trans s1 s2 s3 :
  String.ltb s1 s2 = true -> String.ltb s2 s3 = true -> String.ltb s1 s3 = true.
Proof.
  unfold String.ltb.
  destruct (String.compare s1 s2) eqn:E1; try discriminate.
  destruct (String.compare s2 s3) eqn:E2; try discriminate.
  now rewrite (string_compare_lt_trans _ _ _ E1 E2).
Qed.

(** [<] between numbers. *)
Lemma py_lt_number a b :
  is_number a = true -> is_number b = true ->
  py_lt a b = Ok match num_val a, num_val b with
                 | Some x, Some y => xnum_ltb x y
                 | _, _ => false
                 end.
Proof.
  destruct a; try discriminate; intros _; destruct b; try discriminate; intros _;
    simpl; repeat (destruct (float_val _)); reflexivity.
Qed.

Lemma py_lt_number_inv a b :
  py_lt a b = Ok true -> is_number a = true ->
  is_number b = true
  /\ exists x y, num_val a = Some x /\ num_val b = Some y /\ xnum_ltb x y = true.
Proof.
  intros H Ha. assert (Hb : is_number b = true).
  { destruct a; try discriminate; destruct b; try discriminate; reflexivity. }
  split; [assumption|]. rewrite py_lt_number in H by assumption.
  destruct (num_val a) as [x|]; [|discriminate].
  destruct (num_val b) as [y|]; [|discriminate]. injection H as H. eauto.
Qed.

Lemma py_eq_number_vals a b :
  py_eq a b = true -> is_number a = true ->
  is_number b = true
  /\ exists x y, num_val a = Some x /\ num_val b = Some y /\ xnum_eqb x y = true.
Proof.
  intros H Ha. destruct (py_eq_number_inv _ _ Ha H) as (x & y & Hx & Hy & Hxy).
  split; [eapply num_val_number|]; eauto.
Qed.

(** [py_lt a b = Ok true] pins the type of [b] to that of [a]. *)
Ltac lt_same_type H :=
  match type of H with
  | py_lt _ ?b = Ok true => destruct b; try discriminate H
  end.

Lemma lex_irrefl l :
  Forall (fun x => py_lt x x <> Ok true) l -> lex py_eq py_lt l l <> Ok true.
Proof.
  induction 1 as [|x l Hx _ IH]; simpl; [discriminate|].
  now destruct (py_eq x x).
Qed.

Lemma py_lt_irrefl a : py_lt a a <> Ok true.
Proof.
  induction a as [ | | | | | |l IH|l IH|l IH|d IH] using pyval_nested_ind;
    try discriminate.
  - rewrite py_lt_number by reflexivity. destruct (num_val _); [|discriminate].
    now rewrite xnum_ltb_irrefl.
  - rewrite py_lt_number by reflexivity. destruct (num_val _); [|discriminate].
    now rewrite xnum_ltb_irrefl.
  - rewrite py_lt_number by reflexivity. destruct (num_val _); [|discriminate].
    now rewrite xnum_ltb_irrefl.
  - simpl. now rewrite string_ltb_irrefl.
  - simpl. now rewrite string_ltb_irrefl.
  - simpl. now apply lex_irrefl.
  - simpl. now apply lex_irrefl.
  - simpl. now destruct (subset l l).
Qed.

(** Every element of [s] is equal to an element of [t]. *)
Lemma subset_iff s t :
  subset s t = true <-> forall x, In x s -> exists e, In e t /\ py_eq e x = true.
Proof.
  unfold subset. rewrite forallb_forall. split; intros H x Hx.
  - apply list_mem_In. auto.
  - apply list_mem_In. auto.
Qed.

Lemma subset_trans s t u : subset s t = true -> subset t u = true -> subset s u = true.
Proof.
  rewrite !subset_iff. intros Hst Htu x Hx.
  destruct (Hst x Hx) as (e & He & Hex). destruct (Htu e He) as (e' & He' & Hee).
  exists e'. split; [assumption|]. eapply py_eq_trans; eauto.
Qed.

Lemma set_eq_subsets s t :
  py_eq (VSet s) (VSet t) = true -> subset s t = true /\ subset t s = true.
Proof.
  simpl. rewrite !andb_true_iff, !forallb_forall. intros [[_ A] B].
  rewrite !subset_iff. split; intros x Hx.
  - specialize (A x Hx). apply existsb_exists in A. destruct A as (y & Hy & Hxy).
    exists y. split; [assumption|]. now rewrite py_eq_sym.
  - specialize (B x Hx). apply existsb_exists in B. destruct B as (y & Hy & Hxy). eauto.
Qed.

Lemma py_eq_VBytes s u : py_eq (VBytes s) u = true -> u = VBytes s.
Proof.
  destruct u; try discriminate. change (String.eqb s s0 = true -> VBytes s0 = VBytes s).
  intros H. apply String.eqb_eq in H. now subst.
Qed.

Lemma py_eq_false_l x x' y :
  py_eq x x' = true -> py_eq x y = false -> py_eq x' y = false.
Proof.
  intros H Hxy. destruct (py_eq x' y) eqn:E; auto.
  rewrite (py_eq_trans _ _ _ H E) in Hxy. discriminate.
Qed.

Lemma py_eq_true_l x x' y :
  py_eq x x' = true -> py_eq x y = true -> py_eq x' y = true.
Proof. intros H Hxy. rewrite py_eq_sym in H. eapply py_eq_trans; eauto. Qed.

Lemma py_eq_false_r x y y' :
  py_eq y y' = true -> py_eq x y = false -> py_eq x y' = false.
Proof.
  intros H Hxy. destruct (py_eq x y') eqn:E; auto.
  rewrite py_eq_sym in H. rewrite (py_eq_trans _ _ _ E H) in Hxy. discriminate.
Qed.

Lemma lex_eq_l l :
  Forall (fun x => forall x' y, py_eq x x' = true -> py_lt x y = Ok true ->
                                py_lt x' y = Ok true) l ->
  forall l' m, all2 py_eq l l' = true -> lex py_eq py_lt l m = Ok true ->
               lex py_eq py_lt l' m = Ok true.
Proof.
  induction 1 as [|x l Hx _ IH]; intros [|x' l'] [|y m]; simpl; try discriminate; auto.
  rewrite andb_true_iff. intros [Hxx Hll].
  destruct (py_eq x y) eqn:Exy.
  - rewrite (py_eq_true_l _ _ _ Hxx Exy). eauto.
  - rewrite (py_eq_false_l _ _ _ Hxx Exy). eauto.
Qed.

Lemma py_lt_eq_l a : forall a' b,
  py_eq a a' = true -> py_lt a b = Ok true -> py_lt a' b = Ok true.
Proof.
  induction a as [ |v|z|f|s|s|l IH|l IH|l IH|d IH] using pyval_nested_ind;
    intros a' b Heq Hlt; try discriminate.
  1-3: destruct (py_lt_number_inv _ _ Hlt eq_refl) as (Hb & x & y & Hx & Hy & Hxy);
       destruct (py_eq_number_vals _ _ Heq eq_refl) as (Ha' & x0 & x' & Hx0 & Hx' & Hxx);
       rewrite py_lt_number, Hx', Hy by assumption;
       rewrite Hx in Hx0; injection Hx0 as <-;
       f_equal; eapply xnum_ltb_eq_l; eauto.
  - apply py_eq_VStr in Heq. now subst.
  - apply py_eq_VBytes in Heq. now subst.
  - same_type Heq. lt_same_type Hlt. simpl in *. eapply lex_eq_l; eauto.
  - same_type Heq. lt_same_type Hlt. simpl in *. eapply lex_eq_l; eauto.
  - same_type Heq. lt_same_type Hlt.
    apply set_eq_subsets in Heq. destruct Heq as [H1 H2].
    simpl in *. injection Hlt as Hlt. apply andb_true_iff in Hlt. destruct Hlt as [H3 H4].
    f_equal. apply andb_true_iff. split.
    + eapply subset_trans; eauto.
    + apply negb_true_iff. apply negb_true_iff in H4.
      destruct (subset l1 l0) eqn:E; auto.
      rewrite (subset_trans _ _ _ E H2) in H4. discriminate.
Qed.

Lemma lex_eq_r l :
  Forall (fun x => forall y y', py_eq y y' = true -> py_lt x y = Ok true ->
                                py_lt x y' = Ok true) l ->
  forall m m', all2 py_eq m m' = true -> lex py_eq py_lt l m = Ok true ->
               lex py_eq py_lt l m' = Ok true.
Proof.
  induction 1 as [|x l Hx _ IH]; intros [|y m] [|y' m']; simpl; try discriminate; auto.
  rewrite andb_true_iff. intros [Hyy Hmm].
  destruct (py_eq x y) eqn:Exy.
  - rewrite (py_eq_trans _ _ _ Exy Hyy). eauto.
  - rewrite (py_eq_false_r _ _ _ Hyy Exy). eauto.
Qed.

Lemma py_lt_eq_r a : forall b b',
  py_eq b b' = true -> py_lt a b = Ok true -> py_lt a b' = Ok true.
Proof.
  induction a as [ |v|z|f|s|s|l IH|l IH|l IH|d IH] using pyval_nested_ind;
    intros b b' Heq Hlt; try discriminate.
  1-3: destruct (py_lt_number_inv _ _ Hlt eq_refl) as (Hb & x & y & Hx & Hy & Hxy);
       destruct (py_eq_number_vals _ _ Heq Hb) as (Hb' & y0 & y' & Hy0 & Hy' & Hyy);
       rewrite py_lt_number, Hx, Hy' by (assumption || reflexivity);
       rewrite Hy in Hy0; injection Hy0 as <-;
       f_equal; eapply xnum_ltb_eq_r; eauto.
  - lt_same_type Hlt. apply py_eq_VStr in Heq. now subst.
  - lt_same_type Hlt. apply py_eq_VBytes in Heq. now subst.
  - lt_same_type Hlt. same_type Heq. simpl in *. eapply lex_eq_r; eauto.
  - lt_same_type Hlt. same_type Heq. simpl in *. eapply lex_eq_r; eauto.
  - lt_same_type Hlt. same_type Heq.
    apply set_eq_subsets in Heq. destruct Heq as [H1 H2].
    simpl in *. injection Hlt as Hlt. apply andb_true_iff in Hlt. destruct Hlt as [H3 H4].
    f_equal. apply andb_true_iff. split.
    + eapply subset_trans; eauto.
    + apply negb_true_iff. apply negb_true_iff in H4.
      destruct (subset l1 l) eqn:E; auto.
      rewrite (subset_trans _ _ _ H1 E) in H4. discriminate.
Qed.

Lemma lex_trans l :
  Forall (fun x => forall y z, py_lt x y = Ok true -> py_lt y z = Ok true ->
                               py_lt x z = Ok true) l ->
  forall m n, lex py_eq py_lt l m = Ok true -> lex py_eq py_lt m n = Ok true ->
              lex py_eq py_lt l n = Ok true.
Proof.
  induction 1 as [|x l Hx _ IH]; intros [|y m] [|z n]; simpl; try discriminate; auto.
  destruct (py_eq x y) eqn:Exy, (py_eq y z) eqn:Eyz; intros H1 H2.
  - rewrite (py_eq_trans _ _ _ Exy Eyz). eauto.
  - rewrite py_eq_sym in Exy.
    rewrite (py_eq_false_l _ _ _ Exy Eyz). eapply py_lt_eq_l; eauto.
  - rewrite (py_eq_false_r _ _ _ Eyz Exy). eapply py_lt_eq_r; eauto.
  - destruct (py_eq x z) eqn:Exz; [|eauto].
    exfalso. rewrite py_eq_sym in Exz.
    pose proof (py_lt_eq_r _ _ _ Exz H2) as Hyx.
    apply (py_lt_irrefl x). eauto.
Qed.

Lemma py_lt_trans a : forall b c,
  py_lt a b = Ok true -> py_lt b c = Ok true -> py_lt a c = Ok true.
Proof.
  induction a as [ |v|z|f|s|s|l IH|l IH|l IH|d IH] using pyval_nested_ind;
    intros b c Hab Hbc; try discriminate.
  1-3: destruct (py_lt_number_inv _ _ Hab eq_refl) as (Hb & x & y & Hx & Hy & Hxy);
       destruct (py_lt_number_inv _ _ Hbc Hb) as (Hc & y0 & z0 & Hy0 & Hz & Hyz);
       rewrite py_lt_number, Hx, Hz by (assumption || reflexivity);
       rewrite Hy in Hy0; injection Hy0 as <-;
       f_equal; eapply xnum_ltb_trans; eauto.
  - lt_same_type Hab. lt_same_type Hbc. simpl in *.
    injection Hab as Hab. injection Hbc as Hbc. f_equal. eapply string_ltb_trans; eauto.
  - lt_same_type Hab. lt_same_type Hbc. simpl in *.
    injection Hab as Hab. injection Hbc as Hbc. f_equal. eapply string_ltb_trans; eauto.
  - lt_same_type Hab. lt_same_type Hbc. simpl in *. eapply lex_trans; eauto.
  - lt_same_type Hab. lt_same_type Hbc. simpl in *. eapply lex_trans; eauto.
  - lt_same_type Hab. lt_same_type Hbc. simpl in *.
    injection Hab as Hab. injection Hbc as Hbc. f_equal.
    apply andb_true_iff in Hab, Hbc. destruct Hab as [H1 H2], Hbc as [H3 H4].
    apply andb_true_iff. split.
    + eapply subset_trans; eauto.
    + apply negb_true_iff. apply negb_true_iff in H4.
      destruct (subset l1 l) eqn:E; auto.
      rewrite (subset_trans _ _ _ E H1) in H4. discriminate.
Qed.

Lemma lex_raises l :
  Forall (fun x => forall y e, py_lt x y = Raise e -> e = TypeError) l ->
  forall m e, lex py_eq py_lt l m = Raise e -> e = TypeError.
Proof.
  induction 1 as [|x l Hx _ IH]; intros [|y m] e; simpl; try discriminate.
  destruct (py_eq x y); eauto.
Qed.

Lemma py_lt_raises a : forall b e, py_lt a b = Raise e -> e = TypeError.
Proof.
  induction a as [ |v|z|f|s|s|l IH|l IH|l IH|d IH] using pyval_nested_ind;
    intros b e; destruct b; simpl;
    try (intros [= <-]; reflexivity); try discriminate;
    try (repeat (destruct (float_val _)); discriminate).
  - now apply lex_raises.
  - now apply lex_raises.
Qed.

(** *** Lists without equal elements *)

Lemma list_mem_false x l : list_mem x l = false <-> Forall (fun e => py_eq e x = false) l.
Proof.
  unfold list_mem. induction l as [|e l IH]; simpl.
  - split; auto.
  - rewrite orb_false_iff, IH. split.
    + intros [H1 H2]. now constructor.
    + intros H. inversion H; subst. auto.
Qed.

Lemma distinct_filter p l : distinct l -> distinct (filter p l).
Proof.
  unfold distinct. induction 1 as [|x l Hx _ IH]; simpl; [constructor|].
  destruct (p x); auto. constructor; auto.
  rewrite Forall_forall in *. intros y Hy. apply Hx. apply filter_In in Hy. tauto.
Qed.

Lemma distinct_app l m :
  distinct l -> distinct m -> (forall x, In x m -> list_mem x l = false) -> distinct (l ++ m).
Proof.
  unfold distinct. intros Hl Hm Hx. induction Hl as [|y l Hy _ IH]; simpl; auto.
  constructor.
  - apply Forall_app. split; auto.
    rewrite Forall_forall. intros x Hin. specialize (Hx x Hin).
    apply list_mem_false in Hx. inversion Hx; subst. assumption.
  - apply IH. intros x Hin. specialize (Hx x Hin).
    apply list_mem_false in Hx. inversion Hx; subst. now apply list_mem_false.
Qed.

Lemma first_occurrences_distinct l : distinct (first_occurrences l).
Proof. apply first_occurrences_from_distinct. Qed.

Lemma first_occurrences_id r : distinct r -> first_occurrences r = r.
Proof. intros H. apply first_occurrences_from_distinct_id; auto. Qed.

Lemma first_occurrences_In l x : In x (first_occurrences l) -> In x l.
Proof. intros H. now apply first_occurrences_from_In in H. Qed.

Lemma first_occurrences_from_seen seen l :
  (forall x, In x l -> list_mem x seen = true) -> first_occurrences_from seen l = [].
Proof.
  revert seen. induction l as [|x l IH]; intros seen H; simpl; auto.
  rewrite (H x) by (now left). apply IH.
  intros y Hy. rewrite list_mem_app, (H y) by (now right). reflexivity.
Qed.

Lemma filter_none {A} (p : A -> bool) l : (forall x, In x l -> p x = false) -> filter p l = [].
Proof.
  induction l as [|x l IH]; simpl; auto. intros H.
  rewrite (H x) by auto. auto.
Qed.

Lemma filter_all {A} (p : A -> bool) l : (forall x, In x l -> p x = true) -> filter p l = l.
Proof.
  induction l as [|x l IH]; simpl; auto. intros H.
  rewrite (H x) by auto. f_equal. auto.
Qed.

(** [a == m] and [m != n]: then [a != n]. *)
Lemma py_eq_excludes a m n :
  py_eq (VInt m) (VInt n) = false -> py_eq a (VInt m) = true -> py_eq a (VInt n) = false.
Proof.
  intros Hmn Ha. destruct (py_eq a (VInt n)) eqn:E; auto.
  rewrite py_eq_sym in Ha. now rewrite (py_eq_trans _ _ _ Ha E) in Hmn.
Qed.

(** A float whose value is zero is [0.0] or [-0.0]. *)
Lemma float_val_zero f q :
  float_val f = Some (XFin q) -> Qeq_bool q 0 = true -> PrimFloat.eqb f 0 = true.
Proof.
  unfold float_val. rewrite eqb_spec. destruct (Prim2SF f) as [s| s | |s m e]; simpl.
  - destruct s; reflexivity.
  - destruct s; discriminate.
  - discriminate.
  - intros [= <-]. unfold Qeq_bool. destruct e, s; simpl; discriminate.
Qed.

(** *** Association lists *)

Lemma dict_set_keys d k v :
  map fst (dict_set d k v)
  = if list_mem k (map fst d) then map fst d else map fst d ++ [k].
Proof.
  induction d as [|[k0 v0] d IH]; simpl; auto.
  unfold list_mem in *. simpl. destruct (py_eq k0 k); simpl; auto.
  rewrite IH. now destruct (existsb _ _).
Qed.

Lemma distinct_dict_set d k v :
  distinct (map fst d) -> distinct (map fst (dict_set d k v)).
Proof.
  intros Hd. rewrite dict_set_keys. destruct (list_mem k (map fst d)) eqn:E; auto.
  apply distinct_app; auto.
  - repeat constructor.
  - intros x [<-|[]]. assumption.
Qed.

Lemma combine_keys {A B} (ks : list A) (vs : list B) :
  List.length ks = List.length vs -> map fst (combine ks vs) = ks.
Proof.
  revert vs. induction ks as [|k ks IH]; intros [|v vs]; simpl; try discriminate; auto.
  intros [= H]. now rewrite IH.
Qed.

Lemma combine_values {A B} (ks : list A) (vs : list B) :
  List.length ks = List.length vs -> map snd (combine ks vs) = vs.
Proof.
  revert vs. induction ks as [|k ks IH]; intros [|v vs]; simpl; try discriminate; auto.
  intros [= H]. now rewrite IH.
Qed.

End PyFacts.

(** * Properties of the filters *)

(** ** General math *)

Module General.

Import Py Spec PyFacts mathstuff.
Local Open Scope py_scope.

Section Scan.

(** [better] is [<] for [min] and [>] for [max]. *)
Variable better : pyval -> pyval -> result bool.
Hypothesis better_irrefl : forall x, better x x <> Ok true.
Hypothesis better_trans :
  forall x y z, better x y = Ok true -> better y z = Ok true -> better x z = Ok true.
Hypothesis better_raises : forall x y e, better x y = Raise e -> e = TypeError.

(** The scan ends on an element that none of the elements passed beats. *)
Lemma scan_extreme l : forall best seen m,
  (forall x, In x seen -> better x best <> Ok true) ->
  scan better best l = Ok m ->
  In m (best :: l)
  /\ forall x, In x (seen ++ best :: l) -> better x m <> Ok true.
Proof.
  induction l as [|item l IH]; intros best seen m Hseen; simpl.
  - intros [= <-]. split; [now left|].
    intros x Hx. apply in_app_or in Hx. destruct Hx as [Hx|[Hx|[]]]; subst; auto.
  - destruct (better item best) as [[|]|e] eqn:Eb; simpl; [| |discriminate]; intros Hm.
    + destruct (IH item (seen ++ [best]) m) as [Hin Hmin]; auto.
      * intros x Hx Hlt. apply in_app_or in Hx. destruct Hx as [Hx|[Hx|[]]]; subst.
        -- apply (Hseen x Hx). eauto.
        -- apply (better_irrefl x). eauto.
      * split; [destruct Hin; auto|].
        intros x Hx. apply Hmin. rewrite <- app_assoc. exact Hx.
    + destruct (IH best (seen ++ [item]) m) as [Hin Hmin]; auto.
      * intros x Hx. apply in_app_or in Hx. destruct Hx as [Hx|[Hx|[]]]; subst; auto.
        congruence.
      * split; [destruct Hin; auto|].
        intros x Hx. apply Hmin.
        apply in_app_or in Hx. rewrite <- app_assoc. apply in_or_app. simpl.
        destruct Hx as [Hx|[Hx|[Hx|Hx]]]; auto.
Qed.

Lemma scan_defined l : forall best,
  (forall x y, In x (best :: l) -> In y (best :: l) -> exists b, better x y = Ok b) ->
  exists m, scan better best l = Ok m.
Proof.
  induction l as [|item l IH]; intros best H; simpl; eauto.
  destruct (H item best) as [b Hb]; simpl; auto. rewrite Hb. simpl.
  apply IH. intros x y Hx Hy. apply H; simpl in *; destruct b; tauto.
Qed.

Lemma scan_raises l : forall best e, scan better best l = Raise e -> e = TypeError.
Proof.
  induction l as [|item l IH]; intros best e; simpl; [discriminate|].
  destruct (better item best) as [b|e'] eqn:Eb; simpl; eauto.
  intros [= <-]. eauto.
Qed.

(** The scan fails exactly at an element that does not compare with the
    best element before it. *)
Lemma scan_raises_iff l : forall best e,
  scan better best l = Raise e <->
  exists pre item post b,
    l = pre ++ item :: post /\ scan better best pre = Ok b /\ better item b = Raise e.
Proof.
  induction l as [|item l IH]; intros best e; simpl.
  - split; [discriminate|]. intros (pre & x & post & b & H & _). now destruct pre.
  - split.
    + destruct (better item best) as [b|e'] eqn:Eb; simpl.
      * intros H. apply IH in H. destruct H as (pre & x & post & b' & -> & Hpre & Hx).
        exists (item :: pre), x, post, b'. simpl. rewrite Eb. simpl. auto.
      * intros [= <-]. exists [], item, l, best. auto.
    + intros (pre & x & post & b & Hl & Hpre & Hx).
      destruct pre as [|y pre]; simpl in *.
      * injection Hl as <- <-. injection Hpre as <-. now rewrite Hx.
      * injection Hl as <- ->.
        destruct (better item best) as [b0|e'] eqn:Eb; simpl in *; [|discriminate].
        apply IH. exists pre, x, post, b. auto.
Qed.

Lemma extreme_raises_iff a l :
  py_iter a = Ok l ->
  (builtin_extreme better a = Raise TypeError <-> meets_unordered better l).
Proof.
  intros Ha. unfold builtin_extreme, meets_unordered. rewrite Ha. simpl.
  destruct l as [|x l].
  - split; [discriminate|]. intros (x & pre & item & post & best & H & _). discriminate.
  - rewrite scan_raises_iff. split.
    + intros (pre & item & post & b & -> & Hpre & Hx). exists x, pre, item, post, b. auto.
    + intros (x' & pre & item & post & b & [= <- ->] & Hpre & Hx).
      exists pre, item, post, b. auto.
Qed.

Lemma extreme_spec a :
  (py_iter a = Ok [] -> builtin_extreme better a = Raise ValueError)
  /\ (forall m, builtin_extreme better a = Ok m ->
                exists l, py_iter a = Ok l /\ In m l
                          /\ forall x, In x l -> better x m <> Ok true)
  /\ (forall l, py_iter a = Ok l -> l <> [] ->
                (forall x y, In x l -> In y l -> exists b, better x y = Ok b) ->
                exists m, builtin_extreme better a = Ok m)
  /\ (forall e, builtin_extreme better a = Raise e ->
                (e = ValueError /\ py_iter a = Ok [])
                \/ (e = TypeError /\ py_iter a <> Ok [])).
Proof.
  unfold builtin_extreme. destruct (py_iter a) as [[|x l]|e0] eqn:Ea; simpl.
  - split; [reflexivity|]. split; [discriminate|]. split.
    + intros l [= <-] H. now contradiction H.
    + intros e [= <-]. auto.
  - split; [discriminate|]. split; [|split].
    + intros m Hm. exists (x :: l). split; [reflexivity|].
      apply (scan_extreme l x [] m); auto.
    + intros l0 [= <-] _ H. now apply scan_defined.
    + intros e He. right. split; [eapply scan_raises; eauto|discriminate].
  - split; [discriminate|]. split; [discriminate|]. split; [discriminate|].
    intros e [= <-]. right. split; [|discriminate].
    destruct a; simpl in Ea; congruence.
Qed.

End Scan.

(** C2 (amended).  When [min(a)] returns, it returns an element of [a] that
    no element of [a] is below, and [max(a)] one that is below no element of
    [a], under the natural ordering [<]; both return whenever [a] is not
    empty, its elements are equal to themselves and [<] is defined between
    them.  On an empty collection each fails with the ValueError of the
    built-in, and the only other failure is the TypeError of the built-in:
    neither is re-raised as the filter error.  On elements equal to
    themselves the TypeError is raised exactly when the scan meets an
    element whose comparison with the least (greatest) element before it is
    not defined; a pair that does not compare and that the scan never puts
    together does not make it fail: [min([(1, 'a'), (0, 5), (1, 2)])] is
    [(0, 5)]. *)
Theorem min_max_natural_order :
  (forall a, py_iter a = Ok [] -> min a = Raise ValueError /\ max a = Raise ValueError)
  /\ (forall a m, min a = Ok m ->
        exists l, py_iter a = Ok l /\ In m l /\ forall x, In x l -> py_lt x m <> Ok true)
  /\ (forall a m, max a = Ok m ->
        exists l, py_iter a = Ok l /\ In m l /\ forall x, In x l -> py_lt m x <> Ok true)
  /\ (forall a l, py_iter a = Ok l -> l <> [] -> self_equal l -> mutually_orderable l ->
        (exists m, min a = Ok m) /\ (exists m, max a = Ok m))
  /\ (forall a e, min a = Raise e \/ max a = Raise e ->
        (e = ValueError /\ py_iter a = Ok []) \/ (e = TypeError /\ py_iter a <> Ok []))
  /\ (forall a l, py_iter a = Ok l -> self_equal l ->
        (min a = Raise TypeError <-> meets_unordered py_lt l)
        /\ (max a = Raise TypeError <-> meets_unordered py_gt l))
  /\ min (VList [VTuple [VInt 1; VStr "a"]; VTuple [VInt 0; VInt 5]; VTuple [VInt 1; VInt 2]])
     = Ok (VTuple [VInt 0; VInt 5]).
Proof.
  pose proof (extreme_spec py_lt py_lt_irrefl py_lt_trans py_lt_raises) as Hmin.
  assert (Hmax : forall a, _) by
    (apply (extreme_spec py_gt); unfold py_gt;
     eauto using py_lt_irrefl, py_lt_trans, py_lt_raises).
  unfold min, max, builtin_min, builtin_max. repeat apply conj.
  - intros a H. split; [now apply Hmin|now apply Hmax].
  - intros a. apply Hmin.
  - intros a. apply Hmax.
  - intros a l Hl Hne _ Hord. split.
    + eapply Hmin; eauto.
    + eapply Hmax; eauto.
  - intros a e [H|H]; [now apply Hmin|now apply Hmax].
  - intros a l Hl _. split; now apply extreme_raises_iff.
  - reflexivity.
Qed.

(** C2, as stated, fails: on an empty list, and on a list whose elements do
    not compare, [min] and [max] end in the exception of the built-in, which
    is not the filter error. *)
Lemma min_max_errors_not_wrapped :
  min (VList []) = Raise ValueError
  /\ max (VList []) = Raise ValueError
  /\ min (VList [VInt 1; VStr "a"]) = Raise TypeError
  /\ max (VList [VInt 1; VStr "a"]) = Raise TypeError.
Proof. repeat split. Qed.

Lemma min_max_natural_order_witness :
  ((exists m, min (VList [VInt 3; VFloat 1.5; VBool true]) = Ok m)
   /\ (exists m, max (VList [VInt 3; VFloat 1.5; VBool true]) = Ok m))
  /\ max (VList [VInt 3; VInt 1; VStr "a"]) = Raise TypeError.
Proof.
  split.
  - apply (proj1 (proj2 (proj2 (proj2 min_max_natural_order)))
             (VList [VInt 3; VFloat 1.5; VBool true]) [VInt 3; VFloat 1.5; VBool true]).
    + reflexivity.
    + discriminate.
    + repeat constructor.
    + intros x y Hx Hy. simpl in Hx, Hy.
      repeat (destruct Hx as [<-|Hx]); try contradiction;
        repeat (destruct Hy as [<-|Hy]); try contradiction;
        eexists; vm_compute; reflexivity.
  - apply (proj2 (proj1 (proj2 (proj2 (proj2 (proj2 (proj2 min_max_natural_order)))))
                    (VList [VInt 3; VInt 1; VStr "a"]) [VInt 3; VInt 1; VStr "a"]
                    eq_refl ltac:(repeat constructor))).
    exists (VInt 3), [VInt 1], (VStr "a"), [], (VInt 3). repeat split.
Defined.

(** *** Integers, ties, and the two extremes together *)

Lemma py_lt_VInt x y : py_lt (VInt x) (VInt y) = Ok (x <? y).
Proof.
  simpl. f_equal. unfold Qle_bool. simpl. rewrite !Z.mul_1_r.
  now rewrite Z.ltb_antisym.
Qed.

Lemma scan_min_integers zs : forall z,
  scan py_lt (VInt z) (map VInt zs) = Ok (VInt (fold_left Z.min zs z)).
Proof.
  induction zs as [|y zs IH]; intros z; [reflexivity|].
  cbn [map scan fold_left]. rewrite py_lt_VInt. cbn [bind].
  destruct (Z.ltb_spec y z).
  - rewrite IH. now rewrite Z.min_r by lia.
  - rewrite IH. now rewrite Z.min_l by lia.
Qed.

Lemma scan_max_integers zs : forall z,
  scan py_gt (VInt z) (map VInt zs) = Ok (VInt (fold_left Z.max zs z)).
Proof.
  induction zs as [|y zs IH]; intros z; [reflexivity|].
  cbn [map scan fold_left]. unfold py_gt at 1. rewrite py_lt_VInt. cbn [bind].
  destruct (Z.ltb_spec z y).
  - rewrite IH. now rewrite Z.max_r by lia.
  - rewrite IH. now rewrite Z.max_l by lia.
Qed.

(** X13.  On a non-empty list of integers [min] returns the least and [max]
    the greatest of them, as integers compare. *)
Theorem min_max_integers (z : Z) (zs : list Z) :
  min (VList (map VInt (z :: zs))) = Ok (VInt (fold_left Z.min zs z))
  /\ max (VList (map VInt (z :: zs))) = Ok (VInt (fold_left Z.max zs z)).
Proof.
  split.
  - apply scan_min_integers.
  - apply scan_max_integers.
Qed.

Lemma scan_first better x l :
  Forall (fun y => better y x = Ok false) l -> scan better x l = Ok x.
Proof.
  induction 1 as [|y l Hy _ IH]; simpl; auto. now rewrite Hy.
Qed.

(** X14.  Ties go to the element met first, among elements that are equal
    to themselves: when no later element is below the first one, [min]
    returns the first one, and when the first one is below no later element,
    so does [max]. *)
Theorem min_max_first_wins (a x : pyval) (l : list pyval) :
  py_iter a = Ok (x :: l) ->
  self_equal (x :: l) ->
  (Forall (fun y => py_lt y x = Ok false) l -> min a = Ok x)
  /\ (Forall (fun y => py_lt x y = Ok false) l -> max a = Ok x).
Proof.
  intros Ha _. unfold min, max, builtin_min, builtin_max, builtin_extreme. rewrite Ha.
  cbn [bind]. split; intros H; now apply scan_first.
Qed.

Lemma min_max_first_wins_witness :
  min (VList [VInt 1; VBool true; VFloat 1]) = Ok (VInt 1)
  /\ max (VTuple [VBool true; VInt 1; VInt 0]) = Ok (VBool true).
Proof.
  split.
  - apply (proj1 (min_max_first_wins (VList [VInt 1; VBool true; VFloat 1]) (VInt 1)
                    [VBool true; VFloat 1] eq_refl ltac:(repeat constructor))).
    repeat constructor.
  - apply (proj2 (min_max_first_wins (VTuple [VBool true; VInt 1; VInt 0]) (VBool true)
                    [VInt 1; VInt 0] eq_refl ltac:(repeat constructor))).
    repeat constructor.
Defined.

(** X15.  When both return, what [max(a)] returns is not below what
    [min(a)] returns. *)
Theorem min_not_above_max (a lo hi : pyval) :
  min a = Ok lo -> max a = Ok hi -> below hi lo = false.
Proof.
  intros Hlo Hhi.
  destruct (extreme_spec py_lt py_lt_irrefl py_lt_trans py_lt_raises a) as (_ & Hmin & _).
  assert (Hmax : forall a, _) by
    (apply (extreme_spec py_gt); unfold py_gt;
     eauto using py_lt_irrefl, py_lt_trans, py_lt_raises).
  destruct (Hmax a) as (_ & Hmax' & _).
  destruct (Hmin lo Hlo) as (l & Hl & Hin & _).
  destruct (Hmax' hi Hhi) as (l' & Hl' & _ & Hall).
  rewrite Hl in Hl'. injection Hl' as <-.
  specialize (Hall lo Hin). unfold below. unfold py_gt in Hall.
  destruct (py_lt hi lo) as [[|]|]; congruence.
Qed.

Lemma min_not_above_max_witness :
  below (VStr "b") (VStr "a") = false.
Proof.
  apply (min_not_above_max (VList [VStr "b"; VStr "a"]) (VStr "a") (VStr "b")); reflexivity.
Defined.

End General.

(** ** Set theory *)

Module SetTheory.

Import Py Spec PyFacts mathstuff.
Local Open Scope py_scope.

Lemma unique_list l : unique (VList l) = Ok (VList (first_occurrences l)).
Proof. unfold unique. simpl. now rewrite first_seen_spec. Qed.
Lemma intersect_list a b :
  intersect (VList a) (VList b)
  = Ok (VList (first_occurrences (filter (fun x => list_mem x b) a))).
Proof. unfold intersect. simpl. rewrite filterM_pure. simpl. apply unique_list. Qed.

Lemma difference_list a b :
  difference (VList a) (VList b)
  = Ok (VList (first_occurrences (filter (fun x => negb (list_mem x b)) a))).
Proof. unfold difference. simpl. rewrite filterM_pure. simpl. apply unique_list. Qed.

Lemma union_list a b :
  union (VList a) (VList b) = Ok (VList (first_occurrences (a ++ b))).
Proof. unfold union. cbn [is_Hashable andb py_add bind]. apply unique_list. Qed.

Lemma symmetric_difference_list a b :
  symmetric_difference (VList a) (VList b)
  = Ok (VList (first_occurrences
                 (filter (fun x => negb (list_mem x (first_occurrences
                                                      (filter (fun y => list_mem y b) a))))
                         (first_occurrences (a ++ b))))).
Proof.
  unfold symmetric_difference. simpl andb. cbv iota.
  rewrite union_list. simpl bind. rewrite intersect_list. simpl.
  rewrite filterM_pure. simpl. apply unique_list.
Qed.

Lemma py_iter_raises v e : py_iter v = Raise e -> e = TypeError.
Proof. destruct v; simpl; congruence. Qed.

Lemma py_set_outcome v :
  match py_set v with
  | Ok _ | Raise TypeError => True
  | _ => False
  end.
Proof.
  unfold py_set. destruct (py_iter v) as [l|e] eqn:E; simpl.
  - now destruct (forallb hashable l).
  - now rewrite (py_iter_raises _ _ E).
Qed.

Lemma set_mode_outcome (op : list pyval -> list pyval -> list pyval) u v :
  set_or_TypeError (s <- py_set u ;; t <- py_set v ;; Ok (VSet (op s t))).
Proof.
  pose proof (py_set_outcome u) as Hu. pose proof (py_set_outcome v) as Hv.
  destruct (py_set u) as [s|[]]; simpl; try tauto.
  destruct (py_set v) as [t|[]]; simpl; tauto.
Qed.

(** C4 (amended).  The mode is chosen by the collections, not by their
    elements.  On lists, whatever they hold, every set filter returns a list
    without equal elements, in the order of the input: a subsequence of [a],
    or of [a + b] for [union] and [symmetric_difference], so that [union]
    lists what it takes from [a] before what it takes from [b].  When the
    elements are equal to themselves the order is exactly first-seen:
    [unique] keeps each element of [a] where it occurs first; [intersect]
    and [difference] do so for the elements of [a] that are, or are not, in
    [b]; [union(a, b)] lists the first occurrences in [a], then those
    elements of [b] that are not in [a]; [symmetric_difference] gives the
    first occurrences of a selection out of [a + b].  On hashable
    collections (tuples, strings) the result is a hash set, or a TypeError
    when an element cannot be hashed. *)
Theorem order_preserving_mode :
  (forall a,
      exists r, unique (VList a) = Ok (VList r) /\ subseq r a /\ distinct r)
  /\ (forall a b,
        exists i d u s,
          (intersect (VList a) (VList b) = Ok (VList i) /\ subseq i a /\ distinct i)
          /\ (difference (VList a) (VList b) = Ok (VList d) /\ subseq d a /\ distinct d)
          /\ (union (VList a) (VList b) = Ok (VList u) /\ subseq u (a ++ b) /\ distinct u)
          /\ (symmetric_difference (VList a) (VList b) = Ok (VList s)
              /\ subseq s (a ++ b) /\ distinct s))
  /\ (forall a, self_equal a -> unique (VList a) = Ok (VList (first_occurrences a)))
  /\ (forall a b,
        self_equal a ->
        intersect (VList a) (VList b)
        = Ok (VList (first_occurrences (filter (fun x => list_mem x b) a))))
  /\ (forall a b,
        self_equal a ->
        difference (VList a) (VList b)
        = Ok (VList (first_occurrences (filter (fun x => negb (list_mem x b)) a))))
  /\ (forall a b,
        exists sel, subseq sel (a ++ b)
        /\ symmetric_difference (VList a) (VList b) = Ok (VList (first_occurrences sel)))
  /\ (forall a b,
        self_equal (a ++ b) ->
        union (VList a) (VList b)
        = Ok (VList (first_occurrences a ++ first_occurrences_from a b))
        /\ forall x, In x (first_occurrences_from a b) -> In x b /\ list_mem x a = false)
  /\ (forall l,
        subseq (first_occurrences l) l
        /\ distinct (first_occurrences l)
        /\ forall x, list_mem x (first_occurrences l) = list_mem x l)
  /\ (forall u v,
        is_Hashable u = true -> is_Hashable v = true ->
        set_or_TypeError (unique u)
        /\ set_or_TypeError (intersect u v)
        /\ set_or_TypeError (difference u v)
        /\ set_or_TypeError (symmetric_difference u v)
        /\ set_or_TypeError (union u v)).
Proof.
  assert (Hsub : forall l, subseq (first_occurrences l) l)
    by (intros l; apply first_occurrences_from_subseq).
  assert (Hdis : forall l, distinct (first_occurrences l))
    by (intros l; apply first_occurrences_from_distinct).
  repeat apply conj.
  - intros a. eexists. split; [apply unique_list|]. auto.
  - intros a b. do 4 eexists. repeat apply conj;
      try apply intersect_list; try apply difference_list; try apply union_list;
      try apply symmetric_difference_list; auto.
    + eapply subseq_trans; [apply Hsub|apply subseq_filter].
    + eapply subseq_trans; [apply Hsub|apply subseq_filter].
    + eapply subseq_trans; [apply Hsub|].
      eapply subseq_trans; [apply subseq_filter|apply Hsub].
  - intros a _. apply unique_list.
  - intros a b _. apply intersect_list.
  - intros a b _. apply difference_list.
  - intros a b. eexists. split; [|apply symmetric_difference_list].
    eapply subseq_trans; [apply subseq_filter|apply first_occurrences_from_subseq].
  - intros a b _. split.
    + rewrite union_list. unfold first_occurrences.
      now rewrite first_occurrences_from_app.
    + apply first_occurrences_from_In.
  - intros l. repeat split.
    + apply first_occurrences_from_subseq.
    + apply first_occurrences_from_distinct.
    + apply first_occurrences_mem.
  - intros u v Hu Hv. unfold unique, intersect, difference, symmetric_difference, union.
    rewrite Hu, Hv. simpl andb. cbv iota. repeat split; try apply set_mode_outcome.
    pose proof (py_set_outcome u) as H. destruct (py_set u) as [s|[]]; simpl; tauto.
Qed.

Lemma mem_set_sub s t x : list_mem x (set_sub s t) = list_mem x s && negb (list_mem x t).
Proof. apply list_mem_filter, respects_not_mem. Qed.

Lemma mem_set_and s t x : list_mem x (set_and s t) = list_mem x s && list_mem x t.
Proof.
  unfold set_and. destruct (List.length s <? List.length t)%nat.
  - apply list_mem_filter, respects_mem.
  - rewrite andb_comm. apply list_mem_filter, respects_mem.
Qed.

Lemma mem_set_or s t x : list_mem x (set_or s t) = list_mem x s || list_mem x t.
Proof.
  unfold set_or. rewrite list_mem_app, mem_set_sub.
  now destruct (list_mem x s), (list_mem x t).
Qed.

Lemma mem_set_xor s t x : list_mem x (set_xor s t) = xorb (list_mem x s) (list_mem x t).
Proof.
  unfold set_xor. rewrite list_mem_app, !mem_set_sub.
  now destruct (list_mem x s), (list_mem x t).
Qed.

(** The members of [difference(union, intersect)], whichever lists stand for the
    union and the intersection. *)
Lemma mem_union_minus_intersection U I s t x :
  (forall y, list_mem y U = list_mem y s || list_mem y t) ->
  (forall y, list_mem y I = list_mem y s && list_mem y t) ->
  list_mem x (first_occurrences (filter (fun y => negb (list_mem y I)) U))
  = xorb (list_mem x s) (list_mem x t).
Proof.
  intros HU HI.
  rewrite first_occurrences_mem, list_mem_filter by apply respects_not_mem.
  rewrite HU, HI. now destruct (list_mem x s), (list_mem x t).
Qed.

Lemma py_set_hashable v s : py_set v = Ok s -> forallb hashable s = true.
Proof.
  unfold py_set. destruct (py_iter v) as [l|]; simpl; [|discriminate].
  destruct (forallb hashable l) eqn:H; [|discriminate].
  intros [= <-]. rewrite first_seen_spec.
  rewrite forallb_forall in *. intros x Hx. apply H.
  now apply (first_occurrences_from_In [] l x).
Qed.

Lemma py_set_mem v l s x :
  py_iter v = Ok l -> py_set v = Ok s -> list_mem x s = list_mem x l.
Proof.
  unfold py_set. intros ->. simpl. destruct (forallb hashable l); [|discriminate].
  intros [= <-]. rewrite first_seen_spec. apply first_occurrences_mem.
Qed.

Lemma filterM_not_in_set I l :
  forallb hashable l = true ->
  filterM (fun x => c <- py_contains (VSet I) x ;; Ok (negb c)) l
  = Ok (filter (fun x => negb (list_mem x I)) l).
Proof.
  intros H. rewrite <- filterM_pure. apply filterM_ext. intros x Hx.
  rewrite forallb_forall in H. specialize (H x Hx).
  simpl. destruct x; try discriminate; simpl in *; now rewrite ?H.
Qed.

Lemma difference_sets U I :
  forallb hashable U = true ->
  difference (VSet U) (VSet I)
  = Ok (VList (first_occurrences (filter (fun x => negb (list_mem x I)) U))).
Proof.
  intros H. unfold difference. cbn [is_Hashable andb py_iter bind].
  rewrite filterM_not_in_set by assumption. cbn [bind]. apply unique_list.
Qed.

Lemma forallb_app {A} (p : A -> bool) l m : forallb p (l ++ m) = forallb p l && forallb p m.
Proof. induction l; simpl; auto. now rewrite IHl, andb_assoc. Qed.

Lemma forallb_filter {A} (p q : A -> bool) l : forallb p l = true -> forallb p (filter q l) = true.
Proof.
  rewrite !forallb_forall. intros H x Hx. apply filter_In in Hx. now apply H.
Qed.

Lemma not_both_hashable_add a b :
  is_Hashable a && is_Hashable b = false ->
  (exists la lb, a = VList la /\ b = VList lb) \/ py_add a b = Raise TypeError.
Proof.
  destruct a, b; simpl; try discriminate; intros _; eauto.
Qed.

(** C4, as stated, fails.  The elements of a tuple of lists are not
    hashable, and [unique] does not return them in first-seen order: it
    raises a TypeError.  The elements of a list of numbers are hashable, and
    the result is no hash set: it is the list in first-seen order. *)
Lemma unique_mode_follows_collection :
  (forallb hashable [VList [VInt 1]; VList [VInt 2]] = false
   /\ unique (VTuple [VList [VInt 1]; VList [VInt 2]]) = Raise TypeError)
  /\ (forallb hashable [VInt 3; VInt 1; VInt 3] = true
      /\ unique (VList [VInt 3; VInt 1; VInt 3]) = Ok (VList [VInt 3; VInt 1])).
Proof. repeat split. Qed.

(** C5.  [symmetric_difference(a, b)] and
    [difference(union(a, b), intersect(a, b))] end the same way: they raise
    the same exception, or they return collections with the same elements;
    and an element is in the result exactly when it is in one of [a], [b]
    and not in the other. *)
Theorem symmetric_difference_is_union_minus_intersection (a b : pyval) :
  same_outcome (symmetric_difference a b) (union_minus_intersection a b)
  /\ forall r la lb,
       symmetric_difference a b = Ok r -> py_iter a = Ok la -> py_iter b = Ok lb ->
       exists lr, py_iter r = Ok lr
                  /\ forall x, list_mem x lr = xorb (list_mem x la) (list_mem x lb).
Proof.
  destruct (is_Hashable a && is_Hashable b) eqn:Hh.
  - (* hash-set mode *)
    unfold union_minus_intersection, symmetric_difference, union, intersect. rewrite Hh.
    destruct (py_set a) as [s|e] eqn:Ea; simpl; [|split; [reflexivity|discriminate]].
    destruct (py_set b) as [t|e] eqn:Eb; simpl; [|split; [reflexivity|discriminate]].
    assert (Hs : forallb hashable (set_or s t) = true).
    { unfold set_or, set_sub. rewrite forallb_app, (py_set_hashable _ _ Ea). simpl.
      apply forallb_filter, (py_set_hashable _ _ Eb). }
    rewrite difference_sets by assumption.
    split.
    + do 2 eexists. repeat split. intros x. rewrite mem_set_xor.
      symmetry. apply mem_union_minus_intersection.
      * intros y. apply mem_set_or.
      * intros y. apply mem_set_and.
    + intros r la lb [= <-] Ha Hb. eexists. split; [reflexivity|].
      intros x. rewrite mem_set_xor.
      now rewrite (py_set_mem _ _ _ x Ha Ea), (py_set_mem _ _ _ x Hb Eb).
  - (* order-preserving mode *)
    destruct (not_both_hashable_add a b Hh) as [(la & lb & -> & ->)|Hadd].
    + unfold union_minus_intersection.
      rewrite symmetric_difference_list, union_list, intersect_list. simpl bind.
      rewrite difference_list. split.
      * do 2 eexists. repeat split.
      * intros r la' lb' [= <-] [= <-] [= <-]. eexists. split; [reflexivity|].
        intros x. apply mem_union_minus_intersection.
        -- intros y. now rewrite first_occurrences_mem, list_mem_app.
        -- intros y. rewrite first_occurrences_mem. apply list_mem_filter, respects_mem.
    + unfold union_minus_intersection, symmetric_difference, union. rewrite Hh, Hadd. simpl.
      split; [reflexivity|discriminate].
Qed.

(** X2.  On lists [unique] is idempotent: applied to its own result it
    returns that result. *)
Theorem unique_idempotent (l : list pyval) :
  exists r, unique (VList l) = Ok (VList r) /\ unique (VList r) = Ok (VList r).
Proof.
  exists (first_occurrences l). rewrite !unique_list. split; [reflexivity|].
  do 2 f_equal. apply first_occurrences_from_distinct_id; auto.
  apply first_occurrences_from_distinct.
Qed.

Lemma py_set_raises v e : py_set v = Raise e -> e = TypeError.
Proof.
  intros H. pose proof (py_set_outcome v) as Ho. rewrite H in Ho. now destruct e.
Qed.

(** X3.  [union(a, b)] and [union(b, a)] end the same way and, as sets, in
    the same result; on lists so do [intersect(a, b)] and [intersect(b, a)]. *)
Theorem union_intersect_commute :
  (forall a b, same_outcome (union a b) (union b a))
  /\ (forall a b, same_outcome (intersect (VList a) (VList b))
                               (intersect (VList b) (VList a))).
Proof.
  split.
  - intros a b. destruct (is_Hashable a && is_Hashable b) eqn:Hh.
    + unfold union. rewrite (andb_comm (is_Hashable b)), Hh.
      destruct (py_set a) as [s|e1] eqn:Ea, (py_set b) as [t|e2] eqn:Eb; simpl.
      * do 2 eexists. repeat split. intros x. rewrite !mem_set_or. apply orb_comm.
      * reflexivity.
      * reflexivity.
      * apply py_set_raises in Ea, Eb. congruence.
    + destruct (not_both_hashable_add a b Hh) as [(la & lb & -> & ->)|Hadd].
      * rewrite !union_list. do 2 eexists. repeat split. intros x.
        rewrite !first_occurrences_mem, !list_mem_app. apply orb_comm.
      * rewrite andb_comm in Hh.
        destruct (not_both_hashable_add b a Hh) as [(lb & la & -> & ->)|Hadd'];
          [discriminate|].
        unfold union. rewrite Hh, andb_comm, Hh, Hadd, Hadd'. reflexivity.
  - intros a b. rewrite !intersect_list. do 2 eexists. repeat split. intros x.
    rewrite !first_occurrences_mem, !list_mem_filter by apply respects_mem.
    apply andb_comm.
Qed.

Lemma order_preserving_mode_witness :
  (set_or_TypeError (unique (VTuple [VInt 2; VInt 1; VInt 2]))
   /\ set_or_TypeError (intersect (VTuple [VInt 2; VInt 1; VInt 2]) (VStr "ab"))
   /\ set_or_TypeError (difference (VTuple [VInt 2; VInt 1; VInt 2]) (VStr "ab"))
   /\ set_or_TypeError (symmetric_difference (VTuple [VInt 2; VInt 1; VInt 2]) (VStr "ab"))
   /\ set_or_TypeError (union (VTuple [VInt 2; VInt 1; VInt 2]) (VStr "ab")))
  /\ unique (VList [VList [VInt 3]; VInt 1; VList [VFloat 3]])
     = Ok (VList (first_occurrences [VList [VInt 3]; VInt 1; VList [VFloat 3]])).
Proof.
  split.
  - apply (proj2 (proj2 (proj2 (proj2 (proj2 (proj2 (proj2 (proj2
             order_preserving_mode)))))))
             (VTuple [VInt 2; VInt 1; VInt 2]) (VStr "ab")); reflexivity.
  - apply (proj1 (proj2 (proj2 order_preserving_mode))
             [VList [VInt 3]; VInt 1; VList [VFloat 3]]).
    repeat constructor.
Defined.

Lemma symmetric_difference_is_union_minus_intersection_witness :
  exists lr,
    py_iter (VList [VInt 1; VStr "b"]) = Ok lr
    /\ forall x, list_mem x lr
                 = xorb (list_mem x [VInt 1; VInt 2; VBool true])
                        (list_mem x [VFloat 2; VStr "b"]).
Proof.
  apply (proj2 (symmetric_difference_is_union_minus_intersection
                  (VList [VInt 1; VInt 2; VBool true]) (VList [VFloat 2; VStr "b"]))
           (VList [VInt 1; VStr "b"]) [VInt 1; VInt 2; VBool true] [VFloat 2; VStr "b"]);
    reflexivity.
Defined.

(** *** The set algebra, element by element *)

(** X7.  On lists every binary set filter returns a list without equal
    elements, whose members are those of the set operation: in both lists,
    in the first and not the second, in either, in exactly one. *)
Theorem set_algebra_on_lists (a b : list pyval) :
  exists i d u s,
    intersect (VList a) (VList b) = Ok (VList i)
    /\ difference (VList a) (VList b) = Ok (VList d)
    /\ union (VList a) (VList b) = Ok (VList u)
    /\ symmetric_difference (VList a) (VList b) = Ok (VList s)
    /\ (distinct i /\ distinct d /\ distinct u /\ distinct s)
    /\ forall x,
         list_mem x i = list_mem x a && list_mem x b
         /\ list_mem x d = list_mem x a && negb (list_mem x b)
         /\ list_mem x u = list_mem x a || list_mem x b
         /\ list_mem x s = xorb (list_mem x a) (list_mem x b).
Proof.
  do 4 eexists.
  split; [apply intersect_list|]. split; [apply difference_list|].
  split; [apply union_list|]. split; [apply symmetric_difference_list|].
  split; [repeat split; apply first_occurrences_distinct|].
  intros x. repeat split.
  - rewrite first_occurrences_mem. apply list_mem_filter, respects_mem.
  - rewrite first_occurrences_mem. apply list_mem_filter, respects_not_mem.
  - now rewrite first_occurrences_mem, list_mem_app.
  - apply mem_union_minus_intersection.
    + intros y. now rewrite first_occurrences_mem, list_mem_app.
    + intros y. rewrite first_occurrences_mem. apply list_mem_filter, respects_mem.
Qed.

Lemma first_seen_distinct l : distinct (first_seen l).
Proof. rewrite first_seen_spec. apply first_occurrences_distinct. Qed.

Lemma first_seen_mem l x : list_mem x (first_seen l) = list_mem x l.
Proof. rewrite first_seen_spec. apply first_occurrences_mem. Qed.

Lemma py_set_ok v l :
  py_iter v = Ok l -> forallb hashable l = true -> py_set v = Ok (first_seen l).
Proof. unfold py_set. intros -> H. simpl. now rewrite H. Qed.

Lemma py_set_unhashable v l :
  py_iter v = Ok l -> forallb hashable l = false -> py_set v = Raise TypeError.
Proof. unfold py_set. intros -> H. simpl. now rewrite H. Qed.

Lemma distinct_set_and s t : distinct s -> distinct t -> distinct (set_and s t).
Proof.
  intros Hs Ht. unfold set_and.
  destruct (List.length s <? List.length t)%nat; now apply distinct_filter.
Qed.

Lemma distinct_set_or s t : distinct s -> distinct t -> distinct (set_or s t).
Proof.
  intros Hs Ht. unfold set_or. apply distinct_app; auto.
  - now apply distinct_filter.
  - unfold set_sub. intros x Hx. apply filter_In in Hx. destruct Hx as [_ Hx].
    now apply negb_true_iff in Hx.
Qed.

Lemma distinct_set_xor s t : distinct s -> distinct t -> distinct (set_xor s t).
Proof.
  intros Hs Ht. unfold set_xor. apply distinct_app.
  - now apply distinct_filter.
  - now apply distinct_filter.
  - unfold set_sub. intros x Hx. apply filter_In in Hx. destruct Hx as [_ Hx].
    apply negb_true_iff in Hx.
    rewrite (list_mem_filter _ s x) by apply respects_not_mem.
    now rewrite Hx.
Qed.

(** X8.  On hashable collections (tuples, strings) whose elements can all
    be hashed, the set filters return hash sets without equal elements whose
    members are those of the set operation; when an element cannot be
    hashed they raise TypeError. *)
Theorem set_algebra_on_hashables (u v : pyval) (lu lv : list pyval) :
  is_Hashable u = true -> is_Hashable v = true ->
  py_iter u = Ok lu -> py_iter v = Ok lv ->
  (forallb hashable lu = true -> forallb hashable lv = true ->
   exists q i d un s,
     unique u = Ok (VSet q)
     /\ intersect u v = Ok (VSet i)
     /\ difference u v = Ok (VSet d)
     /\ union u v = Ok (VSet un)
     /\ symmetric_difference u v = Ok (VSet s)
     /\ (distinct q /\ distinct i /\ distinct d /\ distinct un /\ distinct s)
     /\ forall x,
          list_mem x q = list_mem x lu
          /\ list_mem x i = list_mem x lu && list_mem x lv
          /\ list_mem x d = list_mem x lu && negb (list_mem x lv)
          /\ list_mem x un = list_mem x lu || list_mem x lv
          /\ list_mem x s = xorb (list_mem x lu) (list_mem x lv))
  /\ (forallb hashable lu = false -> unique u = Raise TypeError)
  /\ (forallb hashable lu && forallb hashable lv = false ->
      intersect u v = Raise TypeError
      /\ difference u v = Raise TypeError
      /\ union u v = Raise TypeError
      /\ symmetric_difference u v = Raise TypeError).
Proof.
  intros Hu Hv Eu Ev.
  unfold unique, intersect, difference, union, symmetric_difference.
  rewrite Hu, Hv. cbn [andb]. split; [|split].
  - intros Hlu Hlv.
    rewrite (py_set_ok _ _ Eu Hlu), (py_set_ok _ _ Ev Hlv). cbn [bind].
    do 5 eexists. do 5 (split; [reflexivity|]).
    pose proof (first_seen_distinct lu) as Du. pose proof (first_seen_distinct lv) as Dv.
    split.
    + repeat split; auto using distinct_set_and, distinct_set_or, distinct_set_xor.
      now apply distinct_filter.
    + intros x. rewrite mem_set_and, mem_set_sub, mem_set_or, mem_set_xor, !first_seen_mem.
      repeat split.
  - intros Hlu. now rewrite (py_set_unhashable _ _ Eu Hlu).
  - intros H. apply andb_false_iff in H.
    destruct (forallb hashable lu) eqn:Hlu.
    + destruct H as [H|H]; [discriminate|].
      rewrite (py_set_ok _ _ Eu Hlu), (py_set_unhashable _ _ Ev H). repeat split.
    + rewrite (py_set_unhashable _ _ Eu Hlu). repeat split.
Qed.

Lemma set_algebra_on_hashables_witness :
  intersect (VTuple [VInt 1; VInt 2; VBool true]) (VTuple [VFloat 1; VList []])
  = Raise TypeError.
Proof.
  apply (proj2 (proj2 (set_algebra_on_hashables
                         (VTuple [VInt 1; VInt 2; VBool true]) (VTuple [VFloat 1; VList []])
                         [VInt 1; VInt 2; VBool true] [VFloat 1; VList []]
                         eq_refl eq_refl eq_refl eq_refl))).
  reflexivity.
Defined.

(** *** Empty lists, a list with itself, collections of two kinds *)

(** X9.  With an empty list: [unique], [intersect] and the [difference] of
    the empty list are empty, and [difference], [union] and
    [symmetric_difference] of [a] with the empty list are [unique(a)]. *)
Theorem set_filters_on_empty (a : list pyval) :
  unique (VList []) = Ok (VList [])
  /\ intersect (VList a) (VList []) = Ok (VList [])
  /\ intersect (VList []) (VList a) = Ok (VList [])
  /\ difference (VList []) (VList a) = Ok (VList [])
  /\ difference (VList a) (VList []) = unique (VList a)
  /\ union (VList a) (VList []) = unique (VList a)
  /\ union (VList []) (VList a) = unique (VList a)
  /\ symmetric_difference (VList a) (VList []) = unique (VList a)
  /\ symmetric_difference (VList []) (VList a) = unique (VList a).
Proof.
  rewrite !intersect_list, !difference_list, !union_list, !symmetric_difference_list,
    !unique_list.
  assert (Hnone : filter (fun x => list_mem x []) a = []) by (now apply filter_none).
  assert (Hall : filter (fun x => negb (list_mem x [])) a = a) by (now apply filter_all).
  rewrite Hnone, Hall, app_nil_r. simpl filter. simpl app.
  repeat split; try reflexivity.
  - change (first_occurrences []) with (@nil pyval).
    rewrite filter_all by reflexivity.
    now rewrite first_occurrences_id by apply first_occurrences_distinct.
  - change (first_occurrences []) with (@nil pyval).
    rewrite filter_all by reflexivity.
    now rewrite first_occurrences_id by apply first_occurrences_distinct.
Qed.

Lemma self_mem a x : Forall (fun x => py_eq x x = true) a -> In x a -> list_mem x a = true.
Proof. intros Ha Hx. apply list_mem_In. exists x. rewrite Forall_forall in Ha. auto. Qed.

(** X10.  A list whose elements are equal to themselves (it holds no NaN),
    taken with itself: [intersect] and [union] give [unique(a)],
    [difference] and [symmetric_difference] the empty list. *)
Theorem set_filters_on_self (a : list pyval) :
  Forall (fun x => py_eq x x = true) a ->
  intersect (VList a) (VList a) = unique (VList a)
  /\ union (VList a) (VList a) = unique (VList a)
  /\ difference (VList a) (VList a) = Ok (VList [])
  /\ symmetric_difference (VList a) (VList a) = Ok (VList []).
Proof.
  intros Ha.
  rewrite intersect_list, union_list, difference_list, symmetric_difference_list, unique_list.
  assert (Hall : filter (fun x => list_mem x a) a = a)
    by (apply filter_all; intros x Hx; now apply self_mem).
  assert (Hnone : filter (fun x => negb (list_mem x a)) a = [])
    by (apply filter_none; intros x Hx; now rewrite self_mem).
  assert (Hun : first_occurrences (a ++ a) = first_occurrences a).
  { unfold first_occurrences. rewrite first_occurrences_from_app. simpl.
    rewrite (first_occurrences_from_seen a a) by (intros x Hx; now apply self_mem).
    apply app_nil_r. }
  rewrite Hall, Hnone, Hun. repeat split.
  rewrite filter_none; [reflexivity|].
  intros x Hx. rewrite first_occurrences_mem.
  apply first_occurrences_In in Hx. now rewrite self_mem.
Qed.

Lemma set_filters_on_self_witness :
  difference (VList [VInt 2; VStr "a"; VInt 2]) (VList [VInt 2; VStr "a"; VInt 2])
  = Ok (VList []).
Proof.
  apply (proj1 (proj2 (proj2 (set_filters_on_self [VInt 2; VStr "a"; VInt 2]
                                 ltac:(repeat constructor))))).
Defined.

(** X11.  Outside the hash-set mode [union] concatenates with [a + b]: unless
    both collections are lists, [union] and [symmetric_difference] raise
    TypeError (a list with a tuple, two sets, two mappings). *)
Theorem union_needs_same_kind (a b : pyval) :
  is_Hashable a && is_Hashable b = false ->
  match a, b with VList _, VList _ => False | _, _ => True end ->
  union a b = Raise TypeError /\ symmetric_difference a b = Raise TypeError.
Proof.
  intros Hh Hk.
  assert (Hu : union a b = Raise TypeError).
  { unfold union. rewrite Hh.
    destruct (not_both_hashable_add a b Hh) as [(la & lb & -> & ->)|Hadd];
      [contradiction|now rewrite Hadd]. }
  split; [assumption|].
  unfold symmetric_difference. now rewrite Hh, Hu.
Qed.

Lemma union_needs_same_kind_witness :
  union (VList [VInt 1]) (VTuple [VInt 2]) = Raise TypeError
  /\ symmetric_difference (VSet [VInt 1]) (VSet [VInt 2]) = Raise TypeError.
Proof.
  split.
  - apply (proj1 (union_needs_same_kind (VList [VInt 1]) (VTuple [VInt 2]) eq_refl I)).
  - apply (proj2 (union_needs_same_kind (VSet [VInt 1]) (VSet [VInt 2]) eq_refl I)).
Defined.

(** X12.  [difference(a, b)] and [intersect(a, b)] split [a]: the first
    shares nothing with [b] and is left whole by a second [difference], the
    second lies in [b], and their [union] holds the elements of
    [unique(a)]. *)
Theorem difference_intersect_partition (a b : list pyval) :
  exists d i,
    difference (VList a) (VList b) = Ok (VList d)
    /\ intersect (VList a) (VList b) = Ok (VList i)
    /\ intersect (VList d) (VList b) = Ok (VList [])
    /\ difference (VList d) (VList b) = Ok (VList d)
    /\ difference (VList i) (VList b) = Ok (VList [])
    /\ intersect (VList i) (VList b) = Ok (VList i)
    /\ same_outcome (union (VList d) (VList i)) (unique (VList a)).
Proof.
  do 2 eexists.
  split; [apply difference_list|]. split; [apply intersect_list|].
  set (d := first_occurrences (filter (fun x => negb (list_mem x b)) a)).
  set (i := first_occurrences (filter (fun x => list_mem x b) a)).
  assert (Hd : forall x, In x d -> list_mem x b = false).
  { intros x Hx. apply first_occurrences_In, filter_In in Hx.
    now apply negb_true_iff. }
  assert (Hi : forall x, In x i -> list_mem x b = true).
  { intros x Hx. apply first_occurrences_In, filter_In in Hx. tauto. }
  rewrite !intersect_list, !difference_list, union_list, unique_list.
  rewrite (filter_none (fun x => list_mem x b) d) by assumption.
  rewrite (filter_all (fun x => negb (list_mem x b)) d)
    by (intros x Hx; now rewrite Hd).
  rewrite (filter_none (fun x => negb (list_mem x b)) i)
    by (intros x Hx; now rewrite Hi).
  rewrite (filter_all (fun x => list_mem x b) i) by assumption.
  change (first_occurrences []) with (@nil pyval).
  rewrite (first_occurrences_id d), (first_occurrences_id i)
    by apply first_occurrences_distinct.
  repeat split.
  simpl. do 2 eexists. repeat split. intros x.
  rewrite !first_occurrences_mem, list_mem_app. unfold d, i.
  rewrite !first_occurrences_mem.
  rewrite (list_mem_filter _ a x) by apply respects_not_mem.
  rewrite (list_mem_filter _ a x) by apply respects_mem.
  destruct (list_mem x a), (list_mem x b); reflexivity.
Qed.

(** *** A list against a text *)

Lemma filterM_in_text s (q : bool -> bool) ts :
  filterM (fun x => c <- py_contains (VStr s) x ;; Ok (q c)) (map VStr ts)
  = Ok (map VStr (filter (fun t => q (is_substring t s)) ts)).
Proof.
  induction ts as [|t ts IH]; [reflexivity|].
  cbn [map filterM]. rewrite IH.
  change (py_contains (VStr s) (VStr t)) with (Ok (is_substring t s)).
  cbn [bind filter]. now destruct (q (is_substring t s)).
Qed.

Lemma filterM_not_text s (q : bool -> bool) a :
  existsb (fun x => match x with VStr _ => false | _ => true end) a = true ->
  filterM (fun x => c <- py_contains (VStr s) x ;; Ok (q c)) a = Raise TypeError.
Proof.
  induction a as [|x a IH]; [discriminate|].
  cbn [existsb filterM]. destruct x; try reflexivity.
  cbn [orb]. intros H. rewrite (IH H).
  now change (py_contains (VStr s) (VStr s0)) with (Ok (is_substring s0 s)).
Qed.

(** X30.  Against a text [b] the fallback tests [x in b], which on a text is
    the substring test: of a list of texts [intersect] keeps those that
    occur in [b] and [difference] those that do not (not the characters
    they share with it), and a list that holds anything but texts makes both
    raise TypeError. *)
Theorem list_against_text (s : string) :
  (forall ts,
      intersect (VList (map VStr ts)) (VStr s)
      = Ok (VList (first_occurrences (map VStr (filter (fun t => is_substring t s) ts))))
      /\ difference (VList (map VStr ts)) (VStr s)
         = Ok (VList (first_occurrences
                        (map VStr (filter (fun t => negb (is_substring t s)) ts)))))
  /\ (forall a,
        existsb (fun x => match x with VStr _ => false | _ => true end) a = true ->
        intersect (VList a) (VStr s) = Raise TypeError
        /\ difference (VList a) (VStr s) = Raise TypeError).
Proof.
  split.
  - intros ts. unfold intersect, difference. cbn [is_Hashable andb py_iter bind].
    pose proof (filterM_in_text s (fun c => c) ts) as Hi.
    pose proof (filterM_in_text s negb ts) as Hd.
    split.
    + rewrite (filterM_ext _ (fun x => c <- py_contains (VStr s) x ;; Ok c))
        by (intros x _; now destruct (py_contains (VStr s) x)).
      rewrite Hi. cbn [bind]. apply unique_list.
    + rewrite Hd. cbn [bind]. apply unique_list.
  - intros a Ha. unfold intersect, difference. cbn [is_Hashable andb py_iter bind].
    pose proof (filterM_not_text s (fun c => c) a Ha) as Hi.
    pose proof (filterM_not_text s negb a Ha) as Hd.
    split.
    + rewrite (filterM_ext _ (fun x => c <- py_contains (VStr s) x ;; Ok c))
        by (intros x _; now destruct (py_contains (VStr s) x)).
      now rewrite Hi.
    + now rewrite Hd.
Qed.

Lemma list_against_text_witness :
  intersect (VList [VStr "ab"; VStr "ba"; VInt 1]) (VStr "abc") = Raise TypeError.
Proof.
  apply (proj2 (list_against_text "abc") [VStr "ab"; VStr "ba"; VInt 1]).
  reflexivity.
Defined.

End SetTheory.

(** ** Rekeying *)

Module Rekey.

Import Py Spec PyFacts mathstuff.
Local Open Scope py_scope.

(** *** The loop of [rekey_on_member] *)

Lemma rekey_loop_app key duplicates pre rest new_obj :
  rekey_loop key duplicates (pre ++ rest) new_obj
  = (obj <- rekey_loop key duplicates pre new_obj ;; rekey_loop key duplicates rest obj).
Proof.
  revert new_obj. induction pre as [|item pre IH]; intros new_obj; simpl; auto.
  destruct item; auto.
  destruct (dict_getitem d key) as [key_elem|[]]; simpl; auto.
  destruct (dict_get new_obj key_elem VNone) as [existing|]; simpl; auto.
  destruct (py_truthy existing).
  - destruct (py_eq duplicates (VStr "error")); auto.
    destruct (py_eq duplicates (VStr "overwrite")); auto.
    destruct (dict_setitem new_obj key_elem (VDict d)); simpl; auto.
  - destruct (dict_setitem new_obj key_elem (VDict d)); simpl; auto.
Qed.

Lemma rekey_on_member_unfold data key duplicates :
  list_mem duplicates [VStr "error"; VStr "overwrite"] = true ->
  rekey_on_member data key duplicates
  = (iterate_over <- rekey_iterate_over data ;;
     new_obj <- rekey_loop key duplicates iterate_over [] ;;
     Ok (VDict new_obj)).
Proof. unfold rekey_on_member. now intros ->. Qed.



(** *** Collisions *)

Lemma record_key_inv key item k :
  record_key key item = Some k ->
  exists fields, item = VDict fields /\ dict_find fields key = Some k.
Proof. destruct item; simpl; try discriminate. eauto. Qed.

Lemma record_truthy key item k : record_key key item = Some k -> py_truthy item = true.
Proof.
  intros H. destruct (record_key_inv _ _ _ H) as (fields & -> & Hf).
  now destruct fields.
Qed.

(** One turn of the loop on a record whose key is not in [new_obj] yet. *)
Lemma rekey_loop_fresh key duplicates item k rest new_obj :
  hashable key = true ->
  record_key key item = Some k -> hashable k = true ->
  list_mem k (map fst new_obj) = false ->
  rekey_loop key duplicates (item :: rest) new_obj
  = rekey_loop key duplicates rest (new_obj ++ [(k, item)]).
Proof.
  intros Hkey Hk Hh Hnew.
  destruct (record_key_inv _ _ _ Hk) as (fields & -> & Hf).
  simpl. unfold dict_getitem, dict_get, dict_setitem, dict_find_default.
  rewrite Hkey, Hf. simpl. rewrite Hh, (dict_find_None _ _ Hnew). simpl.
  now rewrite dict_set_new.
Qed.

Lemma rekey_loop_distinct key duplicates pre ks rest :
  hashable key = true ->
  keyed key pre ks -> distinct ks ->
  forall new_obj,
    (forall k, In k ks -> list_mem k (map fst new_obj) = false) ->
    rekey_loop key duplicates (pre ++ rest) new_obj
    = rekey_loop key duplicates rest (new_obj ++ combine ks pre).
Proof.
  intros Hkey Hkeyed. induction Hkeyed as [|item k pre ks [Hk Hh] _ IH];
    intros Hd new_obj Hnew.
  - simpl. now rewrite app_nil_r.
  - inversion Hd as [|? ? Hfirst Hrest]; subst.
    change ((item :: pre) ++ rest) with (item :: (pre ++ rest)).
    rewrite (rekey_loop_fresh key duplicates item k (pre ++ rest) new_obj)
      by auto with datatypes.
    rewrite IH; auto.
    + simpl. now rewrite <- app_assoc.
    + intros k' Hk'. rewrite map_app, list_mem_app, Hnew by auto with datatypes.
      simpl. rewrite orb_false_r. rewrite Forall_forall in Hfirst. auto.
Qed.

Lemma dict_find_combine key pre ks k :
  keyed key pre ks -> list_mem k ks = true ->
  exists item k0, dict_find (combine ks pre) k = Some item /\ record_key key item = Some k0.
Proof.
  induction 1 as [|item k0 pre ks [Hk Hh] _ IH]; simpl; [discriminate|].
  destruct (py_eq k0 k); simpl; eauto.
Qed.




Lemma combine_app {A B} (l1 l2 : list A) (m1 m2 : list B) :
  List.length l1 = List.length m1 ->
  combine (l1 ++ l2) (m1 ++ m2) = combine l1 m1 ++ combine l2 m2.
Proof.
  revert m1. induction l1 as [|x l1 IH]; intros [|y m1]; simpl; try discriminate; auto.
  intros [= H]. now rewrite IH.
Qed.

Lemma keyed_length key items ks : keyed key items ks -> List.length ks = List.length items.
Proof. intros H. symmetry. eapply Forall2_length; eauto. Qed.



(** X6.  A [duplicates] value other than ['error'] and ['overwrite'] is
    rejected with the filter error before [data] is looked at. *)
Theorem rekey_unknown_duplicates (data key duplicates : pyval) :
  list_mem duplicates [VStr "error"; VStr "overwrite"] = false ->
  rekey_on_member data key duplicates
  = Raise (AnsibleFilterError (RekeyDuplicatesValue duplicates)).
Proof. unfold rekey_on_member. now intros ->. Qed.

Lemma rekey_unknown_duplicates_witness :
  rekey_on_member (VInt 0) VNone (VStr "ignore")
  = Raise (AnsibleFilterError (RekeyDuplicatesValue (VStr "ignore"))).
Proof. apply rekey_unknown_duplicates. reflexivity. Defined.




(** *** Items that cannot be filed *)

(** One turn of the loop, on a record. *)
Lemma rekey_loop_record key duplicates fields rest new_obj :
  rekey_loop key duplicates (VDict fields :: rest) new_obj
  = if hashable key then
      match dict_find fields key with
      | None => Raise (AnsibleFilterError (RekeyKeyNotFound key))
      | Some k =>
          if hashable k then
            if py_truthy (dict_find_default new_obj k VNone) then
              if py_eq duplicates (VStr "error") then
                Raise (AnsibleFilterError (RekeyNotUnique k))
              else if py_eq duplicates (VStr "overwrite") then
                rekey_loop key duplicates rest (dict_set new_obj k (VDict fields))
              else rekey_loop key duplicates rest new_obj
            else rekey_loop key duplicates rest (dict_set new_obj k (VDict fields))
          else Raise TypeError
      end
    else Raise (AnsibleFilterError (RekeyNative TypeError)).
Proof.
  cbn [rekey_loop]. unfold dict_getitem, dict_get, dict_setitem.
  destruct (hashable key); [|reflexivity].
  destruct (dict_find fields key) as [k|]; [|reflexivity]. cbn [bind].
  destruct (hashable k); [|reflexivity]. cbn [bind].
  destruct (py_truthy _); [|reflexivity].
  destruct (py_eq duplicates (VStr "error")); [reflexivity|].
  destruct (py_eq duplicates (VStr "overwrite")); reflexivity.
Qed.

Lemma rekey_loop_not_record key duplicates item rest new_obj :
  match item with VDict _ => False | _ => True end ->
  rekey_loop key duplicates (item :: rest) new_obj = Raise (AnsibleFilterError RekeyItemType).
Proof. destruct item; simpl; tauto. Qed.

(** X24.  When the loop reaches an item that is not a mapping,
    [rekey_on_member] fails with the filter error "List item is not a valid
    dict"; when [key] cannot be hashed, the first record makes it fail with
    the filter error that carries the TypeError of [item[key]].  Both are
    InvalidArgument. *)
Theorem rekey_bad_item :
  (forall data key duplicates pre item post new_obj,
      known_policy duplicates = true ->
      rekey_iterate_over data = Ok (pre ++ item :: post) ->
      rekey_loop key duplicates pre [] = Ok new_obj ->
      match item with VDict _ => False | _ => True end ->
      rekey_on_member data key duplicates = Raise (AnsibleFilterError RekeyItemType))
  /\ (forall data key duplicates fields post,
        known_policy duplicates = true ->
        rekey_iterate_over data = Ok (VDict fields :: post) ->
        hashable key = false ->
        rekey_on_member data key duplicates
        = Raise (AnsibleFilterError (RekeyNative TypeError)))
  /\ error_kind RekeyItemType = InvalidArgument
  /\ error_kind (RekeyNative TypeError) = InvalidArgument.
Proof.
  repeat apply conj; try reflexivity.
  - intros data key duplicates pre item post new_obj Hd Hdata Hpre Hitem.
    rewrite rekey_on_member_unfold, Hdata by assumption. cbn [bind].
    rewrite rekey_loop_app, Hpre. cbn [bind].
    now rewrite rekey_loop_not_record.
  - intros data key duplicates fields post Hd Hdata Hkey.
    rewrite rekey_on_member_unfold, Hdata by assumption. cbn [bind].
    now rewrite rekey_loop_record, Hkey.
Qed.

Lemma rekey_bad_item_witness :
  rekey_on_member (VList [VDict [(VStr "id", VInt 1)]; VStr "id"]) (VStr "id") (VStr "error")
  = Raise (AnsibleFilterError RekeyItemType)
  /\ rekey_on_member (VTuple [VDict [(VStr "id", VInt 1)]]) (VList [VStr "id"]) (VStr "error")
     = Raise (AnsibleFilterError (RekeyNative TypeError)).
Proof.
  split.
  - apply (proj1 rekey_bad_item
             (VList [VDict [(VStr "id", VInt 1)]; VStr "id"]) (VStr "id") (VStr "error")
             [VDict [(VStr "id", VInt 1)]] (VStr "id") []
             [(VInt 1, VDict [(VStr "id", VInt 1)])] eq_refl eq_refl eq_refl I).
  - apply (proj1 (proj2 rekey_bad_item)
             (VTuple [VDict [(VStr "id", VInt 1)]]) (VList [VStr "id"]) (VStr "error")
             [(VStr "id", VInt 1)] [] eq_refl eq_refl eq_refl).
Defined.



Lemma keyed_nil_inv key ks : keyed key [] ks -> ks = [].
Proof. intros H. now inversion H. Qed.


(** *** The two policies *)

(** The loop under [duplicates='error'], started on the empty mapping. *)
Lemma rekey_loop_error_inv key items : forall r,
  rekey_loop key (VStr "error") items [] = Ok r ->
  exists ks,
    keyed key items ks /\ distinct ks /\ (items = [] \/ hashable key = true)
    /\ r = combine ks items.
Proof.
  induction items as [|item pre IH] using rev_ind; intros r.
  - intros [= <-]. exists []. repeat split; auto; constructor.
  - rewrite rekey_loop_app.
    destruct (rekey_loop key (VStr "error") pre []) as [obj|] eqn:Epre; [|discriminate].
    cbn [bind]. destruct (IH obj eq_refl) as (ks & Hkeyed & Hdist & _ & ->).
    destruct item as [| | | | | | | | |fields]; try discriminate.
    rewrite rekey_loop_record.
    destruct (hashable key) eqn:Hkey; [|discriminate].
    destruct (dict_find fields key) as [k|] eqn:Hf; [|discriminate].
    destruct (hashable k) eqn:Hh; [|discriminate].
    destruct (list_mem k ks) eqn:Hnew.
    { destruct (dict_find_combine key pre ks k Hkeyed Hnew) as (old & k0 & Hold & Hk0).
      unfold dict_find_default. rewrite Hold, (record_truthy _ _ _ Hk0).
      discriminate. }
    assert (Hlen : List.length ks = List.length pre) by (eapply keyed_length; eauto).
    assert (Hnone : dict_find (combine ks pre) k = None)
      by (apply dict_find_None; now rewrite combine_keys).
    unfold dict_find_default. rewrite Hnone. cbn [py_truthy rekey_loop].
    rewrite dict_set_new by (now rewrite combine_keys).
    intros [= <-]. exists (ks ++ [k]). repeat split; auto.
    + apply Forall2_app; [assumption|]. repeat constructor; auto.
    + apply distinct_app; auto.
      * repeat constructor.
      * intros x [<-|[]]. assumption.
    + now rewrite combine_app.
Qed.

(** X26.  With [duplicates='error'], and with a field name and field values
    that are equal to themselves, [rekey_on_member] returns exactly when
    every item is a record that has the field [key] with a hashable value
    and no two of these values are equal; the result then holds every record
    under its own value, in iteration order. *)
Theorem rekey_error_mode (data key r : pyval) (items : list pyval) :
  rekey_iterate_over data = Ok items ->
  keys_self_equal key items ->
  (rekey_on_member data key (VStr "error") = Ok r <->
   exists ks,
     keyed key items ks /\ distinct ks /\ (items = [] \/ hashable key = true)
     /\ r = VDict (combine ks items)).
Proof.
  intros Hdata _. rewrite rekey_on_member_unfold, Hdata by reflexivity. cbn [bind]. split.
  - destruct (rekey_loop key (VStr "error") items []) as [obj|] eqn:E; [|discriminate].
    cbn [bind]. intros [= <-].
    destruct (rekey_loop_error_inv _ _ _ E) as (ks & H1 & H2 & H3 & ->). eauto 6.
  - intros (ks & Hkeyed & Hdist & [-> | Hkey] & ->).
    + now rewrite (keyed_nil_inv _ _ Hkeyed).
    + pose proof (rekey_loop_distinct key (VStr "error") items ks [] Hkey Hkeyed Hdist [])
        as H.
      rewrite app_nil_r in H. rewrite H by reflexivity. reflexivity.
Qed.

Lemma rekey_error_mode_witness :
  rekey_on_member
    (VDict [(VStr "a", VDict [(VStr "id", VInt 7); (VStr "v", VNone)]);
            (VStr "b", VDict [(VStr "id", VStr "x")])])
    (VStr "id") (VStr "error")
  = Ok (VDict [(VInt 7, VDict [(VStr "id", VInt 7); (VStr "v", VNone)]);
               (VStr "x", VDict [(VStr "id", VStr "x")])]).
Proof.
  refine (proj2 (rekey_error_mode
                   (VDict [(VStr "a", VDict [(VStr "id", VInt 7); (VStr "v", VNone)]);
                           (VStr "b", VDict [(VStr "id", VStr "x")])])
                   (VStr "id")
                   (VDict [(VInt 7, VDict [(VStr "id", VInt 7); (VStr "v", VNone)]);
                           (VStr "x", VDict [(VStr "id", VStr "x")])])
                   [VDict [(VStr "id", VInt 7); (VStr "v", VNone)];
                    VDict [(VStr "id", VStr "x")]]
                   eq_refl (conj eq_refl _)) _).
  - apply Forall_cons; [|apply Forall_cons; [|apply Forall_nil]].
    + intros k H. change (Some (VInt 7) = Some k) in H. now injection H as <-.
    + intros k H. change (Some (VStr "x") = Some k) in H. now injection H as <-.
  - exists [VInt 7; VStr "x"]. repeat split.
    + repeat constructor.
    + repeat constructor.
    + now right.
Defined.

(** *** What the result holds *)

Lemma filed_dict_set key items d k fields :
  In (VDict fields) items ->
  dict_find fields key = Some k -> hashable k = true ->
  Forall (filed_entry key items) d ->
  Forall (filed_entry key items) (dict_set d k (VDict fields)).
Proof.
  intros Hin Hf Hh. induction 1 as [|[k0 v0] d H0 Hd IH]; simpl.
  - repeat constructor; simpl; auto. exists k. auto.
  - destruct (py_eq k0 k) eqn:E.
    + constructor; auto. split; simpl; auto. exists k. auto.
    + constructor; auto.
Qed.

Lemma has_key_dict_set d k v k' : has_key d k' -> has_key (dict_set d k v) k'.
Proof.
  unfold has_key. rewrite dict_set_keys.
  destruct (list_mem k (map fst d)); auto.
  rewrite in_app_iff, list_mem_app. intros [H| ->]; auto.
Qed.

Lemma has_key_dict_set_same d k v : has_key (dict_set d k v) k.
Proof.
  unfold has_key. rewrite dict_set_keys.
  destruct (list_mem k (map fst d)) eqn:E; auto.
  left. apply in_app_iff. right. now left.
Qed.

Lemma known_policy_inv duplicates :
  known_policy duplicates = true ->
  py_eq duplicates (VStr "error") = true \/ py_eq duplicates (VStr "overwrite") = true.
Proof.
  unfold known_policy, list_mem. cbn [existsb].
  rewrite orb_false_r, orb_true_iff, !(py_eq_sym duplicates). tauto.
Qed.

(** The loop keeps the keys distinct, files records of the input under their
    keys, and leaves every key it has passed in the mapping. *)
Lemma rekey_loop_files key duplicates items rest : forall new_obj r,
  known_policy duplicates = true ->
  (forall x, In x rest -> In x items) ->
  distinct (map fst new_obj) ->
  Forall (filed_entry key items) new_obj ->
  (new_obj = [] \/ hashable key = true) ->
  rekey_loop key duplicates rest new_obj = Ok r ->
  distinct (map fst r)
  /\ Forall (filed_entry key items) r
  /\ (r = [] \/ hashable key = true)
  /\ (forall k, has_key new_obj k -> has_key r k)
  /\ Forall (fun item => exists k, record_key key item = Some k /\ has_key r k) rest.
Proof.
  intros new_obj r Hpol. revert new_obj r.
  induction rest as [|item rest IH]; intros new_obj r Hin Hdist Hfiled Hkey.
  - intros [= <-]. repeat split; auto.
  - destruct item as [| | | | | | | | |fields]; try discriminate.
    rewrite rekey_loop_record.
    destruct (hashable key) eqn:Ekey; [|discriminate].
    destruct (dict_find fields key) as [k|] eqn:Hf; [|discriminate].
    destruct (hashable k) eqn:Hh; [|discriminate].
    assert (Hset : rekey_loop key duplicates rest (dict_set new_obj k (VDict fields)) = Ok r ->
                   distinct (map fst r)
                   /\ Forall (filed_entry key items) r
                   /\ (r = [] \/ hashable key = true)
                   /\ (forall k, has_key new_obj k -> has_key r k)
                   /\ Forall (fun item => exists k, record_key key item = Some k /\ has_key r k)
                             (VDict fields :: rest)).
    { intros H. apply IH in H; auto with datatypes.
      - destruct H as (H1 & H2 & H3 & H4 & H5). repeat split; auto.
        + intros k' Hk'. now apply H4, has_key_dict_set.
        + constructor; auto. exists k. split; [assumption|].
          apply H4, has_key_dict_set_same.
      - now apply distinct_dict_set.
      - apply filed_dict_set; auto with datatypes. }
    rewrite Ekey in Hset.
    destruct (py_truthy _) eqn:Et; [|assumption].
    destruct (known_policy_inv _ Hpol) as [E|E]; rewrite E; [discriminate|].
    destruct (py_eq duplicates (VStr "error")); [discriminate|assumption].
Qed.



(** *** Rekeying the result *)

Lemma filed_keyed key items d :
  Forall (filed_entry key items) d ->
  exists ks, keyed key (map snd d) ks /\ same_keys (map fst d) ks.
Proof.
  induction 1 as [|[k v] d (_ & k' & Hk & Hh & Hrel) _ (ks & IH1 & IH2)]; simpl in *.
  - exists []. split; constructor.
  - exists (k' :: ks). split; constructor; auto.
Qed.

Lemma same_keys_eq k k' x x' :
  (k' = k \/ py_eq k k' = true) -> (x' = x \/ py_eq x x' = true) ->
  py_eq k' x' = true -> py_eq k x = true.
Proof.
  intros Hk Hx H.
  assert (Hk' : py_eq k k' = true).
  { destruct Hk as [->|]; auto.
    apply py_eq_trans with x'; auto. now rewrite py_eq_sym. }
  assert (Hx' : py_eq x' x = true).
  { destruct Hx as [->|Hx]; [|now rewrite py_eq_sym].
    apply py_eq_trans with k'; auto. now rewrite py_eq_sym. }
  eauto using py_eq_trans.
Qed.

Lemma same_keys_distinct ks ks' : same_keys ks ks' -> distinct ks -> distinct ks'.
Proof.
  unfold distinct. induction 1 as [|k k' ks ks' Hk Hrest IH]; intros Hd; [constructor|].
  inversion Hd as [|? ? Hfirst Hd']; subst. constructor; auto.
  clear IH Hd Hd'. induction Hrest as [|x x' ks ks' Hx _ IH]; constructor.
  - inversion Hfirst; subst.
    destruct (py_eq k' x') eqn:E; auto.
    now rewrite (same_keys_eq _ _ _ _ Hk Hx E) in *.
  - apply IH. now inversion Hfirst.
Qed.

Lemma same_keys_refl ks : same_keys ks ks.
Proof. induction ks; constructor; auto. Qed.

(** X28.  Rekeying a result on the same field returns the same records in
    the same order under the same or equal keys, and under
    [duplicates='error'] the very same mapping. *)
Theorem rekey_again (data key duplicates : pyval) (new_obj : dict) :
  rekey_on_member data key duplicates = Ok (VDict new_obj) ->
  exists new_obj',
    rekey_on_member (VDict new_obj) key duplicates = Ok (VDict new_obj')
    /\ map snd new_obj' = map snd new_obj
    /\ same_keys (map fst new_obj) (map fst new_obj')
    /\ (duplicates = VStr "error" -> new_obj' = new_obj).
Proof.
  unfold rekey_on_member at 1. destruct (negb _) eqn:Hpol; [discriminate|].
  apply negb_false_iff in Hpol.
  destruct (rekey_iterate_over data) as [items|] eqn:Hdata; [|discriminate]. cbn [bind].
  destruct (rekey_loop key duplicates items []) as [obj|] eqn:E; [|discriminate].
  cbn [bind]. intros [= <-].
  pose proof E as Hfiles.
  apply rekey_loop_files with (items := items) in Hfiles; auto; [|constructor].
  destruct Hfiles as (Hdist & Hfiled & Hkey & _ & _).
  destruct (filed_keyed _ _ _ Hfiled) as (ks & Hkeyed & Hsame).
  assert (Hlen : List.length ks = List.length (map snd obj))
    by (eapply keyed_length; eauto).
  assert (Hagain : rekey_on_member (VDict obj) key duplicates
                   = Ok (VDict (combine ks (map snd obj)))).
  { rewrite rekey_on_member_unfold by assumption. cbn [rekey_iterate_over bind].
    destruct Hkey as [-> | Hkey].
    - simpl in *. now rewrite (keyed_nil_inv _ _ Hkeyed).
    - pose proof (rekey_loop_distinct key duplicates (map snd obj) ks [] Hkey Hkeyed
                    (same_keys_distinct _ _ Hsame Hdist) []) as H.
      rewrite app_nil_r in H. now rewrite H. }
  exists (combine ks (map snd obj)). split; [assumption|].
  split; [now apply combine_values|].
  split; [now rewrite combine_keys|].
  intros ->.
  destruct (rekey_loop_error_inv _ _ _ E) as (ks0 & Hk0 & Hd0 & _ & ->).
  assert (Hl0 : List.length ks0 = List.length items) by (eapply keyed_length; eauto).
  rewrite combine_values in * by assumption.
  f_equal.
  clear - Hkeyed Hk0. revert ks Hkeyed.
  induction Hk0 as [|item k items ks0 [Hk _] _ IH]; intros ks Hkeyed;
    inversion Hkeyed as [|? k1 ? ks1 [Hk1 _] Hrest]; subst; auto.
  rewrite Hk in Hk1. injection Hk1 as <-. f_equal. auto.
Qed.

Lemma rekey_again_witness :
  exists new_obj',
    rekey_on_member (VDict [(VInt 1, VDict [(VStr "id", VBool true)])])
                    (VStr "id") (VStr "overwrite")
    = Ok (VDict new_obj')
    /\ map snd new_obj' = map snd [(VInt 1, VDict [(VStr "id", VBool true)])]
    /\ same_keys (map fst [(VInt 1, VDict [(VStr "id", VBool true)])]) (map fst new_obj')
    /\ (VStr "overwrite" = VStr "error" ->
        new_obj' = [(VInt 1, VDict [(VStr "id", VBool true)])]).
Proof.
  apply (rekey_again
           (VList [VDict [(VStr "id", VInt 1)]; VDict [(VStr "id", VBool true)]])
           (VStr "id") (VStr "overwrite")).
  reflexivity.
Defined.

End Rekey.

(** ** Haversine *)

Module Haversine.

Import Py Spec PyFacts mathstuff.
Local Open Scope py_scope.

Section WithPlatform.

Context (P : Platform).

Lemma coordinates_unpack c lat1 lon1 lat2 lon2 unit :
  coordinates_of c lat1 lon1 lat2 lon2 unit ->
  haversine_unpack c = Ok (lat1, lon1, lat2, lon2, unit).
Proof.
  intros [ | |d a1 a2 a3 a4 H1 H2 H3 H4]; try reflexivity.
  unfold haversine_unpack, dict_find_default. simpl forallb.
  rewrite (dict_find_some_mem _ _ _ H1), (dict_find_some_mem _ _ _ H2),
    (dict_find_some_mem _ _ _ H3), (dict_find_some_mem _ _ _ H4).
  simpl. now rewrite H1, H2, H3, H4.
Qed.

Lemma unpack_coordinates c lat1 lon1 lat2 lon2 unit :
  haversine_unpack c = Ok (lat1, lon1, lat2, lon2, unit) ->
  coordinates_of c lat1 lon1 lat2 lon2 unit.
Proof.
  destruct c as [| | | | | |l| | |d]; simpl; try discriminate.
  - destruct l as [|a1 [|a2 [|a3 [|a4 [|a5 [|a6 l]]]]]]; try discriminate.
    + intros [= <- <- <- <- <-]. constructor.
    + intros [= <- <- <- <- <-]. constructor.
  - destruct (list_mem (VStr "lat1") (map fst d)) eqn:E1; [|discriminate].
    destruct (list_mem (VStr "lon1") (map fst d)) eqn:E2; [|discriminate].
    destruct (list_mem (VStr "lat2") (map fst d)) eqn:E3; [|discriminate].
    destruct (list_mem (VStr "lon2") (map fst d)) eqn:E4; [|discriminate].
    simpl. intros [= <- <- <- <- <-].
    destruct (dict_find_mem _ _ E1) as [v1 H1], (dict_find_mem _ _ E2) as [v2 H2],
      (dict_find_mem _ _ E3) as [v3 H3], (dict_find_mem _ _ E4) as [v4 H4].
    unfold dict_find_default at 1 2 3 4. rewrite H1, H2, H3, H4. now constructor.
Qed.

(** What the first [if] raises, and when. *)
Lemma unpack_raises c e :
  haversine_unpack c = Raise e ->
  (e = AnsibleFilterError HaversineInputType
   /\ match c with VList _ | VDict _ => False | _ => True end)
  \/ (exists l, c = VList l /\ List.length l <> 4%nat /\ List.length l <> 5%nat
                /\ e = AnsibleFilterError (HaversineListLength (List.length l)))
  \/ (exists d k, c = VDict d /\ In k required_keys /\ dict_find d k = None
                  /\ e = AnsibleFilterError HaversineDictKeys).
Proof.
  destruct c as [| | | | | |l| | |d]; simpl; try (intros [= <-]; now left).
  - destruct l as [|a1 [|a2 [|a3 [|a4 [|a5 [|a6 l]]]]]]; try discriminate;
      intros [= <-]; right; left; eexists; repeat split; simpl; lia.
  - intros H. right. right. exists d.
    destruct (list_mem (VStr "lat1") (map fst d)) eqn:E1;
      [|exists (VStr "lat1"); simpl in *; injection H as <-;
        repeat split; auto using dict_find_None].
    destruct (list_mem (VStr "lon1") (map fst d)) eqn:E2;
      [|exists (VStr "lon1"); simpl in *; injection H as <-;
        repeat split; auto using dict_find_None].
    destruct (list_mem (VStr "lat2") (map fst d)) eqn:E3;
      [|exists (VStr "lat2"); simpl in *; injection H as <-;
        repeat split; auto using dict_find_None].
    destruct (list_mem (VStr "lon2") (map fst d)) eqn:E4;
      [|exists (VStr "lon2"); simpl in *; injection H as <-;
        repeat split; auto 6 using dict_find_None].
    discriminate.
Qed.

Lemma unpack_list_length l :
  List.length l <> 4%nat -> List.length l <> 5%nat ->
  haversine_unpack (VList l) = Raise (AnsibleFilterError (HaversineListLength (List.length l))).
Proof.
  destruct l as [|a1 [|a2 [|a3 [|a4 [|a5 [|a6 l]]]]]]; simpl; intros; try reflexivity; lia.
Qed.

Lemma unpack_dict_keys d k :
  In k required_keys -> dict_find d k = None ->
  haversine_unpack (VDict d) = Raise (AnsibleFilterError HaversineDictKeys).
Proof.
  intros Hk Hf. unfold haversine_unpack.
  assert (E : list_mem k (map fst d) = false).
  { destruct (list_mem k (map fst d)) eqn:E; auto.
    destruct (dict_find_mem _ _ E) as [v Hv]. congruence. }
  replace (forallb _ _) with false; auto.
  symmetry. apply not_true_is_false. rewrite forallb_forall. intros H.
  specialize (H k Hk). congruence.
Qed.

Lemma py_float_raises v e :
  py_float P v = Raise e -> e = ValueError \/ e = TypeError \/ e = OverflowError.
Proof.
  destruct v; simpl; try (intros [= <-]; tauto).
  - unfold float_of_int. destruct (float_of_Z z); intros [= <-]; tauto.
  - destruct (float_of_string P s); intros [= <-]; tauto.
  - destruct (float_of_string P s); intros [= <-]; tauto.
Qed.

Lemma haversine_floats_raises lat1 lon1 lat2 lon2 e :
  haversine_floats P lat1 lon1 lat2 lon2 = Raise e ->
  e = ValueError \/ e = TypeError \/ e = OverflowError.
Proof.
  unfold haversine_floats.
  destruct (py_float P lat1) eqn:E1; cbn [bind];
    [|intros [= <-]; eapply py_float_raises; eauto].
  destruct (py_float P lon1) eqn:E2; cbn [bind];
    [|intros [= <-]; eapply py_float_raises; eauto].
  destruct (py_float P lat2) eqn:E3; cbn [bind];
    [|intros [= <-]; eapply py_float_raises; eauto].
  destruct (py_float P lon2) eqn:E4; cbn [bind];
    [discriminate|intros [= <-]; eapply py_float_raises; eauto].
Qed.

Lemma floats_of_conv lat1 lon1 lat2 lon2 f1 f2 f3 f4 :
  floats_of P [lat1; lon1; lat2; lon2] [f1; f2; f3; f4] <->
  haversine_floats P lat1 lon1 lat2 lon2 = Ok (f1, f2, f3, f4).
Proof.
  unfold haversine_floats, floats_of. split.
  - intros H. inversion H as [|? ? ? ? H1 H']; subst.
    inversion H' as [|? ? ? ? H2 H'']; subst.
    inversion H'' as [|? ? ? ? H3 H''']; subst.
    inversion H''' as [|? ? ? ? H4 _]; subst.
    now rewrite H1, H2, H3, H4.
  - destruct (py_float P lat1) eqn:E1; simpl; [|discriminate].
    destruct (py_float P lon1) eqn:E2; simpl; [|discriminate].
    destruct (py_float P lat2) eqn:E3; simpl; [|discriminate].
    destruct (py_float P lon2) eqn:E4; simpl; [|discriminate].
    intros [= <- <- <- <-]. repeat constructor; assumption.
Qed.

Lemma text_rejected_conv lat1 lon1 lat2 lon2 :
  text_rejected P [lat1; lon1; lat2; lon2] <->
  haversine_floats P lat1 lon1 lat2 lon2 = Raise ValueError.
Proof.
  unfold haversine_floats, text_rejected. split.
  - intros (pre & x & post & Hsplit & [fs Hpre] & Hx).
    destruct pre as [|p1 [|p2 [|p3 [|p4 pre]]]]; simpl in Hsplit.
    + injection Hsplit as <- _. now rewrite Hx.
    + injection Hsplit as <- <- _.
      inversion Hpre as [|? ? ? ? H1 _]; subst. now rewrite H1, Hx.
    + injection Hsplit as <- <- <- _.
      inversion Hpre as [|? ? ? ? H1 H']; subst.
      inversion H' as [|? ? ? ? H2 _]; subst. now rewrite H1, H2, Hx.
    + injection Hsplit as <- <- <- <- _.
      inversion Hpre as [|? ? ? ? H1 H']; subst.
      inversion H' as [|? ? ? ? H2 H'']; subst.
      inversion H'' as [|? ? ? ? H3 _]; subst. now rewrite H1, H2, H3, Hx.
    + apply (f_equal (@List.length pyval)) in Hsplit. simpl in Hsplit.
      rewrite length_app in Hsplit. simpl in Hsplit. lia.
  - destruct (py_float P lat1) as [f1|e1] eqn:E1; simpl.
    2:{ intros [= ->]. exists [], lat1, [lon1; lat2; lon2].
        repeat split; auto. exists []. constructor. }
    destruct (py_float P lon1) as [f2|e2] eqn:E2; simpl.
    2:{ intros [= ->]. exists [lat1], lon1, [lat2; lon2].
        repeat split; auto. exists [f1]. repeat constructor; auto. }
    destruct (py_float P lat2) as [f3|e3] eqn:E3; simpl.
    2:{ intros [= ->]. exists [lat1; lon1], lat2, [lon2].
        repeat split; auto. exists [f1; f2]. repeat constructor; auto. }
    destruct (py_float P lon2) as [f4|e4] eqn:E4; simpl.
    2:{ intros [= ->]. exists [lat1; lon1; lat2], lon2, [].
        repeat split; auto. exists [f1; f2; f3]. repeat constructor; auto. }
    discriminate.
Qed.

Lemma radius_m : radius (VStr "m") = Ok 3958.75%float.
Proof. reflexivity. Qed.

Lemma radius_km : radius (VStr "km") = Ok 6371%float.
Proof. vm_compute. reflexivity. Qed.

Lemma known_unit_inv u : known_unit u = true -> u = VStr "m" \/ u = VStr "km".
Proof.
  unfold known_unit, list_mem. cbn [existsb]. rewrite orb_false_r, orb_true_iff.
  intros [H|H]; apply py_eq_VStr in H; auto.
Qed.

Lemma unit_defined_supplied unit u : unit_defined unit = Some u <-> supplied_unit unit u.
Proof.
  unfold supplied_unit. destruct unit as [[]|]; simpl; split;
    try (intros [= <-]; split; congruence);
    try (intros [[= <-] H]; congruence); try discriminate; intros [H _]; discriminate.
Qed.

(** [haversine], stage by stage. *)
Lemma haversine_stages coordinates :
  haversine P coordinates =
  match haversine_unpack coordinates with
  | Raise e => Raise e
  | Ok (lat1, lon1, lat2, lon2, unit) =>
      match haversine_floats P lat1 lon1 lat2 lon2 with
      | Raise ValueError => Raise (AnsibleFilterError (HaversineFloats ValueError))
      | Raise e => Raise e
      | Ok (f1, f2, f3, f4) =>
          if match unit_defined unit with Some u => known_unit u | None => true end then
            match haversine_angle P f1 f2 f3 f4 with
            | Raise e => Raise (AnsibleFilterError (HaversineWentWrong e))
            | Ok c => Ok (haversine_value P unit c)
            end
          else Raise (AnsibleFilterError HaversineUnit)
      end
  end.
Proof.
  unfold haversine, haversine_value, rounded_distance, known_unit.
  destruct (haversine_unpack coordinates) as [[[[[lat1 lon1] lat2] lon2] unit]|e];
    cbn [bind]; auto.
  destruct (haversine_floats P lat1 lon1 lat2 lon2) as [[[[f1 f2] f3] f4]|[]];
    cbn [bind]; auto.
  destruct (unit_defined unit) as [u|] eqn:Eu.
  - destruct (list_mem u [VStr "m"; VStr "km"]) eqn:Ek; cbn [bind]; auto.
    destruct (haversine_angle P f1 f2 f3 f4) as [c|e]; cbn [bind]; auto.
    destruct (known_unit_inv _ Ek) as [-> | ->].
    + now rewrite radius_m.
    + now rewrite radius_km.
  - cbn [bind]. destruct (haversine_angle P f1 f2 f3 f4) as [c|e]; cbn [bind]; auto.
Qed.

(** C1 (amended).  [haversine] raises the filter error exactly when: the
    input is neither a list nor a mapping; or it is a list whose length is
    neither 4 nor 5; or it is a mapping that misses one of the keys lat1,
    lon1, lat2, lon2; or [float()] rejects the text of a coordinate with
    ValueError, the coordinates before it having converted; or the four
    coordinates convert and a unit other than [None] is supplied that is not
    ['m'] or ['km']; or the four coordinates convert and the computation of
    the central angle raises.  The error is an InvalidArgument every time. *)
Theorem haversine_filter_error_iff (c : pyval) :
  ((exists m, haversine P c = Raise (AnsibleFilterError m)) <-> haversine_rejects P c)
  /\ (forall m, haversine P c = Raise (AnsibleFilterError m) ->
                error_kind m = InvalidArgument).
Proof.
  rewrite haversine_stages. split; [split|].
  - (* the filter error is raised: one of the cases holds *)
    intros [m Hm].
    destruct (haversine_unpack c) as [[[[[lat1 lon1] lat2] lon2] unit]|e] eqn:Eu.
    + apply unpack_coordinates in Eu. right. right. right.
      exists lat1, lon1, lat2, lon2, unit. split; [assumption|].
      destruct (haversine_floats P lat1 lon1 lat2 lon2) as [[[[f1 f2] f3] f4]|e] eqn:Ef.
      * right. exists f1, f2, f3, f4. split; [now apply floats_of_conv|].
        destruct (unit_defined unit) as [u|] eqn:Ed.
        -- destruct (known_unit u) eqn:Ek.
           ++ right. destruct (haversine_angle P f1 f2 f3 f4) as [t|e]; [discriminate|eauto].
           ++ left. exists u. split; [now apply unit_defined_supplied|assumption].
        -- right. destruct (haversine_angle P f1 f2 f3 f4) as [t|e]; [discriminate|eauto].
      * left. apply text_rejected_conv.
        destruct (haversine_floats_raises _ _ _ _ _ Ef) as [-> | [-> | ->]];
          [assumption|discriminate|discriminate].
    + destruct (unpack_raises _ _ Eu) as [[_ H]|[(l & -> & H4 & H5 & _)|(d & k & -> & Hk & Hf & _)]].
      * now left.
      * right. left. eauto.
      * right. right. left. eauto.
  - (* one of the cases holds: the filter error is raised *)
    intros [H|[(l & -> & H4 & H5)|[(d & k & -> & Hk & Hf)|H]]].
    + exists HaversineInputType. now destruct c.
    + rewrite unpack_list_length by assumption. eauto.
    + rewrite (unpack_dict_keys d k) by assumption. eauto.
    + destruct H as (lat1 & lon1 & lat2 & lon2 & unit & Hc & H).
      rewrite (coordinates_unpack _ _ _ _ _ _ Hc).
      destruct H as [H|(f1 & f2 & f3 & f4 & Hf & H)].
      * apply text_rejected_conv in H. rewrite H. eauto.
      * apply floats_of_conv in Hf. rewrite Hf.
        destruct H as [(u & Hu & Hk)|[e He]].
        -- apply unit_defined_supplied in Hu. rewrite Hu, Hk. eauto.
        -- rewrite He. destruct (match unit_defined unit with Some u => known_unit u | None => true end); eauto.
  - intros m.
    destruct (haversine_unpack c) as [[[[[lat1 lon1] lat2] lon2] unit]|e] eqn:Eu.
    + destruct (haversine_floats P lat1 lon1 lat2 lon2) as [[[[f1 f2] f3] f4]|e] eqn:Ef;
        [|destruct (haversine_floats_raises _ _ _ _ _ Ef) as [-> | [-> | ->]];
          try discriminate; intros [= <-]; reflexivity].
      destruct (match unit_defined unit with Some u => known_unit u | None => true end);
        [|intros [= <-]; reflexivity].
      destruct (haversine_angle P f1 f2 f3 f4); [discriminate|intros [= <-]; reflexivity].
    + destruct (unpack_raises _ _ Eu)
        as [[-> _] | [(l & _ & _ & _ & ->) | (d & k & _ & _ & _ & ->)]];
        intros [= <-]; reflexivity.
Qed.

(** The code evaluates the haversine formula: it returns the angle of the
    formula when the formula has one, and raises when it has none. *)
Lemma haversine_angle_formula f1 f2 f3 f4 :
  match haversine_angle P f1 f2 f3 f4, great_circle_angle P f1 f2 f3 f4 with
  | Ok t, Ok t' => t = t'
  | Raise _, Raise _ => True
  | _, _ => False
  end.
Proof.
  unfold haversine_angle, great_circle_angle, hav.
  destruct (math_sin P (math_radians (f3 - f1) / 2)) as [s1|]; cbn [bind];
    [|exact I].
  destruct (float_pow P s1 2) as [p1|]; cbn [bind]; [|exact I].
  destruct (math_cos P (math_radians f1)) as [c1|]; cbn [bind];
    [|now destruct (math_sin P (math_radians (f4 - f2) / 2)) as [s2|]; cbn [bind];
      [destruct (float_pow P s2 2)|]].
  destruct (math_cos P (math_radians f3)) as [c2|]; cbn [bind];
    [|now destruct (math_sin P (math_radians (f4 - f2) / 2)) as [s2|]; cbn [bind];
      [destruct (float_pow P s2 2)|]].
  destruct (math_sin P (math_radians (f4 - f2) / 2)) as [s2|]; cbn [bind]; [|exact I].
  destruct (float_pow P s2 2) as [p2|]; cbn [bind]; [|exact I].
  destruct (math_sqrt (p1 + c1 * c2 * p2)) as [r|]; cbn [bind]; [|exact I].
  now destruct (math_asin P r).
Qed.

Lemma haversine_angle_returns f1 f2 f3 f4 t :
  haversine_angle P f1 f2 f3 f4 = Ok t <-> great_circle_angle P f1 f2 f3 f4 = Ok t.
Proof.
  pose proof (haversine_angle_formula f1 f2 f3 f4) as H.
  destruct (haversine_angle P f1 f2 f3 f4), (great_circle_angle P f1 f2 f3 f4);
    try contradiction; subst; split; congruence.
Qed.

Lemma is_inf_inv x : is_inf x = true -> x = infinity \/ x = neg_infinity.
Proof.
  unfold is_inf. rewrite eqb_spec, abs_spec. intros H.
  rewrite <- (SF2Prim_Prim2SF x).
  destruct (Prim2SF x) as [s|s| |s m e]; try discriminate.
  destruct s; [right|left]; reflexivity.
Qed.

Lemma cos_infinite x : is_inf x = true -> math_cos P (math_radians x) = Raise ValueError.
Proof. intros H. now destruct (is_inf_inv x H) as [-> | ->]. Qed.

(** An infinite latitude has no cosine. *)
Lemma angle_infinite_latitude f1 f2 f3 f4 :
  is_inf f1 = true \/ is_inf f3 = true -> exists e, haversine_angle P f1 f2 f3 f4 = Raise e.
Proof.
  intros H. unfold haversine_angle.
  destruct (math_sin P (math_radians (f3 - f1) / 2)) as [s1|]; cbn [bind]; eauto.
  destruct (float_pow P s1 2) as [p1|]; cbn [bind]; eauto.
  destruct (is_inf f1) eqn:E1.
  - rewrite (cos_infinite f1 E1). cbn [bind]. eauto.
  - destruct H as [H|H]; [discriminate|].
    destruct (math_cos P (math_radians f1)) as [c1|]; cbn [bind]; eauto.
    rewrite (cos_infinite f3 H). cbn [bind]. eauto.
Qed.

(** C6 (amended).  [haversine] returns exactly when the input supplies four
    coordinates that [float()] accepts, the unit, if one is supplied, is
    ['m'] or ['km'], and the haversine formula has a value [t] at the four
    floats.  It then returns the distance [round(diameter / 2 * t, 2)] in
    the unit supplied, and without a unit the mapping of both distances,
    each rounded by itself.  An input that passes the listed checks need not
    have a value: an infinite latitude makes the call end in the filter
    error.  [haversine([0, 0, 0, 0])] is [{'km': 0.0, 'm': 0.0}] on a
    platform that is exact at zero. *)
Theorem haversine_returns_rounded :
  (forall c r,
      haversine P c = Ok r <->
      exists lat1 lon1 lat2 lon2 unit f1 f2 f3 f4 t,
        coordinates_of c lat1 lon1 lat2 lon2 unit
        /\ floats_of P [lat1; lon1; lat2; lon2] [f1; f2; f3; f4]
        /\ (forall u, supplied_unit unit u -> known_unit u = true)
        /\ great_circle_angle P f1 f2 f3 f4 = Ok t
        /\ r = haversine_value P unit t)
  /\ (forall c lat1 lon1 lat2 lon2 unit f1 f2 f3 f4 t,
        coordinates_of c lat1 lon1 lat2 lon2 unit ->
        floats_of P [lat1; lon1; lat2; lon2] [f1; f2; f3; f4] ->
        great_circle_angle P f1 f2 f3 f4 = Ok t ->
        (supplied_unit unit (VStr "km") ->
         haversine P c = Ok (VFloat (rounded_distance P 12742 t)))
        /\ (supplied_unit unit (VStr "m") ->
            haversine P c = Ok (VFloat (rounded_distance P 7917.5 t)))
        /\ ((forall u, ~ supplied_unit unit u) ->
            haversine P c = Ok (VDict [(VStr "km", VFloat (rounded_distance P 12742 t));
                                       (VStr "m", VFloat (rounded_distance P 7917.5 t))])))
  /\ (forall c lat1 lon1 lat2 lon2 unit f1 f2 f3 f4,
        coordinates_of c lat1 lon1 lat2 lon2 unit ->
        floats_of P [lat1; lon1; lat2; lon2] [f1; f2; f3; f4] ->
        is_inf f1 = true \/ is_inf f3 = true ->
        exists m, haversine P c = Raise (AnsibleFilterError m))
  /\ (exact_at_zero P ->
      haversine P (VList [VInt 0; VInt 0; VInt 0; VInt 0])
      = Ok (VDict [(VStr "km", VFloat 0); (VStr "m", VFloat 0)])).
Proof.
  split; [|split; [|split]].
  - intros c r. rewrite haversine_stages. split.
    + destruct (haversine_unpack c) as [[[[[lat1 lon1] lat2] lon2] unit]|] eqn:Eu;
        [|discriminate].
      destruct (haversine_floats P lat1 lon1 lat2 lon2) as [[[[f1 f2] f3] f4]|e] eqn:Ef;
        [|destruct e; discriminate].
      destruct (match unit_defined unit with Some u => known_unit u | None => true end)
        eqn:Ek; [|discriminate].
      destruct (haversine_angle P f1 f2 f3 f4) as [t|] eqn:Et; [|discriminate].
      intros [= <-]. exists lat1, lon1, lat2, lon2, unit, f1, f2, f3, f4, t.
      split; [now apply unpack_coordinates|].
      split; [now apply floats_of_conv|].
      split; [|split; [now apply haversine_angle_returns|reflexivity]].
      intros u Hu. apply unit_defined_supplied in Hu. now rewrite Hu in Ek.
    + intros (lat1 & lon1 & lat2 & lon2 & unit & f1 & f2 & f3 & f4 & t
              & Hc & Hf & Hu & Ht & ->).
      rewrite (coordinates_unpack _ _ _ _ _ _ Hc).
      apply floats_of_conv in Hf. rewrite Hf.
      apply haversine_angle_returns in Ht. rewrite Ht.
      destruct (unit_defined unit) as [u|] eqn:Eu; [|reflexivity].
      apply unit_defined_supplied in Eu. now rewrite (Hu u Eu).
  - intros c lat1 lon1 lat2 lon2 unit f1 f2 f3 f4 t Hc Hf Ht.
    rewrite haversine_stages, (coordinates_unpack _ _ _ _ _ _ Hc).
    apply floats_of_conv in Hf. apply haversine_angle_returns in Ht.
    rewrite Hf, Ht. unfold haversine_value.
    repeat split.
    + intros Hu. apply unit_defined_supplied in Hu. now rewrite Hu.
    + intros Hu. apply unit_defined_supplied in Hu. now rewrite Hu.
    + intros Hu. destruct (unit_defined unit) as [u|] eqn:Eu; [|reflexivity].
      apply unit_defined_supplied in Eu. now apply Hu in Eu.
  - intros c lat1 lon1 lat2 lon2 unit f1 f2 f3 f4 Hc Hf Hinf.
    rewrite haversine_stages, (coordinates_unpack _ _ _ _ _ _ Hc).
    apply floats_of_conv in Hf. rewrite Hf.
    destruct (angle_infinite_latitude f1 f2 f3 f4 Hinf) as [e He]. rewrite He.
    destruct (match unit_defined unit with Some u => known_unit u | None => true end);
      eauto.
  - intros (Hsin & Hcos & Hasin & Hpow & Hround).
    rewrite haversine_stages. cbn [haversine_unpack].
    assert (Hf : haversine_floats P (VInt 0) (VInt 0) (VInt 0) (VInt 0) = Ok (0, 0, 0, 0)%float)
      by reflexivity.
    rewrite Hf. cbn [unit_defined].
    assert (Ht : haversine_angle P 0 0 0 0 = Ok 0%float).
    { unfold haversine_angle, math_sin, math_cos, math_asin, math_radians.
      change (0 - 0)%float with 0%float.
      change (0 * deg_to_rad)%float with 0%float.
      change (0 / 2)%float with 0%float.
      change (is_inf 0) with false. cbv iota.
      rewrite Hsin, Hcos. cbn [bind]. rewrite Hpow. cbn [bind].
      change (0 + 1 * 1 * 0)%float with 0%float.
      change (math_sqrt 0) with (Ok 0%float). cbn [bind].
      change (PrimFloat.ltb 1 (abs 0)) with false. cbv iota.
      rewrite Hasin. reflexivity. }
    rewrite Ht. unfold haversine_value, rounded_distance. cbn [unit_defined].
    change (12742 / 2 * 0)%float with 0%float.
    change (7917.5 / 2 * 0)%float with 0%float.
    now rewrite Hround.
Qed.

End WithPlatform.

(** C1, as stated, fails.  A number is none of the four listed cases, and
    [haversine] raises the filter error on it; a list with an unknown unit
    is one of them, and when its first coordinate is [None] the call ends in
    a TypeError instead. *)
Lemma haversine_listed_cases_refuted :
  ((exists m, haversine Demo.platform (VInt 5) = Raise (AnsibleFilterError m))
   /\ ~ listed_haversine_rejects Demo.platform (VInt 5))
  /\ (listed_haversine_rejects Demo.platform
        (VList [VNone; VInt 0; VInt 0; VInt 0; VStr "xx"])
      /\ haversine Demo.platform (VList [VNone; VInt 0; VInt 0; VInt 0; VStr "xx"])
         = Raise TypeError).
Proof.
  repeat split.
  - eexists. reflexivity.
  - intros [(l & H & _)|[(d & k & H & _)|[H|H]]]; try discriminate.
    + destruct H as (lat1 & lon1 & lat2 & lon2 & unit & x & H & _). inversion H.
    + destruct H as (lat1 & lon1 & lat2 & lon2 & unit & u & H & _). inversion H.
  - right. right. right.
    exists VNone, (VInt 0), (VInt 0), (VInt 0), (Some (VStr "xx")), (VStr "xx").
    repeat split; [constructor|discriminate].
Qed.

(** C6, as stated, fails.  The list [[inf, 0, 0, 0]] passes every check
    the specification lists, and [haversine] does not return on it: the sine
    of an infinite angle is a domain error, which the last [try] turns into
    the filter error. *)
Lemma haversine_valid_input_raises :
  valid_coordinates Demo.platform (VList [VFloat infinity; VInt 0; VInt 0; VInt 0])
  /\ haversine Demo.platform (VList [VFloat infinity; VInt 0; VInt 0; VInt 0])
     = Raise (AnsibleFilterError (HaversineWentWrong ValueError)).
Proof.
  split; [|reflexivity].
  exists (VFloat infinity), (VInt 0), (VInt 0), (VInt 0), None,
    infinity, 0%float, 0%float, 0%float.
  split; [constructor|]. split; [repeat constructor|].
  intros u [H _]. discriminate.
Qed.

Lemma haversine_returns_rounded_witness :
  haversine Demo.platform (VList [VInt 0; VInt 0; VInt 0; VInt 0])
  = Ok (VDict [(VStr "km", VFloat 0); (VStr "m", VFloat 0)])
  /\ haversine Demo.platform
       (VDict [(VStr "lat1", VStr "0"); (VStr "lon1", VFloat 0); (VStr "lat2", VBool false);
               (VStr "lon2", VInt 0); (VStr "unit", VStr "km")])
     = Ok (VFloat (rounded_distance Demo.platform 12742 0))
  /\ (exists m,
        haversine Demo.platform (VList [VInt 0; VInt 0; VFloat neg_infinity; VInt 0; VStr "m"])
        = Raise (AnsibleFilterError m)).
Proof.
  split; [|split].
  - apply (proj2 (proj2 (proj2 (haversine_returns_rounded Demo.platform)))). repeat split.
  - refine (proj1 (proj1 (proj2 (haversine_returns_rounded Demo.platform))
                    (VDict [(VStr "lat1", VStr "0"); (VStr "lon1", VFloat 0);
                            (VStr "lat2", VBool false); (VStr "lon2", VInt 0);
                            (VStr "unit", VStr "km")])
                    (VStr "0") (VFloat 0) (VBool false) (VInt 0) (Some (VStr "km"))
                    0%float 0%float 0%float 0%float 0%float _ _ _) _).
    + apply (coordinates_dict
               [(VStr "lat1", VStr "0"); (VStr "lon1", VFloat 0);
                (VStr "lat2", VBool false); (VStr "lon2", VInt 0);
                (VStr "unit", VStr "km")]); reflexivity.
    + repeat constructor.
    + reflexivity.
    + split; [reflexivity|discriminate].
  - refine (proj1 (proj2 (proj2 (haversine_returns_rounded Demo.platform)))
              (VList [VInt 0; VInt 0; VFloat neg_infinity; VInt 0; VStr "m"])
              (VInt 0) (VInt 0) (VFloat neg_infinity) (VInt 0) (Some (VStr "m"))
              0%float 0%float neg_infinity 0%float _ _ _).
    + constructor.
    + repeat constructor.
    + right. reflexivity.
Defined.

(** *** The two input forms, and the errors that are not the filter error *)

Section InputForms.
Context (P : Platform).

(** What follows the unpacking depends on the unit through [unit_defined]. *)
Lemma haversine_unit_defined c c' lat1 lon1 lat2 lon2 unit unit' :
  haversine_unpack c = Ok (lat1, lon1, lat2, lon2, unit) ->
  haversine_unpack c' = Ok (lat1, lon1, lat2, lon2, unit') ->
  unit_defined unit = unit_defined unit' ->
  haversine P c = haversine P c'.
Proof.
  intros Hc Hc' Hu. rewrite !haversine_stages, Hc, Hc'. unfold haversine_value.
  now rewrite Hu.
Qed.

(** X20.  A mapping that has the four keys is treated as the list of their
    values followed by its [unit] entry ([None] when it has none), and a
    list whose fifth element is [None] as the list of the first four. *)
Theorem haversine_mapping_as_list :
  (forall d lat1 lon1 lat2 lon2,
      dict_find d (VStr "lat1") = Some lat1 ->
      dict_find d (VStr "lon1") = Some lon1 ->
      dict_find d (VStr "lat2") = Some lat2 ->
      dict_find d (VStr "lon2") = Some lon2 ->
      haversine P (VDict d)
      = haversine P (VList [lat1; lon1; lat2; lon2; dict_find_default d (VStr "unit") VNone]))
  /\ (forall lat1 lon1 lat2 lon2,
        haversine P (VList [lat1; lon1; lat2; lon2; VNone])
        = haversine P (VList [lat1; lon1; lat2; lon2])).
Proof.
  split.
  - intros d lat1 lon1 lat2 lon2 H1 H2 H3 H4.
    eapply haversine_unit_defined; [|reflexivity|reflexivity].
    apply coordinates_unpack. now constructor.
  - intros. eapply haversine_unit_defined; reflexivity.
Qed.

(** X21.  The coordinates count through [float()] only: two inputs whose
    coordinates convert to the same four floats and that supply the same
    unit (or none) end the same way, whatever the form of the input and the
    types of the coordinates. *)
Theorem haversine_by_floats
    (c c' lat1 lon1 lat2 lon2 lat1' lon1' lat2' lon2' : pyval) (unit unit' : option pyval)
    (f1 f2 f3 f4 : float) :
  coordinates_of c lat1 lon1 lat2 lon2 unit ->
  coordinates_of c' lat1' lon1' lat2' lon2' unit' ->
  floats_of P [lat1; lon1; lat2; lon2] [f1; f2; f3; f4] ->
  floats_of P [lat1'; lon1'; lat2'; lon2'] [f1; f2; f3; f4] ->
  unit_defined unit = unit_defined unit' ->
  haversine P c = haversine P c'.
Proof.
  intros Hc Hc' Hf Hf' Hu.
  rewrite !haversine_stages.
  rewrite (coordinates_unpack _ _ _ _ _ _ Hc), (coordinates_unpack _ _ _ _ _ _ Hc').
  apply floats_of_conv in Hf, Hf'. rewrite Hf, Hf'. unfold haversine_value.
  now rewrite Hu.
Qed.

(** X22.  [haversine] raises nothing but the filter error, TypeError and
    OverflowError; and it raises one of the last two exactly when the four
    coordinates are found and [float()] raises it on one of them. *)
Theorem haversine_other_errors :
  (forall c e,
      haversine P c = Raise e ->
      (exists m, e = AnsibleFilterError m) \/ e = TypeError \/ e = OverflowError)
  /\ (forall c e,
        e = TypeError \/ e = OverflowError ->
        (haversine P c = Raise e <->
         exists lat1 lon1 lat2 lon2 unit,
           coordinates_of c lat1 lon1 lat2 lon2 unit
           /\ haversine_floats P lat1 lon1 lat2 lon2 = Raise e)).
Proof.
  split.
  - intros c e. rewrite haversine_stages.
    destruct (haversine_unpack c) as [[[[[lat1 lon1] lat2] lon2] unit]|e0] eqn:Eu.
    + destruct (haversine_floats P lat1 lon1 lat2 lon2) as [[[[f1 f2] f3] f4]|e1] eqn:Ef.
      * destruct (match unit_defined unit with Some u => known_unit u | None => true end);
          [|intros [= <-]; eauto].
        destruct (haversine_angle P f1 f2 f3 f4); [discriminate|intros [= <-]; eauto].
      * destruct (haversine_floats_raises _ _ _ _ _ _ Ef) as [-> | [-> | ->]];
          intros [= <-]; eauto.
    + intros [= <-].
      destruct (unpack_raises _ _ Eu)
        as [[-> _] | [(l & _ & _ & _ & ->) | (d & k & _ & _ & _ & ->)]]; eauto.
  - intros c e He. rewrite haversine_stages. split.
    + destruct (haversine_unpack c) as [[[[[lat1 lon1] lat2] lon2] unit]|e0] eqn:Eu.
      * intros H. exists lat1, lon1, lat2, lon2, unit.
        split; [now apply unpack_coordinates|].
        destruct (haversine_floats P lat1 lon1 lat2 lon2) as [[[[f1 f2] f3] f4]|e1] eqn:Ef.
        -- destruct (match unit_defined unit with Some u => known_unit u | None => true end);
             [|destruct He; congruence].
           destruct (haversine_angle P f1 f2 f3 f4); destruct He; congruence.
        -- destruct e1; destruct He; congruence.
      * intros [= <-].
        destruct (unpack_raises _ _ Eu)
          as [[-> _] | [(l & _ & _ & _ & ->) | (d & k & _ & _ & _ & ->)]];
          destruct He; discriminate.
    + intros (lat1 & lon1 & lat2 & lon2 & unit & Hc & Hf).
      rewrite (coordinates_unpack _ _ _ _ _ _ Hc), Hf.
      destruct He as [-> | ->]; reflexivity.
Qed.

(** X23.  The mapping returned for four coordinates holds under ['km'] and
    ['m'] what the calls with these units return, and when the call without
    a unit fails, the calls with one fail with the same exception. *)
Theorem haversine_both_units (lat1 lon1 lat2 lon2 : pyval) :
  match haversine P (VList [lat1; lon1; lat2; lon2]) with
  | Ok r =>
      exists km m,
        r = VDict [(VStr "km", VFloat km); (VStr "m", VFloat m)]
        /\ haversine P (VList [lat1; lon1; lat2; lon2; VStr "km"]) = Ok (VFloat km)
        /\ haversine P (VList [lat1; lon1; lat2; lon2; VStr "m"]) = Ok (VFloat m)
  | Raise e =>
      haversine P (VList [lat1; lon1; lat2; lon2; VStr "km"]) = Raise e
      /\ haversine P (VList [lat1; lon1; lat2; lon2; VStr "m"]) = Raise e
  end.
Proof.
  rewrite !haversine_stages. cbn [haversine_unpack].
  destruct (haversine_floats P lat1 lon1 lat2 lon2) as [[[[f1 f2] f3] f4]|e].
  - cbn [unit_defined]. change (known_unit (VStr "km")) with true.
    change (known_unit (VStr "m")) with true. cbv iota.
    destruct (haversine_angle P f1 f2 f3 f4) as [t|e].
    + do 2 eexists. repeat split.
    + split; reflexivity.
  - destruct e; split; reflexivity.
Qed.

End InputForms.

Lemma haversine_mapping_as_list_witness :
  haversine Demo.platform
    (VDict [(VStr "lon2", VInt 0); (VStr "lat2", VInt 1); (VStr "lon1", VStr "0");
            (VStr "lat1", VFloat 0); (VStr "name", VStr "x")])
  = haversine Demo.platform (VList [VFloat 0; VStr "0"; VInt 1; VInt 0; VNone]).
Proof.
  apply (proj1 (haversine_mapping_as_list Demo.platform)
           [(VStr "lon2", VInt 0); (VStr "lat2", VInt 1); (VStr "lon1", VStr "0");
            (VStr "lat1", VFloat 0); (VStr "name", VStr "x")]);
    reflexivity.
Defined.

Lemma haversine_by_floats_witness :
  haversine Demo.platform (VList [VStr "0"; VBool false; VInt 1; VStr "1"])
  = haversine Demo.platform
      (VDict [(VStr "lat1", VFloat 0); (VStr "lon1", VFloat 0);
              (VStr "lat2", VFloat 1); (VStr "lon2", VFloat 1)]).
Proof.
  apply (haversine_by_floats Demo.platform
           (VList [VStr "0"; VBool false; VInt 1; VStr "1"])
           (VDict [(VStr "lat1", VFloat 0); (VStr "lon1", VFloat 0);
                   (VStr "lat2", VFloat 1); (VStr "lon2", VFloat 1)])
           (VStr "0") (VBool false) (VInt 1) (VStr "1")
           (VFloat 0) (VFloat 0) (VFloat 1) (VFloat 1)
           None (Some VNone) 0%float 0%float 1%float 1%float).
  - constructor.
  - apply (coordinates_dict
             [(VStr "lat1", VFloat 0); (VStr "lon1", VFloat 0);
              (VStr "lat2", VFloat 1); (VStr "lon2", VFloat 1)]); reflexivity.
  - repeat constructor.
  - repeat constructor.
  - reflexivity.
Defined.

End Haversine.

(** ** Exponents and logarithms *)

Module Exponents.

Import Py Spec PyFacts mathstuff.
Local Open Scope py_scope.

Section WithPlatform.

Context (P : Platform).

Lemma loghelper_nonpositive f x :
  nonpositive_number x = true -> loghelper f x = Raise ValueError.
Proof.
  destruct x; try discriminate; simpl; unfold loghelper; simpl; intros H.
  - destruct b; [discriminate|reflexivity].
  - now rewrite H.
  - now rewrite H.
Qed.

Lemma as_double_raises v e :
  as_double v = Raise e -> e = TypeError \/ e = OverflowError.
Proof.
  destruct v; simpl; try (intros [= <-]; tauto).
  unfold float_of_int. destruct (float_of_Z z); intros [= <-]; tauto.
Qed.

Lemma loghelper_raises f v e :
  loghelper f v = Raise e -> e = TypeError \/ e = OverflowError \/ e = ValueError.
Proof.
  unfold loghelper. destruct (int_like v) as [z|].
  - destruct (z <=? 0); [intros [= <-]; tauto|].
    destruct (float_of_Z z); [discriminate|].
    destruct (long_frexp z) as [x n]. unfold float_of_int.
    destruct (float_of_Z n); simpl; [discriminate|intros [= <-]; tauto].
  - destruct (as_double v) as [x|e'] eqn:E; simpl.
    + destruct (PrimFloat.leb x 0); [intros [= <-]; tauto|discriminate].
    + intros [= <-]. destruct (as_double_raises _ _ E); tauto.
Qed.

Lemma log_raises x base e :
  (if py_eq base (VInt 10) then math_log10 P x else math_log P x base) = Raise e ->
  e = TypeError \/ e = OverflowError \/ e = ValueError \/ e = ZeroDivisionError.
Proof.
  destruct (py_eq base (VInt 10)).
  - unfold math_log10. intros H. apply loghelper_raises in H. tauto.
  - unfold math_log.
    destruct (loghelper (libm_log P) x) as [num|e1] eqn:E1; simpl.
    + destruct (loghelper (libm_log P) base) as [den|e2] eqn:E2; simpl.
      * unfold float_div. destruct (PrimFloat.eqb den 0); [intros [= <-]; tauto|discriminate].
      * intros [= <-]. apply loghelper_raises in E2. tauto.
    + intros [= <-]. apply loghelper_raises in E1. tauto.
Qed.

(** C9.  For every number [x <= 0] and every [base], [logarithm] ends in
    the ValueError of the math library, not in the filter error: the only
    filter error it raises is the one that wraps a TypeError, and it never
    lets a TypeError through.  [inversepower] turns the ValueError of a
    negative square root into the filter error, and lets neither a
    ValueError nor a TypeError through. *)
Theorem logarithm_domain_error_unwrapped :
  (forall x base,
      nonpositive_number x = true -> logarithm P x base = Raise ValueError)
  /\ (forall x base m,
        logarithm P x base = Raise (AnsibleFilterError m) -> m = LogNumbers TypeError)
  /\ (forall x base, logarithm P x base <> Raise TypeError)
  /\ (forall f,
        PrimFloat.ltb f 0 = true ->
        inversepower P (VFloat f) (VInt 2)
        = Raise (AnsibleFilterError (RootNumbers ValueError)))
  /\ (forall x base,
        inversepower P x base <> Raise ValueError
        /\ inversepower P x base <> Raise TypeError).
Proof.
  repeat apply conj.
  - intros x base Hx. unfold logarithm, math_log10, math_log.
    rewrite !(loghelper_nonpositive _ _ Hx). now destruct (py_eq base (VInt 10)).
  - intros x base m. unfold logarithm.
    destruct (if py_eq base (VInt 10) then _ else _) as [r|e] eqn:E; [discriminate|].
    destruct (log_raises _ _ _ E) as [-> | [-> | [-> | ->]]]; try discriminate.
    now intros [= <-].
  - intros x base. unfold logarithm.
    destruct (if py_eq base (VInt 10) then _ else _) as [r|[]]; discriminate.
  - intros f Hf. unfold inversepower. simpl. unfold math_sqrt. now rewrite Hf.
  - intros x base. unfold inversepower.
    destruct (if py_eq base (VInt 2) then _ else _) as [r|[]]; split; discriminate.
Qed.

Lemma loghelper_TypeError f x : is_number x = false -> loghelper f x = Raise TypeError.
Proof. now destruct x. Qed.

(** X4.  When [x] is not a number, [logarithm], [power] and the square root
    of [inversepower] raise the filter error that wraps the TypeError. *)
Theorem log_pow_wrap_TypeError (x : pyval) :
  is_number x = false ->
  (forall base, logarithm P x base = Raise (AnsibleFilterError (LogNumbers TypeError)))
  /\ (forall y, power P x y = Raise (AnsibleFilterError (PowNumbers TypeError)))
  /\ inversepower P x (VInt 2) = Raise (AnsibleFilterError (RootNumbers TypeError)).
Proof.
  intros Hx. repeat split.
  - intros base. unfold logarithm, math_log10, math_log.
    rewrite !(loghelper_TypeError _ _ Hx). now destruct (py_eq base (VInt 10)).
  - intros y. unfold power, math_pow. now destruct x.
  - now destruct x.
Qed.

End WithPlatform.

Lemma log_pow_wrap_TypeError_witness :
  logarithm Demo.platform (VStr "ten") (VInt 10)
  = Raise (AnsibleFilterError (LogNumbers TypeError)).
Proof.
  apply (proj1 (log_pow_wrap_TypeError Demo.platform (VStr "ten") eq_refl)).
Defined.

Lemma logarithm_domain_error_unwrapped_witness :
  logarithm Demo.platform (VInt 0) (VInt 10) = Raise ValueError
  /\ logarithm Demo.platform (VFloat (-2.5)) logarithm_base_default = Raise ValueError
  /\ inversepower Demo.platform (VFloat (-4)) inversepower_base_default
     = Raise (AnsibleFilterError (RootNumbers ValueError)).
Proof.
  split; [|split].
  - apply (proj1 (logarithm_domain_error_unwrapped Demo.platform)). reflexivity.
  - apply (proj1 (logarithm_domain_error_unwrapped Demo.platform)). reflexivity.
  - apply (proj1 (proj2 (proj2 (proj2 (logarithm_domain_error_unwrapped Demo.platform))))).
    reflexivity.
Defined.

(** *** Roots, bases and integers at the edge *)

Section EdgeCases.
Context (P : Platform).

Lemma py_float_zero base :
  py_eq base (VInt 0) = true -> exists f, py_float P base = Ok f /\ PrimFloat.eqb f 0 = true.
Proof.
  destruct base; try discriminate; simpl.
  - destruct b; [discriminate|]. intros _. now exists 0%float.
  - unfold Qeq_bool. simpl. rewrite Z.mul_1_r. intros H. apply Z.eqb_eq in H. subst.
    now exists 0%float.
  - destruct (float_val f) as [[| q |]|] eqn:E; try discriminate.
    intros H. exists f. split; [reflexivity|]. eapply float_val_zero; eauto.
Qed.

(** X16.  A [base] equal to zero ([0], [0.0], [-0.0], [False]) makes
    [inversepower] end in the ZeroDivisionError of [1.0 / float(base)],
    unwrapped, whatever [x] is. *)
Theorem inversepower_zero_base (x base : pyval) :
  py_eq base (VInt 0) = true -> inversepower P x base = Raise ZeroDivisionError.
Proof.
  intros H0. unfold inversepower.
  rewrite (py_eq_excludes base 0 2 eq_refl H0).
  destruct (py_float_zero base H0) as (f & -> & Hf). cbn [bind].
  unfold float_div. now rewrite Hf.
Qed.

Lemma py_float_fails_not_two base e :
  py_float P base = Raise e -> py_eq base (VInt 2) = false.
Proof.
  destruct base; try reflexivity; simpl.
  - discriminate.
  - unfold float_of_int. intros H. unfold Qeq_bool. simpl. rewrite Z.mul_1_r.
    destruct (Z.eqb_spec z 2) as [->|]; auto.
    vm_compute in H. discriminate.
  - discriminate.
Qed.

(** X17.  When [float(base)] raises, [inversepower] fails whatever [x] is:
    with the filter error when the exception is a ValueError or a TypeError,
    with the exception itself otherwise (the OverflowError of an integer
    beyond the double range). *)
Theorem inversepower_bad_base (x base : pyval) (e : exn) :
  py_float P base = Raise e ->
  inversepower P x base
  = Raise (match e with
           | ValueError | TypeError => AnsibleFilterError (RootNumbers e)
           | _ => e
           end).
Proof.
  intros He. unfold inversepower.
  rewrite (py_float_fails_not_two base e He), He. cbn [bind].
  now destruct e.
Qed.

(** X5.  When [base] equals 2 ([2], [2.0]) and [x] is a number that is not
    below zero, [inversepower] returns the IEEE square root of [float(x)],
    on every platform: [inversepower(16, 2)] is [4.0]. *)
Theorem inversepower_square_root :
  (forall x base f,
      py_eq base (VInt 2) = true -> as_double x = Ok f -> PrimFloat.ltb f 0 = false ->
      inversepower P x base = Ok (VFloat (PrimFloat.sqrt f)))
  /\ inversepower P (VInt 16) (VInt 2) = Ok (VFloat 4)
  /\ inversepower P (VFloat 2.25) (VFloat 2) = Ok (VFloat 1.5).
Proof.
  split; [|split; reflexivity].
  intros x base f Hb Hx Hf. unfold inversepower. rewrite Hb, Hx. cbn [bind].
  unfold math_sqrt. now rewrite Hf.
Qed.

Lemma loghelper_positive f0 x f :
  as_double x = Ok f -> nonpositive_number x = false -> loghelper f0 x = Ok (f0 f).
Proof.
  destruct x; try discriminate; simpl; unfold loghelper; simpl.
  - destruct b; [|discriminate]. now intros [= <-].
  - unfold float_of_int. destruct (float_of_Z z) eqn:E; [|discriminate].
    intros [= <-] ->. reflexivity.
  - intros [= <-] ->. reflexivity.
Qed.

(** X18.  On a C library whose [log(1.0)] is zero, [logarithm(x, 1)] ends in
    the ZeroDivisionError of [math.log], unwrapped, for every positive
    number [x]; so it does for the bases [1.0] and [True]. *)
Theorem logarithm_base_one (x : pyval) (f : float) :
  PrimFloat.eqb (libm_log P 1) 0 = true ->
  as_double x = Ok f -> nonpositive_number x = false ->
  logarithm P x (VInt 1) = Raise ZeroDivisionError
  /\ logarithm P x (VFloat 1) = Raise ZeroDivisionError
  /\ logarithm P x (VBool true) = Raise ZeroDivisionError.
Proof.
  intros H1 Hx Hpos. unfold logarithm, math_log.
  rewrite (loghelper_positive _ x f Hx Hpos).
  repeat split; cbn [py_eq num_val]; 
    (rewrite (loghelper_positive _ _ 1%float) by reflexivity); cbn [bind];
    unfold float_div; now rewrite H1.
Qed.

(** X19.  An integer beyond the double range makes [power], in either
    argument, and the square root of [inversepower] end in OverflowError,
    unwrapped. *)
Theorem overflow_unwrapped (z : Z) :
  float_of_Z z = None ->
  (forall y, power P (VInt z) y = Raise OverflowError)
  /\ (forall x f, as_double x = Ok f -> power P x (VInt z) = Raise OverflowError)
  /\ inversepower P (VInt z) (VInt 2) = Raise OverflowError.
Proof.
  intros Hz. repeat split.
  - intros y. unfold power, math_pow. simpl. unfold float_of_int. now rewrite Hz.
  - intros x f Hx. unfold power, math_pow. rewrite Hx. simpl.
    unfold float_of_int. now rewrite Hz.
  - unfold inversepower. simpl. unfold float_of_int. now rewrite Hz.
Qed.

End EdgeCases.

Lemma inversepower_zero_base_witness :
  inversepower Demo.platform (VStr "x") (VFloat (-0)) = Raise ZeroDivisionError.
Proof. apply inversepower_zero_base. reflexivity. Defined.

Lemma inversepower_bad_base_witness :
  inversepower Demo.platform (VInt 8) (VStr "three")
  = Raise (AnsibleFilterError (RootNumbers ValueError))
  /\ inversepower Demo.platform (VInt 8) VNone
     = Raise (AnsibleFilterError (RootNumbers TypeError)).
Proof.
  split.
  - apply (inversepower_bad_base Demo.platform (VInt 8) (VStr "three") ValueError).
    reflexivity.
  - apply (inversepower_bad_base Demo.platform (VInt 8) VNone TypeError).
    reflexivity.
Defined.

Lemma inversepower_square_root_witness :
  inversepower Demo.platform (VBool true) (VFloat 2) = Ok (VFloat (PrimFloat.sqrt 1)).
Proof.
  apply (proj1 (inversepower_square_root Demo.platform) (VBool true) (VFloat 2) 1%float);
    reflexivity.
Defined.

Lemma logarithm_base_one_witness :
  logarithm Demo.platform (VInt 8) (VInt 1) = Raise ZeroDivisionError.
Proof.
  apply (proj1 (logarithm_base_one Demo.platform (VInt 8) 8%float eq_refl eq_refl eq_refl)).
Defined.

Lemma overflow_unwrapped_witness :
  inversepower Demo.platform (VInt (2 ^ 1024)) (VInt 2) = Raise OverflowError.
Proof.
  apply (proj2 (proj2 (overflow_unwrapped Demo.platform (2 ^ 1024)
                         ltac:(vm_compute; reflexivity)))).
Defined.

End Exponents.

(** ** Unit conversion *)

Module Conversion.

Import Py Spec PyFacts mathstuff.
Local Open Scope py_scope.

Section WithPlatform.

Context (P : Platform).

(** C7, at the failing inputs.  When [size] is a tuple that does not have
    exactly one element and the utility fails on it, formatting the message
    with [% size] raises a TypeError, and that TypeError, not the filter
    error, is what [human_readable] and [human_to_bytes] end in. *)
Theorem conversion_error_lost_on_tuples (l : list pyval) (x y : pyval) :
  List.length l <> 1%nat ->
  (forall e, basic_bytes_to_human P (VTuple l) x y = Raise e ->
             human_readable P (VTuple l) x y = Raise TypeError)
  /\ (forall e, basic_human_to_bytes P (VTuple l) x y = Raise e ->
                human_to_bytes P (VTuple l) x y = Raise TypeError).
Proof.
  intros Hl. split; intros e He; unfold human_readable, human_to_bytes; rewrite He;
    destruct l as [|a [|b l]]; simpl in *; try reflexivity; lia.
Qed.

(** X1.  When [size] is not a tuple, a failure of the utility is re-raised
    as the filter error (ConversionError) whose message carries [size]. *)
Theorem conversion_error_wraps (size x y : pyval) :
  match size with VTuple _ => False | _ => True end ->
  (forall e, basic_bytes_to_human P size x y = Raise e ->
             human_readable P size x y = Raise (AnsibleFilterError (HumanReadable size)))
  /\ (forall e, basic_human_to_bytes P size x y = Raise e ->
                human_to_bytes P size x y = Raise (AnsibleFilterError (HumanToBytes size)))
  /\ error_kind (HumanReadable size) = ConversionError
  /\ error_kind (HumanToBytes size) = ConversionError.
Proof.
  intros Hs. repeat split; intros e He; unfold human_readable, human_to_bytes; rewrite He;
    destruct size; simpl in *; try reflexivity; tauto.
Qed.

End WithPlatform.

Lemma conversion_error_lost_on_tuples_witness :
  human_readable Demo.platform (VTuple [VInt 1; VInt 2]) (VBool false) VNone
  = Raise TypeError
  /\ human_to_bytes Demo.platform (VTuple [VInt 1; VInt 2]) VNone (VBool false)
     = Raise TypeError.
Proof.
  split.
  - apply (proj1 (conversion_error_lost_on_tuples Demo.platform
                    [VInt 1; VInt 2] (VBool false) VNone ltac:(discriminate))
             TypeError).
    reflexivity.
  - apply (proj2 (conversion_error_lost_on_tuples Demo.platform
                    [VInt 1; VInt 2] VNone (VBool false) ltac:(discriminate))
             TypeError).
    reflexivity.
Defined.

Lemma conversion_error_wraps_witness :
  human_readable Demo.platform (VStr "ten") (VBool false) VNone
  = Raise (AnsibleFilterError (HumanReadable (VStr "ten"))).
Proof.
  apply (proj1 (conversion_error_wraps Demo.platform (VStr "ten") (VBool false) VNone I)
           TypeError).
  reflexivity.
Defined.

(** *** Every outcome *)

Section Outcomes.

Context (P : Platform).

(** X29.  [human_readable] and [human_to_bytes] return exactly what the
    utility returns, and fail exactly when it fails, with an exception that
    does not depend on the utility's: the filter error that carries [size]
    (the one element of [size], when it is a 1-tuple), or TypeError when
    [size] is any other tuple. *)
Theorem conversion_outcomes (size x y : pyval) :
  (forall r, human_readable P size x y = Ok r <-> basic_bytes_to_human P size x y = Ok r)
  /\ (forall r, human_to_bytes P size x y = Ok r <-> basic_human_to_bytes P size x y = Ok r)
  /\ (forall e,
        human_readable P size x y = Raise e <->
        (exists e', basic_bytes_to_human P size x y = Raise e')
        /\ e = match size with
               | VTuple [v] => AnsibleFilterError (HumanReadable v)
               | VTuple _ => TypeError
               | _ => AnsibleFilterError (HumanReadable size)
               end)
  /\ (forall e,
        human_to_bytes P size x y = Raise e <->
        (exists e', basic_human_to_bytes P size x y = Raise e')
        /\ e = match size with
               | VTuple [v] => AnsibleFilterError (HumanToBytes v)
               | VTuple _ => TypeError
               | _ => AnsibleFilterError (HumanToBytes size)
               end).
Proof.
  unfold human_readable, human_to_bytes. repeat apply conj.
  - intros r. destruct (basic_bytes_to_human P size x y) as [r'|e']; [tauto|].
    split; [|discriminate]. destruct (percent_s HumanReadable size); discriminate.
  - intros r. destruct (basic_human_to_bytes P size x y) as [r'|e']; [tauto|].
    split; [|discriminate]. destruct (percent_s HumanToBytes size); discriminate.
  - intros e. destruct (basic_bytes_to_human P size x y) as [r'|e'].
    + split; [discriminate|]. intros [[e' H] _]. discriminate.
    + split.
      * intros H. split; [eauto|].
        destruct size as [| | | | | | |[|v [|w l]]| |]; simpl in H; congruence.
      * intros [_ ->]. now destruct size as [| | | | | | |[|v [|w l]]| |].
  - intros e. destruct (basic_human_to_bytes P size x y) as [r'|e'].
    + split; [discriminate|]. intros [[e' H] _]. discriminate.
    + split.
      * intros H. split; [eauto|].
        destruct size as [| | | | | | |[|v [|w l]]| |]; simpl in H; congruence.
      * intros [_ ->]. now destruct size as [| | | | | | |[|v [|w l]]| |].
Qed.

End Outcomes.

End Conversion.
